(** * Food-pantry directory: ingestion, normalisation and search

    A shallow embedding of the ingestion and search core of the pantry
    directory server:

    - [Js]: the JavaScript values and string primitives the server code
      relies on ([String.prototype.includes], [trim], [toLowerCase],
      truthiness, [String(v)], [JSON.stringify]);
    - [Normalizer]: [cleanHtmlAndWordPress], the text normaliser of
      [routes.ts];
    - [Storage]: the record store of [storage.ts] ([getPantries],
      [getPantry], [searchPantries], the sync-settings table);
    - [SharePointService]: the remote-list adapter ([getFieldValue],
      [toStringOrNull], [syncListData], [validateMapping]);
    - [Routes]: the two ingestion handlers (CSV upload and SharePoint
      sync), written in a small state-and-exception monad.

    Strings are sequences of code units; the model carries the code units
    below 256 (Rocq's [ascii]), which covers every character the regular
    expressions of the source name.  JavaScript numbers are IEEE-754
    doubles and are modelled by Rocq's primitive floats.  What PostgreSQL
    evaluates ([ILIKE], the trigonometric functions, numeric casts) is a
    parameter of the model. *)

From Stdlib Require Import PrimFloat Ascii String.
From stdpp Require Import base strings list gmap pretty sorting.
From Stdlib Require Import Sorting.Permutation.

Local Open Scope string_scope.
Set Warnings "-register-all,-inexact-float".

(** ** JavaScript strings *)

Module Js.

(** [\s] of a regular expression and the white space [trim] removes:
    TAB, LF, VT, FF, CR, SPACE and NO-BREAK SPACE (the members below 256). *)
Definition isSpace (c : ascii) : bool :=
  match c with
  | "009" | "010" | "011" | "012" | "013" | " " | "160" => true
  | _ => false
  end%char.

Definition isDigit (c : ascii) : bool :=
  match c with
  | "0" | "1" | "2" | "3" | "4" | "5" | "6" | "7" | "8" | "9" => true
  | _ => false
  end%char.

(** Truthiness of a string: non-empty. *)
Definition truthyStr (s : string) : bool :=
  match s with "" => false | String _ _ => true end.

(** [s.startsWith(pat)]. *)
Fixpoint startsWith (pat s : string) : bool :=
  match pat, s with
  | "", _ => true
  | String a pat', String b s' => if decide (a = b) then startsWith pat' s' else false
  | String _ _, "" => false
  end.

(** [s.includes(pat)]. *)
Fixpoint includes (pat s : string) : bool :=
  startsWith pat s ||
  match s with
  | "" => false
  | String _ s' => includes pat s'
  end.

(** [s.replace(/pat/g, rep)] for a literal, non-empty pattern: matches are
    taken left to right and do not overlap.  [skip] counts the code units
    of the current match still to be dropped. *)
Fixpoint replaceAll_go (pat rep : string) (skip : nat) (s : string) : string :=
  match s with
  | "" => ""
  | String c s' =>
      match skip with
      | S k => replaceAll_go pat rep k s'
      | O =>
          if startsWith pat s
          then rep +:+ replaceAll_go pat rep (String.length pat - 1) s'
          else String c (replaceAll_go pat rep 0 s')
      end
  end.

Definition replaceAll (pat rep s : string) : string := replaceAll_go pat rep 0 s.

(** [s.trimStart()], [s.trimEnd()], [s.trim()]. *)
Fixpoint trimStart (s : string) : string :=
  match s with
  | "" => ""
  | String c s' => if isSpace c then trimStart s' else s
  end.

Fixpoint trimEnd (s : string) : string :=
  match s with
  | "" => ""
  | String c s' =>
      let r := trimEnd s' in
      if isSpace c && negb (truthyStr r) then "" else String c r
  end.

Definition trim (s : string) : string := trimEnd (trimStart s).

(** [s.toLowerCase()] on code units below 256: A-Z and the accented
    capitals of Latin-1 (all of 192..222 except the multiplication sign). *)
Definition lowerChar (c : ascii) : ascii :=
  let n := nat_of_ascii c in
  if (65 <=? n)%nat && (n <=? 90)%nat then ascii_of_nat (n + 32)
  else if (192 <=? n)%nat && (n <=? 222)%nat && negb (n =? 215)%nat then ascii_of_nat (n + 32)
  else c.

Fixpoint toLowerCase (s : string) : string :=
  match s with
  | "" => ""
  | String c s' => String (lowerChar c) (toLowerCase s')
  end.

(** [/^[0-9]+$/.test(s)]. *)
Fixpoint allDigits (s : string) : bool :=
  match s with
  | "" => true
  | String c s' => isDigit c && allDigits s'
  end.

Definition testDigitsOnly (s : string) : bool := truthyStr s && allDigits s.

(** ** JavaScript values *)

(** The values a parsed JSON document or a handler-built object can hold.
    An object is its list of own properties in enumeration order (keys are
    unique). *)
Inductive JsValue : Type :=
| JUndefined
| JNull
| JBool (b : bool)
| JNumber (x : float)
| JString (s : string)
| JArray (xs : list JsValue)
| JObject (props : list (string * JsValue)).

(** Truthiness, as [if (v)], [!v] and [v || w] test it. *)
Definition truthy (v : JsValue) : bool :=
  match v with
  | JUndefined | JNull => false
  | JBool b => b
  | JNumber x => negb (is_nan x || is_zero x)
  | JString s => truthyStr s
  | JArray _ | JObject _ => true
  end.

(** [v === s] for a string [s]. *)
Definition strictEqString (v : JsValue) (s : string) : bool :=
  match v with
  | JString s' => bool_decide (s' = s)
  | _ => false
  end.

(** [v || w]. *)
Definition orElse (v w : JsValue) : JsValue := if truthy v then v else w.

Fixpoint assoc (k : string) (props : list (string * JsValue)) : JsValue :=
  match props with
  | [] => JUndefined
  | (k', v) :: rest => if decide (k = k') then v else assoc k rest
  end.

(** [v.k] for a value that is not null or undefined. *)
Definition prop (v : JsValue) (k : string) : JsValue :=
  match v with
  | JObject props => assoc k props
  | _ => JUndefined
  end.

(** [typeof v === 'object' && v !== null]. *)
Definition isObject (v : JsValue) : bool :=
  match v with
  | JArray _ | JObject _ => true
  | _ => false
  end.

Fixpoint join (sep : string) (parts : list string) : string :=
  match parts with
  | [] => ""
  | [p] => p
  | p :: rest => p +:+ sep +:+ join sep rest
  end.

Definition hexDigit (n : nat) : ascii :=
  match n with
  | 0 => "0" | 1 => "1" | 2 => "2" | 3 => "3" | 4 => "4" | 5 => "5" | 6 => "6"
  | 7 => "7" | 8 => "8" | 9 => "9" | 10 => "a" | 11 => "b" | 12 => "c"
  | 13 => "d" | 14 => "e" | _ => "f"
  end%char.

Definition dquote : ascii := "034"%char.
Definition backslash : ascii := "092"%char.

(** One code unit inside a JSON string literal. *)
Definition quoteChar (c : ascii) : string :=
  match c with
  | "034"%char => String backslash (String dquote "")
  | "092"%char => String backslash (String backslash "")
  | "008"%char => String backslash "b"
  | "009"%char => String backslash "t"
  | "010"%char => String backslash "n"
  | "012"%char => String backslash "f"
  | "013"%char => String backslash "r"
  | _ =>
      let n := nat_of_ascii c in
      if (n <? 32)%nat
      then String backslash "u00" +:+ String (hexDigit (n / 16)) (String (hexDigit (n mod 16)) "")
      else String c ""
  end.

Fixpoint quoteBody (s : string) : string :=
  match s with
  | "" => ""
  | String c s' => quoteChar c +:+ quoteBody s'
  end.

(** [JSON.stringify] of a string: the quoted literal. *)
Definition quoteJSONString (s : string) : string :=
  String dquote (quoteBody s +:+ String dquote "").

Section Conversions.
(** [Number.prototype.toString], the runtime's shortest round-trip
    rendering of a double. *)
Variable numberToString : float → string.

(** [String(v)]. *)
Fixpoint toStr (v : JsValue) : string :=
  match v with
  | JUndefined => "undefined"
  | JNull => "null"
  | JBool true => "true"
  | JBool false => "false"
  | JNumber x => numberToString x
  | JString s => s
  | JArray xs =>
      join "," (List.map (fun x => match x with
                                   | JUndefined | JNull => ""
                                   | _ => toStr x
                                   end) xs)
  | JObject _ => "[object Object]"
  end.

(** [JSON.stringify(v)]; [None] is the [undefined] it returns for
    [undefined]. *)
Fixpoint stringify (v : JsValue) : option string :=
  match v with
  | JUndefined => None
  | JNull => Some "null"
  | JBool true => Some "true"
  | JBool false => Some "false"
  | JNumber x => Some (if is_finite x then numberToString x else "null")
  | JString s => Some (quoteJSONString s)
  | JArray xs =>
      Some ("[" +:+ join "," (List.map (fun x => default "null" (stringify x)) xs) +:+ "]")
  | JObject props =>
      Some ("{" +:+
            join ","
              (List.concat
                 (List.map (fun kv => match stringify (snd kv) with
                                      | Some t => [quoteJSONString (fst kv) +:+ ":" +:+ t]
                                      | None => []
                                      end) props)) +:+
            "}")
  end.
End Conversions.

End Js.

(** ** The text normaliser of [routes.ts] *)

Module Normalizer.
Import Js.

(** Index of the first [>] of [s], if any. *)
Fixpoint indexOfGt (s : string) : option nat :=
  match s with
  | "" => None
  | String c s' => if decide (c = ">"%char) then Some 0 else S <$> indexOfGt s'
  end.

Definition hasGt (s : string) : bool := bool_decide (is_Some (indexOfGt s)).

Fixpoint dropPrefix (pat s : string) : option string :=
  match pat, s with
  | "", _ => Some s
  | String a pat', String b s' => if decide (a = b) then dropPrefix pat' s' else None
  | String _ _, "" => None
  end.

Fixpoint countSpaces (s : string) : nat :=
  match s with
  | String c s' => if isSpace c then S (countSpaces s') else 0
  | "" => 0
  end.

Fixpoint dropN (n : nat) (s : string) : string :=
  match n, s with
  | S k, String _ s' => dropN k s'
  | _, _ => s
  end.

Fixpoint takeN (n : nat) (s : string) : string :=
  match n, s with
  | S k, String c s' => String c (takeN k s')
  | _, _ => ""
  end.

(** Length of the match of [/<!--\s*\/?wp:[^>]*-->/] anchored at the start
    of [s].  After [wp:] the class [[^>]*] cannot cross a [>], so the
    closing [-->] ends at the first [>] that follows, and the two code
    units before that [>] must be dashes. *)
Definition matchWpComment (s : string) : option nat :=
  r1 ← dropPrefix "<!--" s;
  let k := countSpaces r1 in
  let r2 := dropN k r1 in
  let slash := if startsWith "/" r2 then 1%nat else 0%nat in
  r3 ← dropPrefix "wp:" (dropN slash r2);
  j ← indexOfGt r3;
  if decide (2 ≤ j)%nat then
    if decide (takeN 2 (dropN (j - 2) r3) = "--")
    then Some (4 + k + slash + 3 + j + 1)%nat
    else None
  else None.

(** [.replace(/<!--\s*\/?wp:[^>]*-->/g, '')]. *)
Fixpoint removeWpComments_go (skip : nat) (s : string) : string :=
  match s with
  | "" => ""
  | String c s' =>
      match skip with
      | S k => removeWpComments_go k s'
      | O =>
          match matchWpComment s with
          | Some n => removeWpComments_go (n - 1) s'
          | None => String c (removeWpComments_go 0 s')
          end
      end
  end.

Definition removeWpComments (s : string) : string := removeWpComments_go 0 s.

(** [.replace(/<[^>]*>/g, '')]: a [<] opens a tag when a [>] follows
    somewhere; the tag runs to the first such [>]. *)
Fixpoint removeTags_go (inTag : bool) (s : string) : string :=
  match s with
  | "" => ""
  | String c s' =>
      if inTag then
        if decide (c = ">"%char) then removeTags_go false s' else removeTags_go true s'
      else if decide (c = "<"%char) then
        if hasGt s' then removeTags_go true s' else String c (removeTags_go false s')
      else String c (removeTags_go false s')
  end.

Definition removeTags (s : string) : string := removeTags_go false s.

(** [.replace(/\s+/g, ' ')]. *)
Fixpoint collapseSpaces_go (inRun : bool) (s : string) : string :=
  match s with
  | "" => ""
  | String c s' =>
      if isSpace c then
        if inRun then collapseSpaces_go true s'
        else String " " (collapseSpaces_go true s')
      else String c (collapseSpaces_go false s')
  end.

Definition collapseSpaces (s : string) : string := collapseSpaces_go false s.

Definition decodeEntities (s : string) : string :=
  replaceAll "&#39;" "'"
    (replaceAll "&quot;" (String "034"%char "")
      (replaceAll "&gt;" ">"
        (replaceAll "&lt;" "<"
          (replaceAll "&amp;" "&"
            (replaceAll "&nbsp;" " " s))))).

(** [cleanHtmlAndWordPress(text)] for a string argument. *)
Definition cleanHtmlAndWordPress (text : string) : string :=
  if negb (truthyStr text) then text
  else trim (collapseSpaces (decodeEntities (removeTags (removeWpComments text)))).

End Normalizer.

(** ** The tables of [shared/schema.ts] *)

Module Schema.
Import Js.

(** A row of [pantries].  A [decimal] column holds its value as the text
    the driver reads and writes; [None] is SQL [NULL].  The two timestamp
    columns play no part in ingestion or search and are left out. *)
Module Pantry.
Record t : Type := make {
  id : string;
  name : string;
  address : string;
  city : string;
  state : string;
  zipCode : string;
  phone : option string;
  email : option string;
  website : option string;
  latitude : option string;
  longitude : option string;
  hours : option string;
  description : option string;
  services : option (list string);
  accessType : option string;
  isActive : option bool
}.
End Pantry.

(** What [insertPantrySchema.parse] returns: [InsertPantry] without the
    generated columns.  For [isActive], [None] is an absent key (the column
    default [true] applies) and [Some None] is an explicit [null]. *)
Module InsertPantry.
Record t : Type := make {
  name : string;
  address : string;
  city : string;
  state : string;
  zipCode : string;
  phone : option string;
  email : option string;
  website : option string;
  latitude : option string;
  longitude : option string;
  hours : option string;
  description : option string;
  services : option (list string);
  accessType : option string;
  isActive : option (option bool)
}.
End InsertPantry.

(** The object a handler builds before validation: any value may sit under
    any key. *)
Module PantryData.
Record t : Type := make {
  name : JsValue;
  address : JsValue;
  city : JsValue;
  state : JsValue;
  zipCode : JsValue;
  phone : JsValue;
  email : JsValue;
  website : JsValue;
  latitude : JsValue;
  longitude : JsValue;
  hours : JsValue;
  description : JsValue;
  services : JsValue;
  accessType : JsValue;
  isActive : JsValue
}.
End PantryData.

(** A row of [data_sync_settings].  [columnMapping] is the JSON object
    read as [Record<string, string>]; the empty map stands for [null]
    (the code reads it as [columnMapping || {}]). *)
Module DataSyncSettings.
Record t : Type := make {
  id : string;
  tenantId : option string;
  clientId : option string;
  clientSecret : option string;
  siteId : option string;
  listId : option string;
  columnMapping : gmap string string;
  lastSync : option Z;
  syncStatus : option string;
  lastError : option string;
  isActive : option bool
}.
End DataSyncSettings.

(** The [Partial<InsertDataSyncSettings>] objects the sync handler passes
    to [updateDataSyncSettings]: [None] is an absent key, and for
    [lastError] the inner [None] is [null]. *)
Module SyncPatch.
Record t : Type := make {
  syncStatus : option string;
  lastSync : option Z;
  lastError : option (option string)
}.
End SyncPatch.

(** [z.string()]. *)
Definition zString (v : JsValue) : option string :=
  match v with JString s => Some s | _ => None end.

(** [z.string().nullable().optional()]: the outer [None] is a type error. *)
Definition zOptString (v : JsValue) : option (option string) :=
  match v with
  | JUndefined | JNull => Some None
  | JString s => Some (Some s)
  | _ => None
  end.

(** [z.array(z.string()).nullable().optional()]. *)
Definition zOptStrings (v : JsValue) : option (option (list string)) :=
  match v with
  | JUndefined | JNull => Some None
  | JArray xs => Some <$> mapM zString xs
  | _ => None
  end.

(** [z.boolean().nullable().optional()]. *)
Definition zOptBool (v : JsValue) : option (option (option bool)) :=
  match v with
  | JUndefined => Some None
  | JNull => Some (Some None)
  | JBool b => Some (Some (Some b))
  | _ => None
  end.

(** [insertPantrySchema.parse(data)]; [None] is a thrown [ZodError]. *)
Definition insertPantrySchema_parse (d : PantryData.t) : option InsertPantry.t :=
  name ← zString (PantryData.name d);
  address ← zString (PantryData.address d);
  city ← zString (PantryData.city d);
  state ← zString (PantryData.state d);
  zipCode ← zString (PantryData.zipCode d);
  phone ← zOptString (PantryData.phone d);
  email ← zOptString (PantryData.email d);
  website ← zOptString (PantryData.website d);
  latitude ← zOptString (PantryData.latitude d);
  longitude ← zOptString (PantryData.longitude d);
  hours ← zOptString (PantryData.hours d);
  description ← zOptString (PantryData.description d);
  services ← zOptStrings (PantryData.services d);
  accessType ← zOptString (PantryData.accessType d);
  isActive ← zOptBool (PantryData.isActive d);
  Some (InsertPantry.make name address city state zipCode phone email website
          latitude longitude hours description services accessType isActive).

End Schema.

(** ** The record store of [storage.ts] *)

Module Storage.
Import Js Schema.

(** The two tables.  A table is a bag of rows; each list holds the rows in
    the order a scan delivers them.  None of the selects below carries an
    [ORDER BY], so the store is free to deliver the same rows in another
    order. *)
Record Store : Type := mkStore {
  pantries : list Pantry.t;
  dataSyncSettings : list DataSyncSettings.t
}.

(** The row an [INSERT ... RETURNING] produces, given the generated id. *)
Definition insertedRow (newId : string) (d : InsertPantry.t) : Pantry.t :=
  Pantry.make newId
    (InsertPantry.name d) (InsertPantry.address d) (InsertPantry.city d)
    (InsertPantry.state d) (InsertPantry.zipCode d) (InsertPantry.phone d)
    (InsertPantry.email d) (InsertPantry.website d) (InsertPantry.latitude d)
    (InsertPantry.longitude d) (InsertPantry.hours d) (InsertPantry.description d)
    (InsertPantry.services d) (InsertPantry.accessType d)
    (default (Some true) (InsertPantry.isActive d)).

(** SQL's three-valued conjunction over a list of conditions; [None] is
    [NULL].  A row is selected when the [WHERE] clause is [Some true]. *)
Definition sqlAnd (a b : option bool) : option bool :=
  match a, b with
  | Some false, _ | _, Some false => Some false
  | Some true, Some true => Some true
  | _, _ => None
  end.

Definition sqlAll (conds : list (option bool)) : option bool :=
  foldr sqlAnd (Some true) conds.

Definition selected (w : option bool) : bool :=
  match w with Some true => true | _ => false end.

(** [eq(pantries.isActive, true)]. *)
Definition isActiveCond (p : Pantry.t) : option bool := Pantry.isActive p.

(** [getPantries()]. *)
Definition getPantries (rows : list Pantry.t) : list Pantry.t :=
  List.filter (fun p => selected (isActiveCond p)) rows.

(** [getPantry(id)]: the first row of the select, or [undefined]. *)
Definition getPantry (rows : list Pantry.t) (id : string) : option Pantry.t :=
  head (List.filter (fun p => bool_decide (Pantry.id p = id)) rows).

(** [deletePantry(id)]. *)
Definition softDelete (p : Pantry.t) : Pantry.t :=
  Pantry.make (Pantry.id p) (Pantry.name p) (Pantry.address p) (Pantry.city p)
    (Pantry.state p) (Pantry.zipCode p) (Pantry.phone p) (Pantry.email p)
    (Pantry.website p) (Pantry.latitude p) (Pantry.longitude p) (Pantry.hours p)
    (Pantry.description p) (Pantry.services p) (Pantry.accessType p) (Some false).

Definition deletePantry (rows : list Pantry.t) (id : string) : list Pantry.t :=
  List.map (fun p => if decide (Pantry.id p = id) then softDelete p else p) rows.

(** Truthiness of an optional [number] argument. *)
Definition truthyNumber (x : option float) : bool :=
  match x with
  | None => false
  | Some f => negb (is_nan f || is_zero f)
  end.

Section Search.
(** What PostgreSQL evaluates: [value ILIKE pattern], the decimal text
    of a coordinate column read as double precision, and the
    double-precision functions [radians], [cos], [sin] and [acos]. *)
Variable ilike : string → string → bool.
Variable float8 : string → float.
Variables radians cos sin acos : float → float.

(** The text condition pushed for a non-blank query. *)
Definition textCond (searchTerm : string) (p : Pantry.t) : option bool :=
  Some (ilike (Pantry.name p) searchTerm ||
        ilike (Pantry.address p) searchTerm ||
        ilike (Pantry.city p) searchTerm ||
        ilike (Pantry.state p) searchTerm ||
        ilike (Pantry.zipCode p) searchTerm).

(** [distanceFormula], in kilometres; [NULL] when a coordinate is. *)
Definition distanceFormula (latitude longitude : float) (p : Pantry.t) : option float :=
  plat ← Pantry.latitude p;
  plng ← Pantry.longitude p;
  Some (6371 *
        acos (cos (radians latitude) *
              cos (radians (float8 plat)) *
              cos (radians (float8 plng) - radians longitude) +
              sin (radians latitude) *
              sin (radians (float8 plat))))%float.

Definition isNotNull {A} (x : option A) : option bool := Some (bool_decide (is_Some x)).

Definition distanceCond (latitude longitude radiusInKm : float) (p : Pantry.t) : option bool :=
  (fun d => d <=? radiusInKm)%float <$> distanceFormula latitude longitude p.

(** The [conditions] array [searchPantries] builds.  The literal
    [1.60934] denotes the nearest double, as it does in JavaScript. *)
Definition searchConditions (query : string) (latitude longitude radius : option float)
  : list (Pantry.t → option bool) :=
  [isActiveCond] ++
  (if truthyStr query && truthyStr (trim query)
   then [textCond ("%" +:+ trim query +:+ "%")]
   else []) ++
  (match latitude, longitude, radius with
   | Some lat, Some lng, Some r =>
       if truthyNumber latitude && truthyNumber longitude && truthyNumber radius
       then
         let radiusInKm := (r * 1.60934)%float in
         [ (fun p => isNotNull (Pantry.latitude p));
           (fun p => isNotNull (Pantry.longitude p));
           distanceCond lat lng radiusInKm ]
       else []
   | _, _, _ => []
   end).

(** [searchPantries(query, latitude, longitude, radius)] over the rows
    of [pantries] in the order the store delivers them. *)
Definition searchPantries (query : string) (latitude longitude radius : option float)
    (rows : list Pantry.t) : list Pantry.t :=
  let conditions := searchConditions query latitude longitude radius in
  List.filter (fun p => selected (sqlAll (List.map (fun c => c p) conditions))) rows.
End Search.

(** [getDataSyncSettings()]. *)
Definition getDataSyncSettings (st : Store) : list DataSyncSettings.t :=
  List.filter (fun s => selected (DataSyncSettings.isActive s)) (dataSyncSettings st).

Definition applyPatch (patch : SyncPatch.t) (s : DataSyncSettings.t) : DataSyncSettings.t :=
  DataSyncSettings.make (DataSyncSettings.id s)
    (DataSyncSettings.tenantId s) (DataSyncSettings.clientId s)
    (DataSyncSettings.clientSecret s) (DataSyncSettings.siteId s)
    (DataSyncSettings.listId s) (DataSyncSettings.columnMapping s)
    (match SyncPatch.lastSync patch with
     | Some t => Some t
     | None => DataSyncSettings.lastSync s
     end)
    (match SyncPatch.syncStatus patch with
     | Some v => Some v
     | None => DataSyncSettings.syncStatus s
     end)
    (default (DataSyncSettings.lastError s) (SyncPatch.lastError patch))
    (DataSyncSettings.isActive s).

(** [updateDataSyncSettings(id, patch)]. *)
Definition updateDataSyncSettings (id : string) (patch : SyncPatch.t) (st : Store) : Store :=
  mkStore (pantries st)
    (List.map (fun s => if decide (DataSyncSettings.id s = id) then applyPatch patch s else s)
       (dataSyncSettings st)).

(** [createPantry(data)], given the id the database generates. *)
Definition createPantry (newId : string) (d : InsertPantry.t) (st : Store) : Store * Pantry.t :=
  let row := insertedRow newId d in
  (mkStore (pantries st ++ [row]) (dataSyncSettings st), row).

End Storage.

(** ** Outcomes of calls that may throw *)

Module Effects.

(** A call either returns or throws an [Error] with a message. *)
Inductive Outcome (A : Type) : Type :=
| Returned (a : A)
| Thrown (message : string).
Arguments Returned {A} a.
Arguments Thrown {A} message.

Definition andThen {A B} (o : Outcome A) (k : A → Outcome B) : Outcome B :=
  match o with
  | Returned a => k a
  | Thrown m => Thrown m
  end.

End Effects.

(** ** The remote-list adapter of [sharepointService.ts] *)

Module SharePointService.
Import Js Schema Effects.

(** A list item: [fields] keyed by the list's internal column names. *)
Record SharePointListItem : Type := mkItem {
  itemId : string;
  fields : gmap string JsValue
}.

(** What the remote service answers during one request: the token
    exchange and the columns fetch of [validateMapping], then the token
    exchange and the items fetch of [syncListData].  A [Thrown] fetch
    carries the message of the error the service method raises. *)
Record Remote : Type := mkRemote {
  tokenForColumns : Outcome string;
  columnsFetch : Outcome (list string);
  tokenForItems : Outcome string;
  itemsFetch : Outcome (list SharePointListItem)
}.

Definition truthyOpt (x : option string) : bool :=
  match x with Some s => truthyStr s | None => false end.

(** [getAccessToken(settings)], given the answer of the token endpoint. *)
Definition getAccessToken (token : Outcome string) (settings : DataSyncSettings.t)
  : Outcome string :=
  if negb (truthyOpt (DataSyncSettings.tenantId settings)) ||
     negb (truthyOpt (DataSyncSettings.clientId settings)) ||
     negb (truthyOpt (DataSyncSettings.clientSecret settings))
  then Thrown "Missing SharePoint authentication credentials"
  else token.

(** [getListColumns(settings)], reduced to the column names
    [validateMapping] reads. *)
Definition getListColumns (remote : Remote) (settings : DataSyncSettings.t)
  : Outcome (list string) :=
  if negb (truthyOpt (DataSyncSettings.siteId settings)) ||
     negb (truthyOpt (DataSyncSettings.listId settings))
  then Thrown "Site ID and List ID are required to fetch columns"
  else andThen (getAccessToken (tokenForColumns remote) settings)
         (fun _ => columnsFetch remote).

Definition requiredFields : list string := ["name"; "address"; "city"; "state"; "zipCode"].

(** The error [validateMapping] pushes for one required field, if any. *)
Definition fieldError (mapping : gmap string string) (availableColumns : list string)
    (field : string) : list string :=
  match mapping !! field with
  | Some mappedColumn =>
      if negb (truthyStr mappedColumn)
      then ["Required field '" +:+ field +:+ "' is not mapped"]
      else if bool_decide (mappedColumn ∈ availableColumns) then []
      else ["Mapped column '" +:+ mappedColumn +:+ "' for field '" +:+ field +:+
            "' does not exist in the SharePoint list"]
  | None => ["Required field '" +:+ field +:+ "' is not mapped"]
  end.

Record Validation : Type := mkValidation {
  valid : bool;
  errors : list string
}.

(** [validateMapping(settings)]: it catches what the columns fetch throws
    and never throws itself. *)
Definition validateMapping (remote : Remote) (settings : DataSyncSettings.t) : Validation :=
  let errors :=
    match getListColumns remote settings with
    | Returned availableColumns =>
        let mapping := DataSyncSettings.columnMapping settings in
        List.concat (List.map (fieldError mapping availableColumns) requiredFields)
    | Thrown message => ["Failed to validate mapping: " +:+ message]
    end in
  mkValidation (bool_decide (errors = [])) errors.

Section Adapter.
Variable numberToString : float → string.

(** [getFieldValue(pantryField)] inside [syncListData]. *)
Definition getFieldValue (mapping : gmap string string) (fields : gmap string JsValue)
    (pantryField : string) : JsValue :=
  match mapping !! pantryField with
  | None => JNull
  | Some sharepointField =>
      if negb (truthyStr sharepointField) then JNull
      else
        match default JUndefined (fields !! sharepointField) with
        | JNull | JUndefined => JNull
        | JString s => if truthyStr s then JString (trim s) else JNull
        | value => value
        end
  end.

(** [toStringOrEmpty(value)]. *)
Definition toStringOrEmpty (value : JsValue) : string :=
  match value with
  | JNull | JUndefined | JString "" => ""
  | _ => toStr numberToString value
  end.

(** The sub-keys [toStringOrNull] tries on an object, in order. *)
Definition urlKeys : list string := ["Url"; "url"; "URL"; "Description"; "description"].

Fixpoint firstTruthyProp (value : JsValue) (keys : list string) : option JsValue :=
  match keys with
  | [] => None
  | k :: rest =>
      if truthy (prop value k) then Some (prop value k) else firstTruthyProp value rest
  end.

(** [toStringOrNull(value)]; [None] is [null]. *)
Definition toStringOrNull (value : JsValue) : option string :=
  match value with
  | JNull | JUndefined | JString "" => None
  | _ =>
      if isObject value then
        match firstTruthyProp value urlKeys with
        | Some sub => Some (toStr numberToString sub)
        | None => stringify numberToString value
        end
      else Some (toStr numberToString value)
  end.

Definition ofOptString (x : option string) : JsValue :=
  match x with Some s => JString s | None => JNull end.

(** The [pantry] object [syncListData] builds for one item. *)
Definition pantryOfItem (mapping : gmap string string) (item : SharePointListItem)
  : PantryData.t :=
  let get := getFieldValue mapping (fields item) in
  PantryData.make
    (orElse (get "name") (JString "Unknown Pantry"))
    (orElse (get "address") (JString ""))
    (orElse (get "city") (JString ""))
    (orElse (get "state") (JString ""))
    (JString (toStringOrEmpty (get "zipCode")))
    (ofOptString (toStringOrNull (get "phone")))
    (get "email")
    (ofOptString (toStringOrNull (get "website")))
    (ofOptString (toStringOrNull (get "latitude")))
    (ofOptString (toStringOrNull (get "longitude")))
    (get "hours")
    (get "description")
    (if truthy (get "services") then JArray [get "services"] else JArray [])
    (get "accessType")
    (JBool true).

(** [pantry.name && pantry.name !== 'Unknown Pantry']. *)
Definition usableName (d : PantryData.t) : bool :=
  truthy (PantryData.name d) &&
  negb (strictEqString (PantryData.name d) "Unknown Pantry").

(** [syncListData(settings)]. *)
Definition syncListData (remote : Remote) (settings : DataSyncSettings.t)
  : Outcome (list PantryData.t) :=
  if negb (truthyOpt (DataSyncSettings.siteId settings)) ||
     negb (truthyOpt (DataSyncSettings.listId settings))
  then Thrown "Site ID and List ID are required for data sync"
  else
    andThen (getAccessToken (tokenForItems remote) settings) (fun _ =>
    andThen (itemsFetch remote) (fun items =>
    let mapping := DataSyncSettings.columnMapping settings in
    Returned (List.filter usableName (List.map (pantryOfItem mapping) items)))).
End Adapter.

End SharePointService.

(** ** The ingestion handlers of [routes.ts] *)

Module Routes.
Import Js Normalizer Schema Storage Effects SharePointService.

(** The state a request runs against: the store, and how many statements
    the request has issued so far against each of the two tables. *)
Record World : Type := mkWorld {
  store : Store;
  pantryStatements : nat;
  settingsStatements : nat
}.

(** What lies outside the handler during one request. *)
Record Env : Type := mkEnv {
  (** the [n]-th [INSERT] into [pantries]: the generated id, or the
      error the database raises *)
  insertOutcome : nat → Outcome string;
  (** the error of the [n]-th statement on [data_sync_settings], if it
      fails *)
  settingsFault : nat → option string;
  (** [new Date()] *)
  now : Z;
  (** the message of the [ZodError] for an object that fails validation *)
  zodMessage : PantryData.t → string;
  remote : Remote
}.

(** Computations that read and write the world and may throw. *)
Definition M (A : Type) : Type := World → World * Outcome A.

Definition ret {A} (a : A) : M A := fun w => (w, Returned a).
Definition throw {A} (message : string) : M A := fun w => (w, Thrown message).
Definition bind {A B} (m : M A) (k : A → M B) : M B :=
  fun w =>
    match m w with
    | (w', Returned a) => k a w'
    | (w', Thrown message) => (w', Thrown message)
    end.
(** [try { m } catch (error) { handler(error.message) }]. *)
Definition tryCatch {A} (m : M A) (handler : string → M A) : M A :=
  fun w =>
    match m w with
    | (w', Returned a) => (w', Returned a)
    | (w', Thrown message) => handler message w'
    end.
Definition lift {A} (o : Outcome A) : M A := fun w => (w, o).

Notation "'do' x <- m ; k" := (bind m (fun x => k))
  (at level 10, x name, m at level 100, k at level 200, only parsing).

Section Handlers.
Variable env : Env.
Variable numberToString : float → string.

(** *** The store, as the handlers call it *)

Definition settingsStatement {A} (run : Store → Store * A) : M A :=
  fun w =>
    let w' st := mkWorld st (pantryStatements w) (S (settingsStatements w)) in
    match settingsFault env (settingsStatements w) with
    | Some message => (w' (store w), Thrown message)
    | None => let '(st, a) := run (store w) in (w' st, Returned a)
    end.

Definition storage_getDataSyncSettings : M (list DataSyncSettings.t) :=
  settingsStatement (fun st => (st, getDataSyncSettings st)).

Definition storage_updateDataSyncSettings (id : string) (patch : SyncPatch.t) : M unit :=
  settingsStatement (fun st => (updateDataSyncSettings id patch st, tt)).

Definition storage_createPantry (d : InsertPantry.t) : M Pantry.t :=
  fun w =>
    let w' st := mkWorld st (S (pantryStatements w)) (settingsStatements w) in
    match insertOutcome env (pantryStatements w) with
    | Thrown message => (w' (store w), Thrown message)
    | Returned newId => let '(st, row) := createPantry newId d (store w) in (w' st, Returned row)
    end.

Definition parse (d : PantryData.t) : M InsertPantry.t :=
  match insertPantrySchema_parse d with
  | Some validatedData => ret validatedData
  | None => throw (zodMessage env d)
  end.

(** *** POST /api/admin/upload-csv *)

(** A parsed CSV row: header to cell. *)
Definition Row : Type := gmap string string.

(** The ['data'] listener: which rows reach [results]. *)
Definition keepRow (data : Row) : bool :=
  match data !! "name" with
  | Some name => truthyStr name && truthyStr (trim name) && negb (includes "wpsl_id" name)
  | None => false
  end.

(** [row.k1 || row.k2 || ...]: the first non-empty cell, if any. *)
Fixpoint firstCell (row : Row) (keys : list string) : option string :=
  match keys with
  | [] => None
  | k :: rest =>
      match row !! k with
      | Some v => if truthyStr v then Some v else firstCell row rest
      | None => firstCell row rest
      end
  end.

Definition cleaned (cell : option string) : string :=
  match cell with
  | Some v => cleanHtmlAndWordPress v
  | None => ""
  end.

Definition getName (row : Row) : string :=
  cleaned (firstCell row ["name"; "Name"; "pantry_name"; "Pantry Name"]).
Definition getAddress (row : Row) : string :=
  cleaned (firstCell row ["address"; "Address"; "street_address"; "Street Address"]).
Definition getCity (row : Row) : string :=
  cleaned (firstCell row ["city"; "City"]).
Definition getState (row : Row) : string :=
  cleaned (firstCell row ["state"; "State"; "st"; "ST"]).
Definition getZip (row : Row) : string :=
  default "" (firstCell row ["zip"; "zipcode"; "zip_code"; "Zip Code"; "postal_code"]).
Definition getPhone (row : Row) : option string :=
  firstCell row ["phone"; "Phone"; "telephone"; "Phone Number"].
Definition getEmail (row : Row) : option string :=
  firstCell row ["email"; "Email"; "Email Address"].
Definition getHours (row : Row) : option string :=
  cleanHtmlAndWordPress <$> firstCell row ["hours"; "Hours"; "operating_hours"; "Operating Hours"].
Definition getAccessType (row : Row) : option string :=
  match firstCell row ["access_type"; "Access Type"; "access"] with
  | Some access =>
      if includes "walk" (toLowerCase access) then Some "walk-in"
      else if includes "appointment" (toLowerCase access) then Some "appointment"
      else if includes "mobile" (toLowerCase access) then Some "mobile"
      else None
  | None => None
  end.
Definition getDescription (row : Row) : option string :=
  cleanHtmlAndWordPress <$> firstCell row ["description"; "Description"; "notes"; "Notes"].

(** The guard of the mapping step: header-like, empty or invalid names. *)
Definition skipName (name : string) : bool :=
  negb (truthyStr name) ||
  includes "wpsl_id" (toLowerCase name) ||
  includes "food pantry" (toLowerCase name) ||
  (String.length (trim name) <? 3)%nat ||
  testDigitsOnly (trim name).

(** The callback of [results.map]; [None] is the [null] it returns for
    a skipped row. *)
Definition mapRow (row : Row) : option PantryData.t :=
  let name := getName row in
  let address := getAddress row in
  let city := getCity row in
  let state := getState row in
  if skipName name then None
  else Some (PantryData.make
    (JString name) (JString address) (JString city) (JString state)
    (JString (getZip row))
    (ofOptString (getPhone row))
    (ofOptString (getEmail row))
    JUndefined
    (ofOptString (firstCell row ["lat"; "latitude"]))
    (ofOptString (firstCell row ["lng"; "longitude"; "lon"]))
    (ofOptString (getHours row))
    (ofOptString (getDescription row))
    (match row !! "services" with
     | Some v => if truthyStr v then JArray [JString v] else JArray []
     | None => JArray []
     end)
    (ofOptString (getAccessType row))
    JUndefined).

(** The candidates the import loop runs over, in row order. *)
Definition candidates (rows : list Row) : list PantryData.t :=
  omap mapRow (List.filter keepRow rows).

Definition withState (v : JsValue) (d : PantryData.t) : PantryData.t :=
  PantryData.make (PantryData.name d) (PantryData.address d) (PantryData.city d) v
    (PantryData.zipCode d) (PantryData.phone d) (PantryData.email d)
    (PantryData.website d) (PantryData.latitude d) (PantryData.longitude d)
    (PantryData.hours d) (PantryData.description d) (PantryData.services d)
    (PantryData.accessType d) (PantryData.isActive d).

Definition withCity (v : JsValue) (d : PantryData.t) : PantryData.t :=
  PantryData.make (PantryData.name d) (PantryData.address d) v (PantryData.state d)
    (PantryData.zipCode d) (PantryData.phone d) (PantryData.email d)
    (PantryData.website d) (PantryData.latitude d) (PantryData.longitude d)
    (PantryData.hours d) (PantryData.description d) (PantryData.services d)
    (PantryData.accessType d) (PantryData.isActive d).

(** The two assignments that fill in a missing state and city. *)
Definition fillDefaults (d : PantryData.t) : PantryData.t :=
  let d1 := if negb (truthy (PantryData.state d)) then withState (JString "PA") d else d in
  if negb (truthy (PantryData.city d1)) && truthy (PantryData.address d1)
  then withCity (JString "Unknown") d1
  else d1.

(** The counters and messages of the import loop. *)
Record Tally : Type := mkTally {
  successCount : nat;
  errorCount : nat;
  errorMessages : list string
}.

Definition rowLabel (index : nat) : string := "Row " +:+ pretty (index + 2)%nat +:+ ": ".

(** One iteration of the [for] loop over the candidates. *)
Definition importCandidate (index : nat) (pantryData : PantryData.t) (t : Tally) : M Tally :=
  tryCatch
    (if negb (truthy (PantryData.name pantryData)) ||
        (negb (truthy (PantryData.address pantryData)) &&
         negb (truthy (PantryData.city pantryData)))
     then ret (mkTally (successCount t) (S (errorCount t))
                 (errorMessages t ++
                  [rowLabel index +:+
                   "Missing required fields (need at least name and address or city)"]))
     else
       do validatedData <- parse (fillDefaults pantryData) ;
       do _ <- storage_createPantry validatedData ;
       ret (mkTally (S (successCount t)) (errorCount t) (errorMessages t)))
    (fun message =>
       ret (mkTally (successCount t) (S (errorCount t))
              (errorMessages t ++ [rowLabel index +:+ message]))).

Fixpoint importCandidates (index : nat) (pantries : list PantryData.t) (t : Tally) : M Tally :=
  match pantries with
  | [] => ret t
  | pantryData :: rest =>
      do t' <- importCandidate index pantryData t ;
      importCandidates (S index) rest t'
  end.

Inductive UploadResponse : Type :=
| UploadBadRequest (message : string)
| UploadProcessed (successCount errorCount : nat) (errors : list string)
| UploadFailed (message : string).

(** The handler, given the rows the CSV parser emits ([None]: no file was
    sent; [Thrown]: the parser rejected the file). *)
Definition uploadCsv (file : option (Outcome (list Row))) : M UploadResponse :=
  tryCatch
    (match file with
     | None => ret (UploadBadRequest "No CSV file provided")
     | Some parsed =>
         do rows <- lift parsed ;
         let results := List.filter keepRow rows in
         if bool_decide (results = [])
         then ret (UploadBadRequest "CSV file is empty or invalid")
         else
           do t <- importCandidates 0 (omap mapRow results) (mkTally 0 0 []) ;
           ret (UploadProcessed (successCount t) (errorCount t)
                  (take 10 (errorMessages t)))
     end)
    (fun _ => ret (UploadFailed "Failed to process CSV file")).

(** *** POST /api/admin/sharepoint/sync *)

Definition patchSyncing : SyncPatch.t :=
  SyncPatch.make (Some "syncing") None (Some None).
Definition patchError (message : string) : SyncPatch.t :=
  SyncPatch.make (Some "error") None (Some (Some message)).
Definition patchSuccess (errors : list string) : SyncPatch.t :=
  SyncPatch.make (Some "success") (Some (now env))
    (Some (if bool_decide (errors = []) then None
           else Some (pretty (List.length errors) +:+ " errors occurred"))).

(** The [for] loop over the synced pantries: [imported] and [errors]. *)
Fixpoint importSynced (pantries : list PantryData.t) (imported : nat) (errors : list string)
  : M (nat * list string) :=
  match pantries with
  | [] => ret (imported, errors)
  | pantryData :: rest =>
      do r <- tryCatch
             (do validatedData <- parse pantryData ;
              do _ <- storage_createPantry validatedData ;
              ret (S imported, errors))
             (fun message =>
                ret (imported,
                     (errors ++ ["Failed to import pantry " +:+
                                 toStr numberToString (PantryData.name pantryData) +:+
                                 ": " +:+ message])%list)) ;
      importSynced rest (fst r) (snd r)
  end.

Inductive SyncResponse : Type :=
| SettingsIdRequired
| SettingsNotFound
| InvalidColumnMapping (errors : list string)
| SyncCompleted (imported updated : nat) (errors : list string)
| SyncFailed (error : string).

(** The handler, given [req.body.settingsId].  The response carries the
    counts and the first ten errors; the text report built from the same
    numbers is left out. *)
Definition sharepointSync (settingsId : JsValue) : M SyncResponse :=
  tryCatch
    (if negb (truthy settingsId) then ret SettingsIdRequired
     else
       do allSettings <- storage_getDataSyncSettings ;
       match List.find (fun s => strictEqString settingsId (DataSyncSettings.id s))
               allSettings with
       | None => ret SettingsNotFound
       | Some settings =>
           let id := DataSyncSettings.id settings in
           do _ <- storage_updateDataSyncSettings id patchSyncing ;
           tryCatch
             (let validation := validateMapping (remote env) settings in
              if negb (valid validation) then
                do _ <- storage_updateDataSyncSettings id
                       (patchError ("Invalid column mapping: " +:+
                                    join ", " (errors validation))) ;
                ret (InvalidColumnMapping (errors validation))
              else
                do pantries <- lift (syncListData numberToString (remote env) settings) ;
                do r <- importSynced pantries 0 [] ;
                do _ <- storage_updateDataSyncSettings id (patchSuccess (snd r)) ;
                ret (SyncCompleted (fst r) 0 (take 10 (snd r))))
             (fun errorMessage =>
                do _ <- storage_updateDataSyncSettings id (patchError errorMessage) ;
                throw errorMessage)
       end)
    (fun message => ret (SyncFailed message)).
End Handlers.

End Routes.

(** ** Further operations of [storage.ts] *)

Module StorageOps.
Import Js Schema Storage.

(** [deleteAllPantries()]: the update has no [where], so it reaches every
    row; the number returned is [result.rowCount || 0]. *)
Definition deleteAllPantries (rows : list Pantry.t) : list Pantry.t * nat :=
  (List.map softDelete rows, List.length rows).

(** The [Partial<InsertPantry>] objects the routes pass to [updatePantry]
    after [insertPantrySchema.partial().parse]: [None] is an absent key,
    and for a nullable column the inner [None] is [null]. *)
Module PantryPatch.
Record t : Type := make {
  name : option string;
  address : option string;
  city : option string;
  state : option string;
  zipCode : option string;
  phone : option (option string);
  email : option (option string);
  website : option (option string);
  latitude : option (option string);
  longitude : option (option string);
  hours : option (option string);
  description : option (option string);
  services : option (option (list string));
  accessType : option (option string);
  isActive : option (option bool)
}.
End PantryPatch.

(** [.set({ ...pantryData, updatedAt })] on one row: a key that is absent
    leaves its column as it was.  The [updatedAt] column is not among the
    columns of [Pantry.t]. *)
Definition applyPantryPatch (patch : PantryPatch.t) (p : Pantry.t) : Pantry.t :=
  Pantry.make (Pantry.id p)
    (default (Pantry.name p) (PantryPatch.name patch))
    (default (Pantry.address p) (PantryPatch.address patch))
    (default (Pantry.city p) (PantryPatch.city patch))
    (default (Pantry.state p) (PantryPatch.state patch))
    (default (Pantry.zipCode p) (PantryPatch.zipCode patch))
    (default (Pantry.phone p) (PantryPatch.phone patch))
    (default (Pantry.email p) (PantryPatch.email patch))
    (default (Pantry.website p) (PantryPatch.website patch))
    (default (Pantry.latitude p) (PantryPatch.latitude patch))
    (default (Pantry.longitude p) (PantryPatch.longitude patch))
    (default (Pantry.hours p) (PantryPatch.hours patch))
    (default (Pantry.description p) (PantryPatch.description patch))
    (default (Pantry.services p) (PantryPatch.services patch))
    (default (Pantry.accessType p) (PantryPatch.accessType patch))
    (default (Pantry.isActive p) (PantryPatch.isActive patch)).

(** [updatePantry(id, pantryData)]: the table after the update, and the
    first returned row ([undefined] when no row has the id). *)
Definition updatePantry (rows : list Pantry.t) (id : string) (patch : PantryPatch.t)
  : list Pantry.t * option Pantry.t :=
  (List.map (fun p => if decide (Pantry.id p = id) then applyPantryPatch patch p else p) rows,
   head (List.map (applyPantryPatch patch)
           (List.filter (fun p => bool_decide (Pantry.id p = id)) rows))).

(** [deleteDataSyncSettings(id)]. *)
Definition deactivate (s : DataSyncSettings.t) : DataSyncSettings.t :=
  DataSyncSettings.make (DataSyncSettings.id s)
    (DataSyncSettings.tenantId s) (DataSyncSettings.clientId s)
    (DataSyncSettings.clientSecret s) (DataSyncSettings.siteId s)
    (DataSyncSettings.listId s) (DataSyncSettings.columnMapping s)
    (DataSyncSettings.lastSync s) (DataSyncSettings.syncStatus s)
    (DataSyncSettings.lastError s) (Some false).

Definition deleteDataSyncSettings (id : string) (st : Store) : Store :=
  mkStore (pantries st)
    (List.map (fun s => if decide (DataSyncSettings.id s = id) then deactivate s else s)
       (dataSyncSettings st)).

(** *** Users *)

(** A row of [users]; timestamps are milliseconds. *)
Module User.
Record t : Type := make {
  id : string;
  email : option string;
  firstName : option string;
  lastName : option string;
  profileImageUrl : option string;
  role : option string;
  status : option string;
  approvedBy : option string;
  approvedAt : option Z;
  createdAt : option Z;
  updatedAt : option Z
}.
End User.

(** [getUser(id)]: the first row of the select, or [undefined]. *)
Definition getUser (users : list User.t) (id : string) : option User.t :=
  head (List.filter (fun u => bool_decide (User.id u = id)) users).

Definition truthyOptString (x : option string) : bool :=
  match x with Some s => truthyStr s | None => false end.

(** The row after [set(updateData)] of [updateUserRole]. *)
Definition withRole (now : Z) (role : string) (approvedBy : option string) (u : User.t)
  : User.t :=
  User.make (User.id u) (User.email u) (User.firstName u) (User.lastName u)
    (User.profileImageUrl u) (Some role) (User.status u)
    (if truthyOptString approvedBy then approvedBy else User.approvedBy u)
    (if truthyOptString approvedBy then Some now else User.approvedAt u)
    (User.createdAt u) (Some now).

(** [updateUserRole(id, role, approvedBy?)]. *)
Definition updateUserRole (now : Z) (users : list User.t) (id role : string)
    (approvedBy : option string) : list User.t * option User.t :=
  (List.map (fun u => if decide (User.id u = id) then withRole now role approvedBy u else u)
     users,
   head (List.map (withRole now role approvedBy)
           (List.filter (fun u => bool_decide (User.id u = id)) users))).

(** The row after [set(updateData)] of [updateUserStatus]: the approver is
    recorded only for the status [approved]. *)
Definition withStatus (now : Z) (status : string) (approvedBy : option string) (u : User.t)
  : User.t :=
  let record := truthyOptString approvedBy && bool_decide (status = "approved") in
  User.make (User.id u) (User.email u) (User.firstName u) (User.lastName u)
    (User.profileImageUrl u) (User.role u) (Some status)
    (if record then approvedBy else User.approvedBy u)
    (if record then Some now else User.approvedAt u)
    (User.createdAt u) (Some now).

(** [updateUserStatus(id, status, approvedBy?)]. *)
Definition updateUserStatus (now : Z) (users : list User.t) (id status : string)
    (approvedBy : option string) : list User.t * option User.t :=
  (List.map (fun u => if decide (User.id u = id) then withStatus now status approvedBy u else u)
     users,
   head (List.map (withStatus now status approvedBy)
           (List.filter (fun u => bool_decide (User.id u = id)) users))).

(** [ORDER BY created_at] ascending puts [NULL] last. *)
Definition createdBefore (a b : option Z) : bool :=
  match a, b with
  | Some x, Some y => bool_decide (x < y)%Z
  | Some _, None => true
  | None, _ => false
  end.

(** [select().from(users).orderBy(users.createdAt).limit(1)]: a row with
    the least creation time; among equals the first delivered is taken. *)
Fixpoint firstCreated (users : list User.t) : option User.t :=
  match users with
  | [] => None
  | u :: rest =>
      match firstCreated rest with
      | Some v => if createdBefore (User.createdAt v) (User.createdAt u) then Some v else Some u
      | None => Some u
      end
  end.

Definition isSuperAdmin (u : User.t) : bool :=
  bool_decide (User.role u = Some "super_admin").

(** The promotion [ensureFirstSuperAdmin] writes. *)
Definition promote (now : Z) (u : User.t) : User.t :=
  User.make (User.id u) (User.email u) (User.firstName u) (User.lastName u)
    (User.profileImageUrl u) (Some "super_admin") (Some "approved")
    (Some (User.id u)) (Some now) (User.createdAt u) (Some now).

(** [ensureFirstSuperAdmin()], when the store answers. *)
Definition ensureFirstSuperAdmin (now : Z) (users : list User.t) : list User.t :=
  match List.find isSuperAdmin users with
  | Some _ => users
  | None =>
      match firstCreated users with
      | None => users
      | Some firstUser =>
          List.map (fun u => if decide (User.id u = User.id firstUser)
                             then promote now u else u) users
      end
  end.

(** *** Announcements *)

Module Announcement.
Record t : Type := make {
  id : string;
  title : string;
  message : string;
  type : option string;
  isActive : option bool;
  priority : option string;
  startDate : option Z;
  endDate : option Z;
  createdAt : option Z;
  updatedAt : option Z
}.
End Announcement.

(** The [CASE] of the [ORDER BY]. *)
Definition priorityRank (priority : option string) : nat :=
  match priority with
  | Some p =>
      if decide (p = "high") then 1
      else if decide (p = "medium") then 2
      else if decide (p = "low") then 3
      else 4
  | None => 4
  end.

(** Ascending order of a nullable timestamp, [NULL] last. *)
Definition timeLe (a b : option Z) : Prop :=
  match a, b with
  | Some x, Some y => (x ≤ y)%Z
  | _, None => True
  | None, Some _ => False
  end.

(** The order of [ORDER BY CASE ... END, created_at]. *)
Definition announcementOrder (a b : Announcement.t) : Prop :=
  (priorityRank (Announcement.priority a) < priorityRank (Announcement.priority b))%nat ∨
  (priorityRank (Announcement.priority a) = priorityRank (Announcement.priority b) ∧
   timeLe (Announcement.createdAt a) (Announcement.createdAt b)).

Global Instance timeLe_dec a b : Decision (timeLe a b).
Proof. destruct a, b; cbn; apply _. Defined.

Global Instance announcementOrder_dec a b : Decision (announcementOrder a b).
Proof. unfold announcementOrder. apply _. Defined.

(** The [where] of [getActiveAnnouncements]: active, started, not ended. *)
Definition shownAt (now : Z) (a : Announcement.t) : option bool :=
  sqlAll
    [ Announcement.isActive a;
      (fun start => bool_decide (start ≤ now)%Z) <$> Announcement.startDate a;
      Some (match Announcement.endDate a with
            | None => true
            | Some finish => bool_decide (now ≤ finish)%Z
            end) ].

(** [getActiveAnnouncements()] at time [now].  The store may order rows
    with equal keys either way; the sort used here is one such order. *)
Definition getActiveAnnouncements (now : Z) (rows : list Announcement.t)
  : list Announcement.t :=
  merge_sort announcementOrder (List.filter (fun a => selected (shownAt now a)) rows).

(** [getAllAnnouncements()]. *)
Definition getAllAnnouncements (rows : list Announcement.t) : list Announcement.t :=
  merge_sort announcementOrder rows.

(** [deleteAnnouncement(id)]: a real delete. *)
Definition deleteAnnouncement (rows : list Announcement.t) (id : string)
  : list Announcement.t :=
  List.filter (fun a => negb (bool_decide (Announcement.id a = id))) rows.

End StorageOps.

(** ** The export service of [exportService.ts] *)

Module ExportService.
Import Js Schema.

(** A pantry as [getPantries] hands it to the export: the row with its two
    timestamps (milliseconds; [None] is [NULL]). *)
Record StoredPantry : Type := mkStored {
  row : Pantry.t;
  createdAt : option Z;
  updatedAt : option Z
}.

(** The values [pantry[header]] can hold. *)
Inductive Cell : Type :=
| CellNull
| CellString (s : string)
| CellStrings (xs : list string)
| CellBoolean (b : bool)
| CellDate (t : Z).

Definition ofText (x : option string) : Cell :=
  match x with Some s => CellString s | None => CellNull end.

Definition ofDate (x : option Z) : Cell :=
  match x with Some t => CellDate t | None => CellNull end.

(** The [headers] array of [generateCSV]. *)
Definition headers : list string :=
  ["id"; "name"; "address"; "city"; "state"; "zipCode"; "phone"; "email"; "website";
   "hours"; "description"; "services"; "accessType"; "latitude"; "longitude";
   "isActive"; "createdAt"; "updatedAt"].

(** [pantry[header]]. *)
Definition cellOf (p : StoredPantry) (header : string) : Cell :=
  if decide (header = "id") then CellString (Pantry.id (row p))
  else if decide (header = "name") then CellString (Pantry.name (row p))
  else if decide (header = "address") then CellString (Pantry.address (row p))
  else if decide (header = "city") then CellString (Pantry.city (row p))
  else if decide (header = "state") then CellString (Pantry.state (row p))
  else if decide (header = "zipCode") then CellString (Pantry.zipCode (row p))
  else if decide (header = "phone") then ofText (Pantry.phone (row p))
  else if decide (header = "email") then ofText (Pantry.email (row p))
  else if decide (header = "website") then ofText (Pantry.website (row p))
  else if decide (header = "hours") then ofText (Pantry.hours (row p))
  else if decide (header = "description") then ofText (Pantry.description (row p))
  else if decide (header = "services") then
    match Pantry.services (row p) with Some xs => CellStrings xs | None => CellNull end
  else if decide (header = "accessType") then ofText (Pantry.accessType (row p))
  else if decide (header = "latitude") then ofText (Pantry.latitude (row p))
  else if decide (header = "longitude") then ofText (Pantry.longitude (row p))
  else if decide (header = "isActive") then
    match Pantry.isActive (row p) with Some b => CellBoolean b | None => CellNull end
  else if decide (header = "createdAt") then ofDate (createdAt p)
  else if decide (header = "updatedAt") then ofDate (updatedAt p)
  else CellNull.

Definition comma : string := ",".
Definition quote : string := String dquote "".
Definition newline : string := String "010"%char "".
Definition carriageReturn : string := String "013"%char "".

(** The quoting steps of [escapeCSVValue], on the text of a value. *)
Definition escapeText (stringValue : string) : string :=
  let doubled :=
    if includes quote stringValue
    then replaceAll quote (quote +:+ quote) stringValue
    else stringValue in
  if includes comma doubled || includes quote doubled ||
     includes newline doubled || includes carriageReturn doubled
  then quote +:+ doubled +:+ quote
  else doubled.

Section Generate.
(** [Date.prototype.toISOString]. *)
Variable toISOString : Z → string.

(** The text of a cell: [String(value)], the [join('; ')] of an array,
    the ISO text of a date; [null] has none and exports as empty. *)
Definition stringValue (value : Cell) : string :=
  match value with
  | CellNull => ""
  | CellString s => s
  | CellStrings xs => join "; " xs
  | CellBoolean true => "true"
  | CellBoolean false => "false"
  | CellDate t => toISOString t
  end.

(** [escapeCSVValue(value)]. *)
Definition escapeCSVValue (value : Cell) : string :=
  match value with
  | CellNull => ""
  | _ => escapeText (stringValue value)
  end.

(** The line of one pantry: [row.join(',') + '\n']. *)
Definition csvLine (p : StoredPantry) : string :=
  join "," (List.map (fun header => escapeCSVValue (cellOf p header)) headers) +:+ newline.

(** [generateCSV(pantries)]. *)
Definition generateCSV (pantries : list StoredPantry) : string :=
  match pantries with
  | [] =>
      "name,address,city,state,zipCode,phone,email,website,hours,description,services,accessType,latitude,longitude,isActive,createdAt,updatedAt"
      +:+ newline
  | _ =>
      foldl (fun csvContent p => csvContent +:+ csvLine p)
        (join "," headers +:+ newline) pantries
  end.
End Generate.

End ExportService.

(** ** Reading comma-separated text *)

(** A reader of comma-separated records with double-quote quoting and
    doubled-quote escaping, the dialect the upload route configures its
    parser for.  It is the yardstick for what [generateCSV] writes. *)
Module Csv.

Inductive Mode : Type := AtStart | InPlain | InQuoted | AfterQuote.

(** What remains to be read from a position: the rest of the field under
    way, the later fields of its record, the later records, and whether
    the record under way has any text at all. *)
Definition Rest : Type := (string * list string * list (list string) * bool)%type.

Definition addChar (c : ascii) (r : Rest) : Rest :=
  let '(f, fs, rs, _) := r in (String c f, fs, rs, true).

Definition endField (r : Rest) : Rest :=
  let '(f, fs, rs, _) := r in ("", f :: fs, rs, true).

Definition close (r : Rest) : list (list string) :=
  let '(f, fs, rs, started) := r in if started then (f :: fs) :: rs else rs.

Definition endRecord (r : Rest) : Rest := ("", [], close r, true).

Definition begun (r : Rest) : Rest :=
  let '(f, fs, rs, _) := r in (f, fs, rs, true).

Fixpoint readFrom (mode : Mode) (s : string) : Rest :=
  match s with
  | "" => ("", [], [], false)
  | String c s' =>
      match mode with
      | AtStart =>
          if decide (c = "034"%char) then begun (readFrom InQuoted s')
          else if decide (c = ","%char) then endField (readFrom AtStart s')
          else if decide (c = "010"%char) then endRecord (readFrom AtStart s')
          else addChar c (readFrom InPlain s')
      | InPlain =>
          if decide (c = ","%char) then endField (readFrom AtStart s')
          else if decide (c = "010"%char) then endRecord (readFrom AtStart s')
          else addChar c (readFrom InPlain s')
      | InQuoted =>
          if decide (c = "034"%char) then begun (readFrom AfterQuote s')
          else addChar c (readFrom InQuoted s')
      | AfterQuote =>
          if decide (c = "034"%char) then addChar c (readFrom InQuoted s')
          else if decide (c = ","%char) then endField (readFrom AtStart s')
          else if decide (c = "010"%char) then endRecord (readFrom AtStart s')
          else addChar c (readFrom InPlain s')
      end
  end.

(** The records of a text. *)
Definition read (s : string) : list (list string) := close (readFrom AtStart s).

End Csv.

(** ** The user routes of [routes.ts] and the client's admin page *)

Module UserRoutes.
Import Js Schema Storage StorageOps.

(** What a user route answers: a status code with, for [200], the row the
    store returned ([None] is [undefined]). *)
Inductive UserResponse : Type :=
| UserOk (user : option User.t)
| UserBadRequest (message : string).

(** [PUT /api/admin/users/:id/role], past the [isSuperAdmin] guard, when
    the store answers. *)
Definition putUserRole (now : Z) (users : list User.t) (id role adminId : string)
  : list User.t * UserResponse :=
  if negb (bool_decide (role ∈ ["user"; "admin"; "super_admin"]))
  then (users, UserBadRequest "Invalid role")
  else
    let (users', user) := updateUserRole now users id role (Some adminId) in
    (users', UserOk user).

(** [PUT /api/admin/users/:id/status]. *)
Definition putUserStatus (now : Z) (users : list User.t) (id status adminId : string)
  : list User.t * UserResponse :=
  if negb (bool_decide (status ∈ ["pending"; "approved"; "rejected"]))
  then (users, UserBadRequest "Invalid status")
  else
    let (users', user) := updateUserStatus now users id status (Some adminId) in
    (users', UserOk user).

(** [POST /api/auth/request-admin] of the signed-in user [userId]. *)
Definition requestAdmin (now : Z) (users : list User.t) (userId : string)
  : list User.t * UserResponse :=
  let (users', user) := updateUserRole now users userId "admin" None in
  (users', UserOk user).

End UserRoutes.

Module Client.
Import Js Schema StorageOps.

Inductive Page : Type := Landing | AccessDenied | Admin.

(** The [/admin] route of [Router]: what is rendered for the signed-in
    state and the user row the auth query holds. *)
Definition adminRoute (isAuthenticated : bool) (user : option User.t) : Page :=
  if negb isAuthenticated then Landing
  else if negb (bool_decide (user ≫= User.status = Some "approved")) then AccessDenied
  else if bool_decide (user ≫= User.role = Some "admin") ||
          bool_decide (user ≫= User.role = Some "super_admin") then Admin
  else AccessDenied.

End Client.

(** * Vocabulary of the statements *)

Module Spec.
Import Js Normalizer Schema Storage Effects SharePointService Routes.

(** A [<] that is followed, somewhere, by a [>]: what the tag pattern
    [/<[^>]*>/] matches. *)
Fixpoint hasTag (s : string) : bool :=
  match s with
  | "" => false
  | String c s' => (bool_decide (c = "<"%char) && hasGt s') || hasTag s'
  end.

Definition entities : list string :=
  ["&nbsp;"; "&amp;"; "&lt;"; "&gt;"; "&quot;"; "&#39;"].

(** Text in which neither replacement step of the normaliser finds
    anything: no tag and none of the six entities. *)
Definition markupFree (s : string) : bool :=
  negb (hasTag s) && forallb (fun e => negb (includes e s)) entities.

(** Text that does not begin with white space. *)
Definition noLeadingSpace (s : string) : bool :=
  match s with
  | "" => true
  | String c _ => negb (isSpace c)
  end.

(** How a stored row relates to the candidate it was created from. *)
Definition storedFrom (d : PantryData.t) (row : Pantry.t) : Prop :=
  PantryData.name d = JString (Pantry.name row) ∧
  (truthy (PantryData.state d) = false → Pantry.state row = "PA") ∧
  (truthy (PantryData.state d) = true → PantryData.state d = JString (Pantry.state row)) ∧
  (truthy (PantryData.city d) = false → truthy (PantryData.address d) = true →
   Pantry.city row = "Unknown").

(** The fields of the synced pantry that go through [toStringOrNull]. *)
Definition unwrappedField (field : string) : option (PantryData.t → JsValue) :=
  if decide (field = "phone") then Some PantryData.phone
  else if decide (field = "website") then Some PantryData.website
  else if decide (field = "latitude") then Some PantryData.latitude
  else if decide (field = "longitude") then Some PantryData.longitude
  else None.

(** The fields of the synced pantry that take [getFieldValue]'s value as
    it is (the four required ones behind an [||] default). *)
Definition plainField (field : string) : option (PantryData.t → JsValue) :=
  if decide (field = "name") then Some PantryData.name
  else if decide (field = "address") then Some PantryData.address
  else if decide (field = "city") then Some PantryData.city
  else if decide (field = "state") then Some PantryData.state
  else if decide (field = "email") then Some PantryData.email
  else if decide (field = "hours") then Some PantryData.hours
  else if decide (field = "description") then Some PantryData.description
  else if decide (field = "accessType") then Some PantryData.accessType
  else None.

(** The status a finished run leaves: success with the time of the run,
    or error with a message. *)
Definition settled (now : Z) (s : DataSyncSettings.t) : Prop :=
  (DataSyncSettings.syncStatus s = Some "success" ∧ DataSyncSettings.lastSync s = Some now) ∨
  (DataSyncSettings.syncStatus s = Some "error" ∧
   ∃ message, DataSyncSettings.lastError s = Some message).

Definition allSettled (now : Z) (id : string) (st : Store) : Prop :=
  ∀ s, s ∈ dataSyncSettings st → DataSyncSettings.id s = id → settled now s.

(** Every row of the configuration is still marked as syncing. *)
Definition allSyncing (id : string) (st : Store) : Prop :=
  ∀ s, s ∈ dataSyncSettings st → DataSyncSettings.id s = id →
       DataSyncSettings.syncStatus s = Some "syncing".

End Spec.

(** * Sample data *)

Module Samples.
Import Js Schema Storage Effects SharePointService Routes.

(** Sample rows. *)
Definition helpingHands : Pantry.t :=
  Pantry.make "p1" "Helping Hands" "1 Main St" "Bethlehem" "PA" "18015"
    None None None (Some "40.6259000") (Some "-75.3697000") None None (Some []) None
    (Some true).

Definition graceKitchen : Pantry.t :=
  Pantry.make "p2" "Grace Kitchen" "22 Oak Ave" "Easton" "PA" "18042"
    None None None None None None None (Some []) None (Some true).

Definition northsideMeals : Pantry.t :=
  Pantry.make "p3" "Northside Meals" "9 Elm St" "Allentown" "PA" "18101"
    None None None (Some "40.6023000") None None None (Some []) None (Some true).

Definition hyperlink : JsValue :=
  JObject [("Url", JString "http://x.org"); ("Description", JString "site")].

Definition sampleMapping : gmap string string :=
  list_to_map [("name", "Title"); ("address", "Street"); ("city", "Town");
               ("state", "Region"); ("zipCode", "Zip");
               ("website", "Site"); ("email", "Contact")].

Definition sampleItem : SharePointListItem :=
  mkItem "1" (list_to_map [("Title", JString "Helping Hands"); ("Street", JString "1 Main St");
                            ("Town", JString "Bethlehem"); ("Region", JString "PA");
                            ("Zip", JString "18015");
                            ("Site", hyperlink); ("Contact", hyperlink)]).

(** A hyperlink whose [Url] is present but empty. *)
Definition emptyUrlItem : SharePointListItem :=
  mkItem "2" (list_to_map [("Title", JString "Grace Kitchen");
                            ("Site", JObject [("Url", JString "");
                                              ("Description", JString "site")])]).

(** A store that accepts every insert and a list that answers; no items. *)
Definition sampleEnv : Env :=
  mkEnv (fun n => Returned ("id-" +:+ pretty n)) (fun _ => None) 1700000000%Z
    (fun _ => "validation failed")
    (mkRemote (Returned "token") (Returned ["Title"; "Street"; "Town"; "Region"; "Zip"])
       (Returned "token") (Returned [])).

Definition emptyWorld : World := mkWorld (mkStore [] []) 0 0.

(** A configuration whose mapping names existing columns. *)
Definition sampleSettings : DataSyncSettings.t :=
  DataSyncSettings.make "cfg-1" (Some "tenant") (Some "client") (Some "secret")
    (Some "site") (Some "list") sampleMapping None (Some "pending") None (Some true).

Definition sampleColumns : list string :=
  ["Title"; "Street"; "Town"; "Region"; "Zip"; "Site"; "Contact"].

Definition syncWorld : World := mkWorld (mkStore [] [sampleSettings]) 0 0.

(** The list answers, the store never fails. *)
Definition healthyEnv : Env :=
  mkEnv (fun n => Returned ("id-" +:+ pretty n)) (fun _ => None) 1700000000%Z
    (fun _ => "validation failed")
    (mkRemote (Returned "token") (Returned sampleColumns)
       (Returned "token") (Returned [sampleItem])).

(** The network goes away after the status was set: the items fetch fails
    and so does every later statement on the settings table. *)
Definition outageEnv : Env :=
  mkEnv (fun n => Returned ("id-" +:+ pretty n))
    (fun n => if (2 <=? n)%nat then Some "Connection terminated unexpectedly" else None)
    1700000000%Z
    (fun _ => "validation failed")
    (mkRemote (Returned "token") (Returned sampleColumns)
       (Returned "token") (Thrown "Failed to fetch list data: Service Unavailable")).

(** The scenario of a mapping without a [state] column. *)
Definition statelessSettings : DataSyncSettings.t :=
  DataSyncSettings.make "cfg-2" (Some "tenant") (Some "client") (Some "secret")
    (Some "site") (Some "list")
    (list_to_map [("name", "Title"); ("address", "Street"); ("city", "Town");
                  ("zipCode", "Zip")])
    None (Some "pending") None (Some true).

Definition statelessWorld : World :=
  mkWorld (mkStore [helpingHands] [statelessSettings]) 0 0.

End Samples.

(** * Vocabulary of the further statements *)

Module Spec2.
Import Js Normalizer Schema Storage Effects SharePointService Routes Spec.

(** Every white-space character is a single space standing before a
    character that is not white space. *)
Fixpoint wellSpaced (s : string) : bool :=
  match s with
  | "" => true
  | String c s' =>
      (if isSpace c
       then bool_decide (c = " "%char) && truthyStr s' && noLeadingSpace s'
       else true) && wellSpaced s'
  end.

(** Text without white space at either end and with single spaces only. *)
Definition tidy (s : string) : bool := noLeadingSpace s && wellSpaced s.

(** The character [c] occurs in [s]. *)
Fixpoint occurs (c : ascii) (s : string) : bool :=
  match s with
  | "" => false
  | String d s' => bool_decide (d = c) || occurs c s'
  end.


(** The rows the upload can create from a candidate. *)
Definition createdFrom (d : PantryData.t) (row : Pantry.t) : Prop :=
  ∃ newId v, insertPantrySchema_parse (fillDefaults d) = Some v ∧ row = insertedRow newId v.

(** The rows the sync can create from a synced pantry. *)
Definition syncedFrom (d : PantryData.t) (row : Pantry.t) : Prop :=
  ∃ newId v, insertPantrySchema_parse d = Some v ∧ row = insertedRow newId v.

(** A text with every double quote doubled. *)
Fixpoint doubled (s : string) : string :=
  match s with
  | "" => ""
  | String c s' =>
      if decide (c = dquote) then String dquote (String dquote (doubled s'))
      else String c (doubled s')
  end.

(** A text that [escapeCSVValue] puts between quotes. *)
Definition special (s : string) : bool :=
  occurs ","%char s || occurs dquote s || occurs "010"%char s || occurs "013"%char s.

(** The characters of [f] put in front of the field under way. *)
Fixpoint addChars (f : string) (r : Csv.Rest) : Csv.Rest :=
  match f with
  | "" => r
  | String c f' => Csv.addChar c (addChars f' r)
  end.

(** A text that begins with a comma or a line feed. *)
Definition startsDelim (tail : string) : Prop :=
  match tail with
  | String c _ => c = ","%char ∨ c = "010"%char
  | "" => False
  end.

(** The line of a record: its fields escaped and joined. *)
Definition line (fields : list string) : string :=
  join "," (List.map ExportService.escapeText fields) +:+ ExportService.newline.

(** The roles and statuses the user routes accept. *)
Definition validRole (u : StorageOps.User.t) : Prop :=
  StorageOps.User.role u ∈ [Some "user"; Some "admin"; Some "super_admin"].

Definition validStatus (u : StorageOps.User.t) : Prop :=
  StorageOps.User.status u ∈ [Some "pending"; Some "approved"; Some "rejected"].

End Spec2.

Module Samples2.
Import Js Schema Storage StorageOps.

Definition helpingHandsData : InsertPantry.t :=
  InsertPantry.make "Helping Hands" "1 Main St" "Bethlehem" "PA" "18015"
    None None None None None None None None None None.

Definition ada : User.t :=
  User.make "u1" (Some "ada@example.org") (Some "Ada") None None
    (Some "user") (Some "approved") None None (Some 1000%Z) (Some 1000%Z).

Definition ben : User.t :=
  User.make "u2" (Some "ben@example.org") (Some "Ben") None None
    (Some "user") (Some "pending") None None (Some 2000%Z) (Some 2000%Z).

End Samples2.

(** * Properties *)

(** ** The normaliser *)

Module NormalizerFacts.
Import Js Normalizer Spec.

Lemma replaceAll_absent pat rep s :
  includes pat s = false → replaceAll pat rep s = s.
Proof.
  unfold replaceAll. induction s as [|c s IH]; [done|].
  cbn [includes replaceAll_go]. intros [Hhere Hlater]%orb_false_elim.
  rewrite Hhere. f_equal. auto.
Qed.

Lemma decodeEntities_absent s :
  forallb (fun e => negb (includes e s)) entities = true → decodeEntities s = s.
Proof.
  cbn [forallb entities]. rewrite !andb_true_iff, !negb_true_iff.
  intros (H1 & H2 & H3 & H4 & H5 & H6 & _). unfold decodeEntities.
  rewrite (replaceAll_absent "&nbsp;") by done.
  rewrite (replaceAll_absent "&amp;") by done.
  rewrite (replaceAll_absent "&lt;") by done.
  rewrite (replaceAll_absent "&gt;") by done.
  rewrite (replaceAll_absent "&quot;") by done.
  by rewrite (replaceAll_absent "&#39;").
Qed.

Lemma removeTags_noTag s : hasTag s = false → removeTags s = s.
Proof.
  unfold removeTags. induction s as [|c s IH]; [done|].
  cbn [hasTag removeTags_go]. intros [Hhere Hlater]%orb_false_elim.
  destruct (decide (c = "<"%char)) as [->|Hc].
  - rewrite bool_decide_eq_true_2 in Hhere by done. cbn in Hhere.
    rewrite Hhere. f_equal. auto.
  - f_equal. auto.
Qed.

Lemma hasGt_cons c s : hasGt s = true → hasGt (String c s) = true.
Proof.
  unfold hasGt. rewrite !bool_decide_eq_true. cbn [indexOfGt].
  intros [j Hj]. destruct (decide (c = ">"%char)); [by eexists|].
  rewrite Hj. by eexists.
Qed.

Lemma hasGt_dropN k s : hasGt (dropN k s) = true → hasGt s = true.
Proof.
  revert s. induction k as [|k IH]; intros [|c s]; cbn [dropN]; try done.
  intros H. apply hasGt_cons. auto.
Qed.

Lemma hasGt_dropPrefix pat s r :
  dropPrefix pat s = Some r → hasGt r = true → hasGt s = true.
Proof.
  revert s. induction pat as [|a pat IH]; intros [|b s]; cbn [dropPrefix]; try done.
  - by intros [= ->].
  - by intros [= ->].
  - destruct (decide (a = b)); [|done]. intros Hd Hr. apply hasGt_cons. eauto.
Qed.

Lemma dropPrefix_cons a pat s r :
  dropPrefix (String a pat) s = Some r →
  ∃ s', s = String a s' ∧ dropPrefix pat s' = Some r.
Proof.
  destruct s as [|b s]; [done|]. simpl.
  destruct (decide (a = b)) as [->|]; [|done]. eauto.
Qed.

(** A match of the comment pattern is a [<] with a [>] after it. *)
Lemma matchWpComment_tag s n :
  matchWpComment s = Some n → ∃ s', s = String "<"%char s' ∧ hasGt s' = true.
Proof.
  unfold matchWpComment. intros H.
  destruct (dropPrefix "<!--" s) as [r1|] eqn:H1; [|done].
  cbn [mbind option_bind] in H.
  destruct (dropPrefix "wp:" _) as [r3|] eqn:H3; [|done].
  cbn [mbind option_bind] in H.
  destruct (indexOfGt r3) as [j|] eqn:Hj; [|done].
  assert (hasGt r1 = true) as Hr1.
  { eapply hasGt_dropN, hasGt_dropN, hasGt_dropPrefix; [exact H3|].
    unfold hasGt. rewrite bool_decide_eq_true, Hj. by eexists. }
  apply dropPrefix_cons in H1 as (s' & -> & H1).
  eexists. split; [done|]. eapply hasGt_dropPrefix; [exact H1|done].
Qed.

Lemma removeWpComments_noTag s : hasTag s = false → removeWpComments s = s.
Proof.
  unfold removeWpComments. induction s as [|c s IH]; [done|].
  intros Htag. cbn [removeWpComments_go].
  destruct (matchWpComment (String c s)) as [n|] eqn:Hm.
  - apply matchWpComment_tag in Hm as (s' & [= -> ->] & Hgt).
    cbn [hasTag] in Htag. rewrite Hgt in Htag. done.
  - f_equal. apply IH. cbn [hasTag] in Htag. by apply orb_false_elim in Htag as [_ ?].
Qed.

(** *** White space: collapsing and trimming reach a fixed point *)

Lemma collapse_length b s :
  (String.length (collapseSpaces_go b s) ≤ String.length s)%nat.
Proof.
  revert b. induction s as [|c s IH]; intros b; [done|].
  pose proof (IH true). pose proof (IH false).
  cbn [collapseSpaces_go]. destruct (isSpace c), b; cbn [String.length]; lia.
Qed.

Lemma collapse_collapse s :
  (∀ b, collapseSpaces_go false (collapseSpaces_go b s) = collapseSpaces_go b s) ∧
  collapseSpaces_go true (collapseSpaces_go true s) = collapseSpaces_go true s.
Proof.
  induction s as [|c s [IHa IHb]]; [done|].
  split; [intros b|]; cbn [collapseSpaces_go]; destruct (isSpace c) eqn:Hc.
  - destruct b; [apply IHa|]. cbn [collapseSpaces_go]. cbn. by rewrite IHb.
  - cbn [collapseSpaces_go]. rewrite Hc. by rewrite IHa.
  - apply IHb.
  - cbn [collapseSpaces_go]. rewrite Hc. by rewrite IHa.
Qed.

(** A string the collapse leaves alone while inside a run of spaces does
    not start with a space. *)
Lemma collapse_fixed_in_run c s :
  isSpace c = true → collapseSpaces_go true (String c s) ≠ String c s.
Proof.
  intros Hc Heq. cbn [collapseSpaces_go] in Heq. rewrite Hc in Heq.
  pose proof (collapse_length true s) as Hlen.
  rewrite Heq in Hlen. cbn [String.length] in Hlen. lia.
Qed.

Lemma trimStart_fixed s :
  collapseSpaces_go false s = s → collapseSpaces_go false (trimStart s) = trimStart s.
Proof.
  destruct s as [|c s]; [done|]. intros Hfix. cbn [trimStart].
  destruct (isSpace c) eqn:Hc; [|done].
  cbn [collapseSpaces_go] in Hfix. rewrite Hc in Hfix.
  injection Hfix as _ Hs.
  assert (trimStart s = s) as ->.
  { destruct s as [|d s]; [done|]. cbn [trimStart].
    destruct (isSpace d) eqn:Hd; [|done].
    by apply collapse_fixed_in_run in Hs. }
  rewrite <- Hs at 1. rewrite (proj1 (collapse_collapse s)). exact Hs.
Qed.

Lemma trimEnd_fixed b s :
  collapseSpaces_go b s = s → collapseSpaces_go b (trimEnd s) = trimEnd s.
Proof.
  revert b. induction s as [|c s IH]; intros b Hfix; [done|].
  cbn [trimEnd]. destruct (isSpace c) eqn:Hc.
  - destruct b; [by apply collapse_fixed_in_run in Hfix|].
    cbn [collapseSpaces_go] in Hfix. rewrite Hc in Hfix. injection Hfix as Hsp Hs.
    pose proof (IH true Hs) as IHs.
    destruct (trimEnd s) as [|d r]; [done|].
    cbn [truthyStr negb andb collapseSpaces_go]. rewrite Hc.
    cbn [collapseSpaces_go] in IHs. rewrite IHs. by rewrite Hsp.
  - cbn. cbn [collapseSpaces_go] in *. rewrite Hc in *.
    injection Hfix as Hs. f_equal. auto.
Qed.

Lemma trimEnd_idem s : trimEnd (trimEnd s) = trimEnd s.
Proof.
  induction s as [|c s IH]; [done|]. cbn [trimEnd].
  destruct (isSpace c && negb (truthyStr (trimEnd s))) eqn:Hcond; [done|].
  cbn [trimEnd]. by rewrite IH, Hcond.
Qed.

Lemma trimStart_noLeadingSpace s : noLeadingSpace (trimStart s) = true.
Proof.
  induction s as [|c s IH]; [done|]. cbn [trimStart].
  destruct (isSpace c) eqn:Hc; [done|]. cbn. by rewrite Hc.
Qed.

Lemma trimStart_id s : noLeadingSpace s = true → trimStart s = s.
Proof. destruct s as [|c s]; [done|]. cbn. by intros ->%negb_true_iff. Qed.

Lemma trimEnd_noLeadingSpace s :
  noLeadingSpace s = true → noLeadingSpace (trimEnd s) = true.
Proof.
  destruct s as [|c s]; [done|]. cbn [noLeadingSpace trimEnd].
  intros Hc. apply negb_true_iff in Hc. rewrite Hc. cbn. by rewrite Hc.
Qed.

Lemma trim_idem s : trim (trim s) = trim s.
Proof.
  unfold trim.
  rewrite (trimStart_id (trimEnd (trimStart s))).
  - apply trimEnd_idem.
  - apply trimEnd_noLeadingSpace, trimStart_noLeadingSpace.
Qed.

Lemma trim_collapse_fixed s :
  trim (collapseSpaces (trim (collapseSpaces s))) = trim (collapseSpaces s).
Proof.
  unfold collapseSpaces.
  assert (collapseSpaces_go false (trim (collapseSpaces_go false s))
          = trim (collapseSpaces_go false s)) as ->.
  { unfold trim. apply trimEnd_fixed, trimStart_fixed, collapse_collapse. }
  apply trim_idem.
Qed.

(** *** Every step shortens the text it changes *)

Lemma startsWith_length pat s :
  startsWith pat s = true → (String.length pat ≤ String.length s)%nat.
Proof.
  revert s. induction pat as [|a pat IH]; intros [|b s]; cbn [startsWith String.length];
    try done; try lia.
  destruct (decide (a = b)); [|done]. intros H%IH. lia.
Qed.

Lemma length_append (a b : string) :
  String.length (a +:+ b) = (String.length a + String.length b)%nat.
Proof.
  induction a as [|x a IH]; [done|].
  change (String x a +:+ b) with (String x (a +:+ b)). cbn [String.length]. by rewrite IH.
Qed.

Lemma replaceAll_go_length pat rep k s :
  (String.length rep ≤ String.length pat)%nat →
  (String.length (replaceAll_go pat rep k s) ≤ String.length s - k)%nat.
Proof.
  intros Hrep. revert k. induction s as [|c s IH]; intros k; [cbn; lia|].
  cbn [replaceAll_go]. destruct k as [|k].
  - destruct (startsWith pat (String c s)) eqn:Hstart.
    + apply startsWith_length in Hstart. cbn [String.length] in *.
      rewrite length_append. specialize (IH (String.length pat - 1)%nat). lia.
    + cbn [String.length]. specialize (IH 0%nat). lia.
  - cbn [String.length]. specialize (IH k). lia.
Qed.

Lemma replaceAll_length pat rep s :
  (String.length rep ≤ String.length pat)%nat →
  (String.length (replaceAll pat rep s) ≤ String.length s)%nat.
Proof. intros H. pose proof (replaceAll_go_length pat rep 0 s H). unfold replaceAll. lia. Qed.

Lemma replaceAll_shrinks pat rep s :
  (String.length rep < String.length pat)%nat →
  includes pat s = true →
  (String.length (replaceAll pat rep s) < String.length s)%nat.
Proof.
  intros Hrep. unfold replaceAll. induction s as [|c s IH].
  - cbn. destruct pat; [cbn in Hrep; lia|done].
  - cbn [includes replaceAll_go]. destruct (startsWith pat (String c s)) eqn:Hstart.
    + intros _. apply startsWith_length in Hstart. cbn [String.length] in *.
      rewrite length_append.
      pose proof (replaceAll_go_length pat rep (String.length pat - 1) s). lia.
    + cbn [orb String.length]. intros H%IH. lia.
Qed.

Lemma decodeEntities_length s :
  (String.length (decodeEntities s) ≤ String.length s)%nat.
Proof.
  unfold decodeEntities.
  repeat (etrans; [apply replaceAll_length; cbn; lia|]). done.
Qed.

Lemma decodeEntities_shrinks s :
  forallb (fun e => negb (includes e s)) entities = false →
  (String.length (decodeEntities s) < String.length s)%nat.
Proof.
  unfold decodeEntities. cbn [forallb entities].
  destruct (includes "&nbsp;" s) eqn:E1.
  { intros _. eapply Nat.le_lt_trans.
    - do 5 (etrans; [apply replaceAll_length; cbn; lia|]). done.
    - apply (replaceAll_shrinks "&nbsp;" " "); [cbn; lia|done]. }
  rewrite (replaceAll_absent "&nbsp;") by done.
  destruct (includes "&amp;" s) eqn:E2.
  { intros _. eapply Nat.le_lt_trans.
    - do 4 (etrans; [apply replaceAll_length; cbn; lia|]). done.
    - apply (replaceAll_shrinks "&amp;" "&"); [cbn; lia|done]. }
  rewrite (replaceAll_absent "&amp;") by done.
  destruct (includes "&lt;" s) eqn:E3.
  { intros _. eapply Nat.le_lt_trans.
    - do 3 (etrans; [apply replaceAll_length; cbn; lia|]). done.
    - apply (replaceAll_shrinks "&lt;" "<"); [cbn; lia|done]. }
  rewrite (replaceAll_absent "&lt;") by done.
  destruct (includes "&gt;" s) eqn:E4.
  { intros _. eapply Nat.le_lt_trans.
    - do 2 (etrans; [apply replaceAll_length; cbn; lia|]). done.
    - apply (replaceAll_shrinks "&gt;" ">"); [cbn; lia|done]. }
  rewrite (replaceAll_absent "&gt;") by done.
  destruct (includes "&quot;" s) eqn:E5.
  { intros _. eapply Nat.le_lt_trans.
    - do 1 (etrans; [apply replaceAll_length; cbn; lia|]). done.
    - apply (replaceAll_shrinks "&quot;" (String "034"%char "")); [cbn; lia|done]. }
  rewrite (replaceAll_absent "&quot;") by done.
  destruct (includes "&#39;" s) eqn:E6.
  { intros _. apply (replaceAll_shrinks "&#39;" "'"); [cbn; lia|done]. }
  done.
Qed.

Lemma removeWpComments_go_length k s :
  (String.length (removeWpComments_go k s) ≤ String.length s - k)%nat.
Proof.
  revert k. induction s as [|c s IH]; intros k; [cbn; lia|].
  cbn [removeWpComments_go]. destruct k as [|k].
  - destruct (matchWpComment (String c s)) as [n|].
    + specialize (IH (n - 1)%nat). cbn [String.length]. lia.
    + specialize (IH 0%nat). cbn [String.length]. lia.
  - specialize (IH k). cbn [String.length]. lia.
Qed.

Lemma removeWpComments_same_or_shorter s :
  removeWpComments s = s ∨
  (String.length (removeWpComments s) < String.length s)%nat.
Proof.
  unfold removeWpComments. induction s as [|c s IH]; [by left|].
  cbn [removeWpComments_go]. destruct (matchWpComment (String c s)) as [n|].
  - right. pose proof (removeWpComments_go_length (n - 1) s). cbn [String.length]. lia.
  - destruct IH as [-> | IH]; [by left|]. right. cbn [String.length]. lia.
Qed.

Lemma removeTags_go_length b s :
  (String.length (removeTags_go b s) ≤ String.length s)%nat.
Proof.
  revert b. induction s as [|c s IH]; intros b; [done|].
  pose proof (IH true). pose proof (IH false).
  cbn [removeTags_go]. destruct b; repeat case_decide; try destruct (hasGt s);
    cbn [String.length]; lia.
Qed.

Lemma removeTags_shrinks s :
  hasTag s = true → (String.length (removeTags s) < String.length s)%nat.
Proof.
  unfold removeTags. induction s as [|c s IH]; [done|].
  cbn [hasTag removeTags_go]. destruct (decide (c = "<"%char)) as [->|Hc].
  - rewrite bool_decide_eq_true_2 by done. cbn [andb].
    destruct (hasGt s).
    + intros _. pose proof (removeTags_go_length true s). cbn [String.length]. lia.
    + cbn [orb]. intros H%IH. cbn [String.length]. lia.
  - rewrite bool_decide_eq_false_2 by done. cbn [andb orb].
    intros H%IH. cbn [String.length]. lia.
Qed.

Lemma trimStart_length s : (String.length (trimStart s) ≤ String.length s)%nat.
Proof.
  induction s as [|c s IH]; [done|]. cbn [trimStart].
  destruct (isSpace c); cbn [String.length]; lia.
Qed.

Lemma trimEnd_length s : (String.length (trimEnd s) ≤ String.length s)%nat.
Proof.
  induction s as [|c s IH]; [done|]. cbn [trimEnd].
  destruct (isSpace c && negb (truthyStr (trimEnd s))); cbn [String.length]; lia.
Qed.

Lemma trim_collapse_length s :
  (String.length (trim (collapseSpaces s)) ≤ String.length s)%nat.
Proof.
  unfold trim, collapseSpaces.
  pose proof (trimEnd_length (trimStart (collapseSpaces_go false s))).
  pose proof (trimStart_length (collapseSpaces_go false s)).
  pose proof (collapse_length false s). lia.
Qed.

(** Text with a tag or an entity in it gets strictly shorter. *)
Lemma cleanHtmlAndWordPress_shrinks s :
  markupFree s = false →
  (String.length (cleanHtmlAndWordPress s) < String.length s)%nat.
Proof.
  intros Hmarkup. unfold cleanHtmlAndWordPress.
  destruct s as [|c s]; [done|]. cbn [truthyStr negb].
  set (t := String c s) in *.
  eapply Nat.le_lt_trans; [apply trim_collapse_length|].
  unfold markupFree in Hmarkup. apply andb_false_iff in Hmarkup as [Htag|Hent].
  - apply negb_false_iff in Htag.
    eapply Nat.le_lt_trans; [apply decodeEntities_length|].
    destruct (hasTag (removeWpComments t)) eqn:Htag'.
    + eapply Nat.lt_le_trans; [by apply removeTags_shrinks|].
      pose proof (removeWpComments_go_length 0 t). unfold removeWpComments. lia.
    + destruct (removeWpComments_same_or_shorter t) as [Heq|Hlt]; [congruence|].
      eapply Nat.le_lt_trans; [apply removeTags_go_length|done].
  - destruct (hasTag t) eqn:Htag.
    + eapply Nat.le_lt_trans; [apply decodeEntities_length|].
      destruct (hasTag (removeWpComments t)) eqn:Htag'.
      * eapply Nat.lt_le_trans; [by apply removeTags_shrinks|].
        pose proof (removeWpComments_go_length 0 t). unfold removeWpComments. lia.
      * destruct (removeWpComments_same_or_shorter t) as [Heq|Hlt]; [congruence|].
        eapply Nat.le_lt_trans; [apply removeTags_go_length|done].
    + rewrite removeWpComments_noTag, removeTags_noTag by done.
      by apply decodeEntities_shrinks.
Qed.

End NormalizerFacts.

Import Js Normalizer Spec Samples NormalizerFacts.

(** C6 (counterexample).  Decoding an escaped ampersand yields a fresh
    entity: the text [&amp;amp;] normalises to [&amp;], and normalising
    that again gives [&], so two passes differ from one. *)
Lemma cleanHtmlAndWordPress_twice_differs :
  cleanHtmlAndWordPress "&amp;amp;" = "&amp;" ∧
  cleanHtmlAndWordPress (cleanHtmlAndWordPress "&amp;amp;") = "&" ∧
  cleanHtmlAndWordPress (cleanHtmlAndWordPress "&amp;amp;")
    ≠ cleanHtmlAndWordPress "&amp;amp;".
Proof. by vm_compute. Qed.

(** C6 (amended).  [cleanHtmlAndWordPress] is idempotent at an input
    exactly when the normalised text of that input holds no tag (a [<]
    followed later by a [>]) and none of the six entities: normalising such
    a result once more returns it unchanged, and normalising any other
    result shortens it. *)
Theorem cleanHtmlAndWordPress_idempotent_iff_markupFree (s : string) :
  cleanHtmlAndWordPress (cleanHtmlAndWordPress s) = cleanHtmlAndWordPress s ↔
  markupFree (cleanHtmlAndWordPress s) = true.
Proof.
  split.
  - intros Hfix. destruct (markupFree (cleanHtmlAndWordPress s)) eqn:Hmarkup; [done|].
    apply cleanHtmlAndWordPress_shrinks in Hmarkup. rewrite Hfix in Hmarkup. lia.
  - intros [Htag Hent]%andb_true_iff. apply negb_true_iff in Htag.
    unfold cleanHtmlAndWordPress at 1.
    destruct (negb (truthyStr (cleanHtmlAndWordPress s))); [done|].
    rewrite removeWpComments_noTag, removeTags_noTag, decodeEntities_absent by done.
    unfold cleanHtmlAndWordPress.
    destruct (negb (truthyStr s)) eqn:Hs.
    + by destruct s.
    + apply trim_collapse_fixed.
Qed.

Lemma cleanHtmlAndWordPress_idempotent_witness :
  markupFree (cleanHtmlAndWordPress
                "<!-- wp:paragraph --><p>Hello &amp;  World</p><!-- /wp:paragraph -->") = true ∧
  cleanHtmlAndWordPress
    (cleanHtmlAndWordPress
       "<!-- wp:paragraph --><p>Hello &amp;  World</p><!-- /wp:paragraph -->")
  = "Hello & World".
Proof.
  split; [by vm_compute|].
  rewrite (proj2 (cleanHtmlAndWordPress_idempotent_iff_markupFree
                    "<!-- wp:paragraph --><p>Hello &amp;  World</p><!-- /wp:paragraph -->"));
    by vm_compute.
Defined.

(** ** The record store: reads and search *)

Module StorageFacts.
Import Js Schema Storage.

Lemma selected_sqlAnd a b : selected (sqlAnd a b) = selected a && selected b.
Proof. by destruct a as [[]|], b as [[]|]. Qed.

Lemma selected_sqlAll conds :
  selected (sqlAll conds) = forallb selected conds.
Proof.
  induction conds as [|c conds IH]; [done|].
  cbn [sqlAll foldr forallb]. rewrite selected_sqlAnd. f_equal. exact IH.
Qed.

Lemma getPantries_active rows p :
  In p (getPantries rows) → Pantry.isActive p = Some true.
Proof.
  unfold getPantries. rewrite filter_In. unfold isActiveCond.
  intros [_ H]. by destruct (Pantry.isActive p) as [[]|].
Qed.


Lemma filter_sublist {A} (f : A → bool) (l : list A) : sublist (List.filter f l) l.
Proof.
  induction l as [|x l IH]; cbn [List.filter]; [constructor|].
  destruct (f x); by constructor.
Qed.

Section Search.
Variable ilike : string → string → bool.
Variable float8 : string → float.
Variables radians cos sin acos : float → float.

Local Abbreviation search := (searchPantries ilike float8 radians cos sin acos).
Local Abbreviation distance := (distanceFormula float8 radians cos sin acos).

Lemma searchPantries_In query latitude longitude radius rows p :
  In p (search query latitude longitude radius rows) ↔
  In p rows ∧
  Forall (fun c => c p = Some true)
    (searchConditions ilike float8 radians cos sin acos query latitude longitude radius).
Proof.
  unfold searchPantries. rewrite filter_In, selected_sqlAll, forallb_forall, Forall_forall.
  apply and_iff_compat_l. split.
  - intros H c Hc%list_elem_of_In.
    specialize (H (c p) (in_map (fun c => c p) _ c Hc)).
    by destruct (c p) as [[]|].
  - intros H w (c & <- & Hc)%in_map_iff. apply list_elem_of_In in Hc.
    by rewrite (H c Hc).
Qed.

(** Every record a search returns is active. *)
Lemma searchPantries_active query latitude longitude radius rows p :
  In p (search query latitude longitude radius rows) → Pantry.isActive p = Some true.
Proof.
  rewrite searchPantries_In. intros [_ H].
  unfold searchConditions in H. cbn [app] in H. by inversion H.
Qed.

(** With a centre and radius that are all truthy, a returned record has
    both coordinates, lies within [radius * 1.60934] kilometres by
    [distanceFormula], and also meets the text condition of a non-blank
    query: the conditions are conjoined. *)
Lemma searchPantries_radius_sound query lat lng r rows p :
  truthyNumber (Some lat) && truthyNumber (Some lng) && truthyNumber (Some r) = true →
  In p (search query (Some lat) (Some lng) (Some r) rows) →
  Pantry.isActive p = Some true ∧
  (∃ plat plng d,
     Pantry.latitude p = Some plat ∧ Pantry.longitude p = Some plng ∧
     distance lat lng p = Some d ∧ (d <=? r * 1.60934)%float = true) ∧
  (truthyStr (trim query) = true →
   textCond ilike ("%" +:+ trim query +:+ "%") p = Some true).
Proof.
  intros Htruthy Hin. split; [by eapply searchPantries_active|].
  apply searchPantries_In in Hin as [_ Hall].
  unfold searchConditions in Hall. rewrite Htruthy in Hall.
  rewrite !Forall_app in Hall. destruct Hall as (_ & Htext & Hdist).
  split.
  - inversion Hdist as [|? ? _ Hrest]; subst.
    inversion Hrest as [|? ? _ Hrest']; subst.
    inversion Hrest' as [|? ? Hd _]; subst.
    unfold distanceCond in Hd.
    destruct (distance lat lng p) as [d|] eqn:Hdp; [|done].
    pose proof Hdp as Hdp'. unfold distanceFormula in Hdp'.
    destruct (Pantry.latitude p) as [plat|]; [|done].
    destruct (Pantry.longitude p) as [plng|]; [|done].
    exists plat, plng, d. repeat split; try done.
    cbn in Hd. by injection Hd.
  - intros Hq.
    assert (truthyStr query = true) as Hq'.
    { destruct query; [done|done]. }
    rewrite Hq', Hq in Htext. cbn in Htext. by inversion Htext.
Qed.

(** A falsy latitude, longitude or radius (absent, [NaN] or zero) leaves
    the conditions those of a search without centre. *)
Lemma searchConditions_falsy query latitude longitude radius :
  truthyNumber latitude && truthyNumber longitude && truthyNumber radius = false →
  searchConditions ilike float8 radians cos sin acos query latitude longitude radius =
  searchConditions ilike float8 radians cos sin acos query None None None.
Proof.
  intros H. unfold searchConditions.
  destruct latitude, longitude, radius; try done. by rewrite H.
Qed.

End Search.
End StorageFacts.

Import Schema Storage StorageFacts.

(** C3.  [getPantry] does not filter on the active flag: after a soft
    delete, the record is gone from [getPantries] and from every search but
    is still returned, inactive, by [getPantry]. *)
Theorem getPantry_returns_soft_deleted :
  let rows := deletePantry [helpingHands; graceKitchen] "p1" in
  getPantry rows "p1" = Some (softDelete helpingHands) ∧
  Pantry.isActive (softDelete helpingHands) = Some false ∧
  getPantries rows = [graceKitchen] ∧
  ∀ ilike float8 radians cos sin acos,
    searchPantries ilike float8 radians cos sin acos "" None None None rows = [graceKitchen].
Proof. cbv zeta. repeat split. Qed.

(** C4.  A centre on the equator is a falsy latitude: the distance
    conditions are not pushed, and a search around latitude 0 with a
    10-mile radius returns records that have no coordinates, or only one.
    Around a centre with non-zero coordinates the same search over the same
    rows returns neither. *)
Theorem searchPantries_equator_centre_unfiltered :
  ∀ ilike float8 radians cos sin acos,
    searchPantries ilike float8 radians cos sin acos
      "" (Some 0%float) (Some (-75.37)%float) (Some 10%float)
      [graceKitchen; northsideMeals]
    = [graceKitchen; northsideMeals] ∧
    searchPantries ilike float8 radians cos sin acos
      "" (Some 40.62%float) (Some (-75.37)%float) (Some 10%float)
      [graceKitchen; northsideMeals]
    = [] ∧
    Pantry.latitude graceKitchen = None ∧
    Pantry.longitude northsideMeals = None.
Proof. intros. repeat split. Qed.




(** C10.  When latitude, longitude and radius are all supplied and one of
    them is zero, the distance conditions are skipped: the search returns
    exactly what the same query returns without centre and radius. *)
Theorem searchPantries_zero_argument_skips_radius ilike float8 radians cos sin acos
    query (lat lng r : float) (rows : list Pantry.t) :
  is_zero lat = true ∨ is_zero lng = true ∨ is_zero r = true →
  searchPantries ilike float8 radians cos sin acos query (Some lat) (Some lng) (Some r) rows =
  searchPantries ilike float8 radians cos sin acos query None None None rows.
Proof.
  intros Hzero. unfold searchPantries. rewrite searchConditions_falsy; [done|].
  unfold truthyNumber.
  destruct Hzero as [-> | [-> | ->]]; rewrite ?orb_true_r; cbn [negb andb];
    by rewrite ?andb_false_r.
Qed.

Lemma searchPantries_zero_argument_witness :
  is_zero 0%float = true ∧
  ∀ ilike float8 radians cos sin acos,
    searchPantries ilike float8 radians cos sin acos
      "" (Some 40.62%float) (Some (-75.37)%float) (Some 0%float)
      [helpingHands; graceKitchen]
    = [helpingHands; graceKitchen].
Proof.
  split; [reflexivity|]. intros.
  rewrite (searchPantries_zero_argument_skips_radius ilike float8 radians cos sin acos
             "" 40.62%float (-75.37)%float 0%float [helpingHands; graceKitchen]).
  - reflexivity.
  - right. right. reflexivity.
Defined.

(** ** The CSV upload *)

Module UploadFacts.
Import Js Normalizer Schema Storage Effects SharePointService Routes Spec.

Lemma mapRow_None row :
  mapRow row = None ↔ skipName (getName row) = true.
Proof. unfold mapRow. destruct (skipName (getName row)); naive_solver. Qed.

(** A single row reaches the import loop exactly when the ['data']
    listener keeps it and the name guard of the mapping step lets it pass. *)
Lemma candidates_single row :
  candidates [row] = [] ↔ keepRow row = false ∨ skipName (getName row) = true.
Proof.
  unfold candidates. cbn [List.filter]. destruct (keepRow row) eqn:Hkeep.
  - cbn [omap list_omap]. destruct (mapRow row) eqn:Hmap.
    + split; [done|]. intros [?|Hs]; [done|]. apply mapRow_None in Hs. congruence.
    + split; [|done]. intros _. right. unfold mapRow in Hmap.
      by destruct (skipName (getName row)).
  - split; [by left|done].
Qed.

(** No candidate carries an empty name: the mapping step only lets
    through names of at least three code units. *)
Lemma candidates_named rows d :
  In d (candidates rows) →
  ∃ name, PantryData.name d = JString name ∧ skipName name = false.
Proof.
  unfold candidates. rewrite <- list_elem_of_In, list_elem_of_omap.
  intros (row & _ & Hmap). unfold mapRow in Hmap.
  destruct (skipName (getName row)) eqn:Hskip; [done|].
  injection Hmap as <-. eauto.
Qed.

(** What validation keeps of the object it is given. *)
Lemma insertPantrySchema_parse_fields d v :
  insertPantrySchema_parse d = Some v →
  PantryData.name d = JString (InsertPantry.name v) ∧
  PantryData.address d = JString (InsertPantry.address v) ∧
  PantryData.city d = JString (InsertPantry.city v) ∧
  PantryData.state d = JString (InsertPantry.state v).
Proof.
  unfold insertPantrySchema_parse, zString. intros H.
  destruct (PantryData.name d); try done.
  destruct (PantryData.address d); try done.
  destruct (PantryData.city d); try done.
  destruct (PantryData.state d); try done.
  simplify_option_eq. done.
Qed.

Lemma fillDefaults_stored d v newId :
  insertPantrySchema_parse (fillDefaults d) = Some v →
  storedFrom d (insertedRow newId v).
Proof.
  intros (Hn & Ha & Hc & Hs)%insertPantrySchema_parse_fields.
  unfold storedFrom, insertedRow. cbn [Pantry.name Pantry.state Pantry.city].
  unfold fillDefaults in *.
  destruct (truthy (PantryData.state d)) eqn:Hstate; cbn [negb] in *.
  - destruct (truthy (PantryData.city d)) eqn:Hcity; cbn [negb andb] in *.
    + naive_solver.
    + destruct (truthy (PantryData.address d)) eqn:Haddr; [|naive_solver].
      cbn in Hn, Hc, Hs. injection Hc as <-. naive_solver.
  - cbn [withState PantryData.city PantryData.address] in *.
    destruct (truthy (PantryData.city d)) eqn:Hcity; cbn [negb andb] in *.
    + cbn in Hn, Hs. injection Hs as <-. naive_solver.
    + destruct (truthy (PantryData.address d)) eqn:Haddr.
      * cbn in Hn, Hc, Hs. injection Hs as <-. injection Hc as <-. naive_solver.
      * cbn in Hn, Hs. injection Hs as <-. naive_solver.
Qed.

Section Loop.
Variable env : Env.

(** One iteration always completes; it either appends one row, created
    from the candidate with the defaults filled in, or leaves the table as
    it was and counts an error. *)
Lemma importCandidate_run index d t w :
  ∃ w' t', importCandidate env index d t w = (w', Returned t') ∧
    dataSyncSettings (store w') = dataSyncSettings (store w) ∧
    ((∃ row, pantries (store w') = (pantries (store w) ++ [row])%list ∧ storedFrom d row ∧
             successCount t' = S (successCount t) ∧ errorCount t' = errorCount t) ∨
     (pantries (store w') = pantries (store w) ∧
      successCount t' = successCount t ∧ errorCount t' = S (errorCount t))).
Proof.
  unfold importCandidate, tryCatch.
  destruct (negb (truthy (PantryData.name d)) ||
            negb (truthy (PantryData.address d)) && negb (truthy (PantryData.city d))).
  { cbn. eauto 10. }
  unfold bind, parse.
  destruct (insertPantrySchema_parse (fillDefaults d)) as [v|] eqn:Hparse.
  - cbn [ret]. unfold storage_createPantry.
    destruct (insertOutcome env (pantryStatements w)) as [newId|message].
    + cbn. do 2 eexists. split; [done|]. split; [done|]. left.
      eexists. split; [done|]. split; [|done]. by apply fillDefaults_stored.
    + cbn. eauto 10.
  - cbn. eauto 10.
Qed.

End Loop.
End UploadFacts.

Import Effects SharePointService Routes UploadFacts.

Lemma importCandidates_run env index cands t w :
  ∃ results w' t',
    importCandidates env index cands t w = (w', Returned t') ∧
    Forall2 (fun d r => ∀ row, r = Some row → storedFrom d row) cands results ∧
    pantries (store w') = (pantries (store w) ++ omap id results)%list ∧
    dataSyncSettings (store w') = dataSyncSettings (store w) ∧
    successCount t' = (successCount t + List.length (omap id results))%nat ∧
    (successCount t' + errorCount t' =
     successCount t + errorCount t + List.length cands)%nat.
Proof.
  revert index t w. induction cands as [|d rest IH]; intros index t w.
  - exists [], w, t. cbn. rewrite app_nil_r. repeat split; [constructor|lia..].
  - destruct (importCandidate_run env index d t w) as (w1 & t1 & Hstep & Hset1 & Hcase).
    destruct (IH (S index) t1 w1)
      as (results & w' & t' & Hrun & Hall & Hrows & Hset & Hcount & Htotal).
    cbn [importCandidates]. unfold bind at 1. rewrite Hstep, Hrun.
    destruct Hcase as [(row & Hp & Hstored & Hs & He)|(Hp & Hs & He)].
    + exists (Some row :: results), w', t'. split; [done|]. split; [|split; [|split; [|split]]].
      * constructor; [by intros ? [= <-]|done].
      * rewrite Hrows, Hp. cbn [omap list_omap id]. by rewrite <- app_assoc.
      * congruence.
      * rewrite Hcount, Hs. cbn [omap list_omap id List.length]. lia.
      * cbn [List.length]. lia.
    + exists (None :: results), w', t'. split; [done|]. split; [|split; [|split; [|split]]].
      * constructor; [done|done].
      * rewrite Hrows, Hp. done.
      * congruence.
      * rewrite Hcount, Hs. done.
      * cbn [List.length]. lia.
Qed.

(** C8.  The upload handler always answers, and every row it adds to the
    store comes from one candidate, in order: a candidate is either rejected
    (nothing stored, one error counted) or accepted and stored with its name,
    with state ["PA"] when its state was missing, and with city ["Unknown"]
    when its city was missing and its address present. *)
Theorem uploadCsv_fills_defaults env (rows : list Row) w :
  ∃ results w' response,
    uploadCsv env (Some (Returned rows)) w = (w', Returned response) ∧
    Forall2 (fun d r => ∀ row, r = Some row → storedFrom d row) (candidates rows) results ∧
    pantries (store w') = (pantries (store w) ++ omap id results)%list ∧
    ∀ imported failed messages,
      response = UploadProcessed imported failed messages →
      imported = List.length (omap id results) ∧
      (imported + failed)%nat = List.length (candidates rows).
Proof.
  unfold uploadCsv, tryCatch, candidates. unfold bind at 1. cbn [lift].
  destruct (bool_decide (List.filter keepRow rows = [])) eqn:Hempty.
  - apply bool_decide_eq_true in Hempty. rewrite Hempty.
    exists [], w, (UploadBadRequest "CSV file is empty or invalid").
    cbn. rewrite app_nil_r. repeat split; [constructor|done..].
  - destruct (importCandidates_run env 0 (omap mapRow (List.filter keepRow rows))
                (mkTally 0 0 []) w)
      as (results & w' & t' & Hrun & Hall & Hrows & _ & Hcount & Htotal).
    unfold bind. rewrite Hrun. cbn [ret].
    eexists results, w', _. split; [done|]. split; [done|]. split; [done|].
    intros ? ? ? [= <- <- _]. split; [exact Hcount|exact Htotal].
Qed.

Example uploadCsv_helping_hands :
  uploadCsv sampleEnv
    (Some (Returned [list_to_map [("name", "Helping Hands"); ("address", "1 Main St");
                                  ("city", ""); ("state", "")]]))
    emptyWorld
  = (mkWorld
       (mkStore [Pantry.make "id-0" "Helping Hands" "1 Main St" "Unknown" "PA" ""
                   None None None None None None None (Some []) None (Some true)] [])
       1 0,
     Returned (UploadProcessed 1 0 [])).
Proof. by vm_compute. Qed.

Example uploadCsv_digits_only :
  uploadCsv sampleEnv
    (Some (Returned [list_to_map [("name", "123"); ("address", "X")];
                     list_to_map [("name", "Helping Hands"); ("address", "1 Main St")]]))
    emptyWorld
  = (mkWorld
       (mkStore [Pantry.make "id-0" "Helping Hands" "1 Main St" "Unknown" "PA" ""
                   None None None None None None None (Some []) None (Some true)] [])
       1 0,
     Returned (UploadProcessed 1 0 [])).
Proof. by vm_compute. Qed.

(** C5.  A row that carries its name under the accepted header [Name]
    resolves to a usable name, which none of the four skip conditions
    rejects, and is skipped all the same: the ['data'] listener reads the
    [name] column only and drops the row before the header variants are
    tried.  The upload of this one row is answered as an empty file and
    stores nothing. *)
Theorem uploadCsv_drops_Name_header_row :
  let row : Row := list_to_map [("Name", "Helping Hands"); ("Address", "1 Main St");
                                ("City", "Bethlehem"); ("State", "PA")] in
  getName row = "Helping Hands" ∧
  skipName (getName row) = false ∧
  keepRow row = false ∧
  candidates [row] = [] ∧
  ∀ env w,
    uploadCsv env (Some (Returned [row])) w
    = (w, Returned (UploadBadRequest "CSV file is empty or invalid")).
Proof. cbv zeta. repeat split. Qed.

(** ** The remote-list adapter *)

Module AdapterFacts.
Import Js Schema Effects SharePointService.




Section Unwrap.
Variable numberToString : float → string.

Lemma firstTruthyProp_Some value keys sub :
  firstTruthyProp value keys = Some sub →
  ∃ i key, keys !! i = Some key ∧ sub = prop value key ∧ truthy sub = true ∧
    ∀ j key', (j < i)%nat → keys !! j = Some key' → truthy (prop value key') = false.
Proof.
  induction keys as [|k keys IH]; [done|]. cbn [firstTruthyProp].
  destruct (truthy (prop value k)) eqn:Hk.
  - intros [= <-]. exists 0%nat, k. repeat split; [done|]. intros ? ? ?. lia.
  - intros (i & key & Hi & -> & Ht & Hbefore)%IH.
    exists (S i), key. repeat split; [done..|].
    intros [|j] key' Hlt Hj; [by injection Hj as <-|].
    apply (Hbefore j); [lia|done].
Qed.

Lemma firstTruthyProp_None value keys :
  firstTruthyProp value keys = None ↔ ∀ key, key ∈ keys → truthy (prop value key) = false.
Proof.
  induction keys as [|k keys IH]; cbn [firstTruthyProp].
  - split; [|done]. intros _ key Hin. by apply elem_of_nil in Hin.
  - destruct (truthy (prop value k)) eqn:Hk.
    + split; [done|]. intros H. specialize (H k (list_elem_of_here _ _)). congruence.
    + rewrite IH. split.
      * intros H key [->|Hin]%elem_of_cons; auto.
      * intros H key Hin. apply H. by right.
Qed.

Lemma stringify_object value :
  isObject value = true → is_Some (stringify numberToString value).
Proof. destruct value; try done; cbn [stringify]; by eexists. Qed.

(** [toStringOrNull] on an object: the first truthy sub-key wins, and
    with none the JSON text of the whole value is returned. *)
Lemma toStringOrNull_object value :
  isObject value = true →
  ∃ text, toStringOrNull numberToString value = Some text ∧
    (∀ i key, urlKeys !! i = Some key → truthy (prop value key) = true →
       (∀ j key', (j < i)%nat → urlKeys !! j = Some key' → truthy (prop value key') = false) →
       text = toStr numberToString (prop value key)) ∧
    ((∀ key, key ∈ urlKeys → truthy (prop value key) = false) →
     stringify numberToString value = Some text).
Proof.
  intros Hobj.
  assert (toStringOrNull numberToString value =
          match firstTruthyProp value urlKeys with
          | Some sub => Some (toStr numberToString sub)
          | None => stringify numberToString value
          end) as ->.
  { by destruct value. }
  destruct (firstTruthyProp value urlKeys) as [sub|] eqn:Hfirst.
  - apply firstTruthyProp_Some in Hfirst as (i0 & key0 & Hi0 & -> & Ht0 & Hbefore0).
    eexists. split; [done|]. split.
    + intros i key Hi Ht Hbefore.
      destruct (lt_eq_lt_dec i i0) as [[Hlt| ->]|Hgt].
      * rewrite (Hbefore0 i key Hlt Hi) in Ht. done.
      * rewrite Hi in Hi0. by injection Hi0 as ->.
      * rewrite (Hbefore i0 key0 Hgt Hi0) in Ht0. done.
    + intros Hnone. rewrite Hnone in Ht0; [done|]. by eapply list_elem_of_lookup_2.
  - destruct (stringify_object value Hobj) as [text Htext].
    exists text. split; [done|]. split; [|done].
    intros i key Hi Ht _. rewrite firstTruthyProp_None in Hfirst.
    rewrite Hfirst in Ht; [done|]. by eapply list_elem_of_lookup_2.
Qed.

(** A mapped column holding an object reaches the field helpers as is. *)
Lemma getFieldValue_object mapping fields field column value :
  mapping !! field = Some column → truthyStr column = true →
  fields !! column = Some value → isObject value = true →
  getFieldValue mapping fields field = value.
Proof.
  intros Hmap Hcol Hval Hobj. unfold getFieldValue.
  rewrite Hmap, Hcol, Hval. by destruct value.
Qed.

End Unwrap.
End AdapterFacts.

Import AdapterFacts.

(** C9 (counterexample).  Only some fields are unwrapped.  The same
    hyperlink object mapped to [website] and to [email] is stored as
    ["http://x.org"] for the website but stays an object for the email, and
    the pantry built from the item then fails validation.  And a sub-key
    that is present with an empty value is passed over: the website with an
    empty [Url] is stored as its [Description]. *)
Lemma pantryOfItem_email_not_unwrapped :
  getFieldValue sampleMapping (fields sampleItem) "email" = hyperlink ∧
  ∀ numberToString,
    PantryData.website (pantryOfItem numberToString sampleMapping sampleItem)
      = JString "http://x.org" ∧
    PantryData.email (pantryOfItem numberToString sampleMapping sampleItem) = hyperlink ∧
    insertPantrySchema_parse (pantryOfItem numberToString sampleMapping sampleItem) = None ∧
    PantryData.website (pantryOfItem numberToString sampleMapping emptyUrlItem)
      = JString "site".
Proof. split; [by vm_compute|]. intros. repeat split. Qed.

(** C9 (amended).  A mapped source value that is an object is stored, for
    the phone, website, latitude and longitude fields, as text: the string
    form of the first of [Url], [url], [URL], [Description], [description]
    whose value is truthy, and, when none is, the [JSON.stringify] text of
    the whole object.  For the name, address, city, state, email, hours,
    description and access-type fields the object is kept as it is. *)
Theorem pantryOfItem_unwraps_object numberToString
    (mapping : gmap string string) (item : SharePointListItem)
    (field column : string) (select : PantryData.t → JsValue) (value : JsValue) :
  mapping !! field = Some column →
  truthyStr column = true →
  fields item !! column = Some value →
  isObject value = true →
  (unwrappedField field = Some select →
   ∃ text,
     select (pantryOfItem numberToString mapping item) = JString text ∧
     (∀ i key, urlKeys !! i = Some key → truthy (prop value key) = true →
        (∀ j key', (j < i)%nat → urlKeys !! j = Some key' →
                   truthy (prop value key') = false) →
        text = toStr numberToString (prop value key)) ∧
     ((∀ key, key ∈ urlKeys → truthy (prop value key) = false) →
      stringify numberToString value = Some text)) ∧
  (plainField field = Some select →
   select (pantryOfItem numberToString mapping item) = value).
Proof.
  intros Hmap Hcol Hval Hobj.
  pose proof (getFieldValue_object mapping (fields item) field column value
                Hmap Hcol Hval Hobj) as Hget.
  assert (truthy value = true) as Htruthy by by destruct value.
  split; intros Hsel.
  - destruct (toStringOrNull_object numberToString value Hobj)
      as (text & Htext & Hfirst & Hnone).
    exists text. split; [|done].
    unfold unwrappedField in Hsel.
    repeat case_decide; try done; injection Hsel as <-; subst field;
      cbn [pantryOfItem PantryData.phone PantryData.website
           PantryData.latitude PantryData.longitude]; by rewrite Hget, Htext.
  - unfold plainField in Hsel.
    repeat case_decide; try done; injection Hsel as <-; subst field;
      cbn [pantryOfItem PantryData.name PantryData.address PantryData.city
           PantryData.state PantryData.email PantryData.hours
           PantryData.description PantryData.accessType];
      rewrite Hget; unfold orElse; by rewrite ?Htruthy.
Qed.

Lemma pantryOfItem_unwraps_object_witness :
  sampleMapping !! "website" = Some "Site" ∧
  fields sampleItem !! "Site" = Some hyperlink ∧
  unwrappedField "website" = Some PantryData.website ∧
  ∀ numberToString, ∃ text,
    PantryData.website (pantryOfItem numberToString sampleMapping sampleItem) = JString text ∧
    (∀ i key, urlKeys !! i = Some key → truthy (prop hyperlink key) = true →
       (∀ j key', (j < i)%nat → urlKeys !! j = Some key' →
                  truthy (prop hyperlink key') = false) →
       text = toStr numberToString (prop hyperlink key)) ∧
    ((∀ key, key ∈ urlKeys → truthy (prop hyperlink key) = false) →
     stringify numberToString hyperlink = Some text).
Proof.
  split; [by vm_compute|]. split; [by vm_compute|]. split; [reflexivity|].
  intros numberToString.
  apply (pantryOfItem_unwraps_object numberToString sampleMapping sampleItem
           "website" "Site" PantryData.website hyperlink); by vm_compute.
Defined.

(** An object without any of the five sub-keys is kept as JSON text. *)
Example toStringOrNull_lookup_field numberToString :
  toStringOrNull numberToString
    (JObject [("LookupId", JString "7"); ("LookupValue", JString "Mon-Fri")])
  = Some ("{" +:+ quoteJSONString "LookupId" +:+ ":" +:+ quoteJSONString "7" +:+ "," +:+
          quoteJSONString "LookupValue" +:+ ":" +:+ quoteJSONString "Mon-Fri" +:+ "}").
Proof. reflexivity. Qed.

(** ** The SharePoint sync *)

Module SyncFacts.
Import Js Schema Storage Effects SharePointService Routes Spec.

Lemma updateDataSyncSettings_rows id patch st s' :
  s' ∈ dataSyncSettings (updateDataSyncSettings id patch st) →
  DataSyncSettings.id s' = id →
  ∃ s, s ∈ dataSyncSettings st ∧ s' = applyPatch patch s.
Proof.
  unfold updateDataSyncSettings. cbn [dataSyncSettings].
  rewrite list_elem_of_In, in_map_iff. intros (s & Heq & Hin%list_elem_of_In) Hid.
  destruct (decide (DataSyncSettings.id s = id)) as [His|Hnot]; [by eauto|].
  subst s'. done.
Qed.

Section Run.
Variable env : Env.
Variable numberToString : float → string.

Lemma patchSyncing_allSyncing id st :
  allSyncing id (updateDataSyncSettings id patchSyncing st).
Proof.
  intros s' Hin Hid.
  by destruct (updateDataSyncSettings_rows _ _ _ _ Hin Hid) as (s & _ & ->).
Qed.

Lemma patchError_settled id message st :
  allSettled (now env) id (updateDataSyncSettings id (patchError message) st).
Proof.
  intros s' Hin Hid.
  destruct (updateDataSyncSettings_rows _ _ _ _ Hin Hid) as (s & _ & ->).
  right. split; [done|]. by eexists.
Qed.

Lemma patchSuccess_settled id errors st :
  allSettled (now env) id (updateDataSyncSettings id (patchSuccess env errors) st).
Proof.
  intros s' Hin Hid.
  destruct (updateDataSyncSettings_rows _ _ _ _ Hin Hid) as (s & _ & ->).
  by left.
Qed.

Lemma update_ok id patch w :
  settingsFault env (settingsStatements w) = None →
  storage_updateDataSyncSettings env id patch w =
  (mkWorld (updateDataSyncSettings id patch (store w)) (pantryStatements w)
     (S (settingsStatements w)), Returned ()).
Proof. intros H. unfold storage_updateDataSyncSettings, settingsStatement. by rewrite H. Qed.

Lemma update_fail id patch w message :
  settingsFault env (settingsStatements w) = Some message →
  storage_updateDataSyncSettings env id patch w =
  (mkWorld (store w) (pantryStatements w) (S (settingsStatements w)), Thrown message).
Proof. intros H. unfold storage_updateDataSyncSettings, settingsStatement. by rewrite H. Qed.

(** The import loop of the sync always completes and touches neither
    the settings table nor its statement count. *)
Lemma importSynced_run pantries imported errors w :
  ∃ w' r,
    importSynced env numberToString pantries imported errors w = (w', Returned r) ∧
    dataSyncSettings (store w') = dataSyncSettings (store w) ∧
    settingsStatements w' = settingsStatements w.
Proof.
  revert imported errors w. induction pantries as [|d rest IH]; intros imported errors w.
  - by eexists _, _.
  - cbn [importSynced]. unfold bind at 1, tryCatch, bind, parse.
    destruct (insertPantrySchema_parse d) as [v|].
    + cbn [ret]. unfold storage_createPantry.
      destruct (insertOutcome env (pantryStatements w)) as [newId|message]; cbn.
      * destruct (IH (S imported) errors
                    (mkWorld (mkStore (pantries (store w) ++ [insertedRow newId v])
                                (dataSyncSettings (store w)))
                       (S (pantryStatements w)) (settingsStatements w)))
          as (w' & r & -> & ? & ?). by eexists _, _.
      * match goal with |- context [importSynced _ _ rest ?i ?e ?w0] =>
          destruct (IH i e w0) as (w' & r & -> & ? & ?) end. by eexists _, _.
    + cbn.
      match goal with |- context [importSynced _ _ rest ?i ?e ?w0] =>
        destruct (IH i e w0) as (w' & r & -> & ? & ?) end. by eexists _, _.
Qed.

End Run.
End SyncFacts.

Import SyncFacts.

Lemma find_strictEqString settingsId l settings :
  List.find (fun s => strictEqString settingsId (DataSyncSettings.id s)) l = Some settings →
  settingsId = JString (DataSyncSettings.id settings).
Proof.
  intros [_ H]%find_some. unfold strictEqString in H.
  destruct settingsId; try done. by apply bool_decide_eq_true in H as ->.
Qed.

(** Every path of the sync handler, in one statement: the handler always
    answers; it issues at least one statement on the settings table; when
    the last one it issues succeeds the configuration is settled, and when
    the last one fails after the status was set the configuration is still
    [syncing]; a run whose mapping does not validate creates no pantry. *)
Lemma sharepointSync_run env numberToString settingsId settings w :
  truthy settingsId = true →
  List.find (fun s => strictEqString settingsId (DataSyncSettings.id s))
    (getDataSyncSettings (store w)) = Some settings →
  ∃ w' response k,
    sharepointSync env numberToString settingsId w = (w', Returned response) ∧
    settingsStatements w' = S k ∧ (settingsStatements w ≤ k)%nat ∧
    (settingsFault env k = None →
     allSettled (now env) (DataSyncSettings.id settings) (store w')) ∧
    (settingsFault env k ≠ None → (settingsStatements w + 2 ≤ k)%nat →
     allSyncing (DataSyncSettings.id settings) (store w')) ∧
    (valid (validateMapping (remote env) settings) = false →
     pantries (store w') = pantries (store w) ∧
     (response = InvalidColumnMapping (errors (validateMapping (remote env) settings)) ∨
      ∃ message, response = SyncFailed message)).
Proof.
  intros Htruthy Hfind. unfold sharepointSync. rewrite Htruthy. cbn [negb].
  unfold tryCatch at 1. unfold bind at 1.
  unfold storage_getDataSyncSettings, settingsStatement.
  destruct (settingsFault env (settingsStatements w)) as [m0|] eqn:F0.
  { eexists _, _, _. split; [done|]. cbn. split; [done|]. split; [done|].
    split; [congruence|]. split; [lia|]. eauto. }
  rewrite Hfind. unfold bind at 1.
  set (w1 := mkWorld (store w) (pantryStatements w) (S (settingsStatements w))).
  destruct (settingsFault env (settingsStatements w1)) as [m1|] eqn:F1.
  { rewrite (update_fail env _ _ w1 m1 F1).
    eexists _, _, _. split; [done|]. cbn. split; [done|]. split; [lia|].
    split; [cbn in F1; congruence|]. split; [lia|]. eauto. }
  rewrite (update_ok env _ _ w1 F1).
  set (id := DataSyncSettings.id settings).
  set (w2 := mkWorld _ _ _).
  assert (allSyncing id (store w2)) as Hsyncing by apply patchSyncing_allSyncing.
  unfold tryCatch.
  destruct (valid (validateMapping (remote env) settings)) eqn:Hvalid; cbn [negb].
  - (* the mapping validates *)
    unfold bind at 1. unfold lift.
    destruct (syncListData numberToString (remote env) settings) as [synced|m2].
    + unfold bind at 1.
      destruct (importSynced_run env numberToString synced 0 [] w2)
        as (w3 & r & -> & Hset3 & Hcount3).
      assert (allSyncing id (store w3)) as Hsyncing3.
      { unfold allSyncing. by rewrite Hset3. }
      unfold bind at 1.
      destruct (settingsFault env (settingsStatements w3)) as [m3|] eqn:F3.
      * rewrite (update_fail env _ _ w3 m3 F3). unfold bind at 1.
        set (w4 := mkWorld _ _ _).
        destruct (settingsFault env (settingsStatements w4)) as [m4|] eqn:F4.
        -- rewrite (update_fail env _ _ w4 m4 F4).
           eexists _, _, _. split; [done|]. cbn. split; [done|]. rewrite Hcount3. cbn.
           split; [lia|]. split; [|done].
           cbn in F4. rewrite Hcount3 in F4. cbn in F4. congruence.
        -- rewrite (update_ok env _ _ w4 F4).
           eexists _, _, _. split; [done|]. cbn. split; [done|]. rewrite Hcount3. cbn.
           split; [lia|]. split; [intros _; apply patchError_settled|]. split; [|done].
           cbn in F4. rewrite Hcount3 in F4. cbn in F4. congruence.
      * rewrite (update_ok env _ _ w3 F3).
        eexists _, _, _. split; [done|]. cbn. split; [done|]. rewrite Hcount3. cbn.
        split; [lia|]. split; [intros _; apply patchSuccess_settled|]. split; [|done].
        rewrite Hcount3 in F3. cbn in F3. congruence.
    + unfold bind at 1.
      destruct (settingsFault env (settingsStatements w2)) as [m3|] eqn:F3.
      * rewrite (update_fail env _ _ w2 m3 F3).
        eexists _, _, _. split; [done|]. cbn. split; [done|].
        split; [lia|]. split; [|done]. cbn in F3. congruence.
      * rewrite (update_ok env _ _ w2 F3).
        eexists _, _, _. split; [done|]. cbn. split; [done|].
        split; [lia|]. split; [intros _; apply patchError_settled|]. split; [|done].
        cbn in F3. congruence.
  - (* the mapping is rejected *)
    unfold bind at 1.
    destruct (settingsFault env (settingsStatements w2)) as [m2|] eqn:F2.
    + rewrite (update_fail env _ _ w2 m2 F2). unfold bind at 1.
      set (w3 := mkWorld _ _ _).
      destruct (settingsFault env (settingsStatements w3)) as [m3|] eqn:F3.
      * rewrite (update_fail env _ _ w3 m3 F3).
        eexists _, _, _. split; [done|]. cbn. split; [done|].
        split; [lia|]. split; [cbn in F3; congruence|]. split; [done|]. eauto.
      * rewrite (update_ok env _ _ w3 F3).
        eexists _, _, _. split; [done|]. cbn. split; [done|].
        split; [lia|]. split; [intros _; apply patchError_settled|].
        split; [cbn in F3; congruence|]. eauto.
    + rewrite (update_ok env _ _ w2 F2).
      eexists _, _, _. split; [done|]. cbn. split; [done|].
      split; [lia|]. split; [intros _; apply patchError_settled|].
      split; [cbn in F2; congruence|]. eauto.
Qed.

(** C1 (counterexample).  When the items fetch throws and the status
    update of the exception handler throws as well, the handler answers
    "Sync failed" and the configuration is left with status [syncing]. *)
Lemma sharepointSync_left_syncing :
  let final :=
    mkWorld
      (mkStore []
         [DataSyncSettings.make "cfg-1" (Some "tenant") (Some "client") (Some "secret")
            (Some "site") (Some "list") sampleMapping None (Some "syncing") None
            (Some true)])
      0 3 in
  (∀ numberToString,
     sharepointSync outageEnv numberToString (JString "cfg-1") syncWorld
     = (final, Returned (SyncFailed "Connection terminated unexpectedly"))) ∧
  List.map DataSyncSettings.syncStatus (dataSyncSettings (store final)) = [Some "syncing"].
Proof. cbv zeta. split; [|done]. intros. by vm_compute. Qed.

(** C1 (amended).  For a configuration the handler finds, the sync
    handler always answers.  When the last statement it issues on the
    settings table succeeds, every row of that configuration is left with
    status [success] and the time of the run, or with status [error] and a
    message.  When that last statement fails after the status was set (it
    is then at least the third statement of the run), the rows are left with
    status [syncing]. *)
Theorem sharepointSync_settles_status env numberToString settingsId settings w :
  truthy settingsId = true →
  List.find (fun s => strictEqString settingsId (DataSyncSettings.id s))
    (getDataSyncSettings (store w)) = Some settings →
  ∃ w' response k,
    sharepointSync env numberToString settingsId w = (w', Returned response) ∧
    settingsStatements w' = S k ∧
    (settingsStatements w ≤ k)%nat ∧
    (settingsFault env k = None →
     ∀ s, s ∈ dataSyncSettings (store w') →
          DataSyncSettings.id s = DataSyncSettings.id settings →
          settled (now env) s) ∧
    (settingsFault env k ≠ None → (settingsStatements w + 2 ≤ k)%nat →
     ∀ s, s ∈ dataSyncSettings (store w') →
          DataSyncSettings.id s = DataSyncSettings.id settings →
          DataSyncSettings.syncStatus s = Some "syncing").
Proof.
  intros Htruthy Hfind.
  destruct (sharepointSync_run env numberToString settingsId settings w Htruthy Hfind)
    as (w' & response & k & Hrun & Hk & Hle & Hsettled & Hsyncing & _).
  by exists w', response, k.
Qed.

Lemma sharepointSync_settles_status_witness :
  truthy (JString "cfg-1") = true ∧
  List.find (fun s => strictEqString (JString "cfg-1") (DataSyncSettings.id s))
    (getDataSyncSettings (store syncWorld)) = Some sampleSettings ∧
  ∀ numberToString, ∃ w' response k,
    sharepointSync healthyEnv numberToString (JString "cfg-1") syncWorld
      = (w', Returned response) ∧
    settingsStatements w' = S k ∧
    (settingsStatements syncWorld ≤ k)%nat ∧
    (settingsFault healthyEnv k = None →
     ∀ s, s ∈ dataSyncSettings (store w') →
          DataSyncSettings.id s = DataSyncSettings.id sampleSettings →
          settled (now healthyEnv) s) ∧
    (settingsFault healthyEnv k ≠ None → (settingsStatements syncWorld + 2 ≤ k)%nat →
     ∀ s, s ∈ dataSyncSettings (store w') →
          DataSyncSettings.id s = DataSyncSettings.id sampleSettings →
          DataSyncSettings.syncStatus s = Some "syncing").
Proof.
  split; [reflexivity|]. split; [by vm_compute|]. intros numberToString.
  apply (sharepointSync_settles_status healthyEnv numberToString (JString "cfg-1")
           sampleSettings syncWorld); by vm_compute.
Defined.

(** A run with a per-record failure: the item's email is an object, its
    pantry fails validation, and the run still ends with status [success]. *)
Example sharepointSync_record_error numberToString :
  sharepointSync healthyEnv numberToString (JString "cfg-1") syncWorld
  = (mkWorld
       (mkStore []
          [DataSyncSettings.make "cfg-1" (Some "tenant") (Some "client") (Some "secret")
             (Some "site") (Some "list") sampleMapping (Some 1700000000%Z) (Some "success")
             (Some "1 errors occurred") (Some true)])
       0 3,
     Returned (SyncCompleted 0 0
                 ["Failed to import pantry Helping Hands: validation failed"])).
Proof. by vm_compute. Qed.

(** ** Mapping validation *)







Example sharepointSync_missing_state numberToString :
  validateMapping (remote healthyEnv) statelessSettings
    = mkValidation false ["Required field 'state' is not mapped"] ∧
  sharepointSync healthyEnv numberToString (JString "cfg-2") statelessWorld
  = (mkWorld
       (mkStore [helpingHands]
          [DataSyncSettings.make "cfg-2" (Some "tenant") (Some "client") (Some "secret")
             (Some "site") (Some "list") (DataSyncSettings.columnMapping statelessSettings)
             None (Some "error")
             (Some "Invalid column mapping: Required field 'state' is not mapped")
             (Some true)])
       0 3,
     Returned (InvalidColumnMapping ["Required field 'state' is not mapped"])).
Proof. split; by vm_compute. Qed.

(** * Further properties *)

(** ** The normaliser, continued *)

Module NormalizerMore.
Import Js Normalizer Spec Spec2 NormalizerFacts.

Lemma cleaned_fixed_when_markupFree s :
  markupFree s = true → collapseSpaces s = s → trim s = s → cleanHtmlAndWordPress s = s.
Proof.
  intros [Htag Hent]%andb_true_iff Hcollapse Htrim. apply negb_true_iff in Htag.
  unfold cleanHtmlAndWordPress. destruct (negb (truthyStr s)); [done|].
  rewrite removeWpComments_noTag, removeTags_noTag, decodeEntities_absent by done.
  by rewrite Hcollapse.
Qed.

Lemma trimEnd_truthy_fixed c s :
  trimEnd (String c s) = String c s → trimEnd s = s ∧ (isSpace c = true → truthyStr s = true).
Proof.
  cbn [trimEnd]. destruct (isSpace c && negb (truthyStr (trimEnd s))) eqn:Hcond; [done|].
  intros [= Hs]. split; [done|]. intros Hc. rewrite Hc, Hs in Hcond.
  by destruct (truthyStr s).
Qed.

(** Text that the white-space steps leave alone is tidy, and conversely. *)
Lemma fixed_wellSpaced b s :
  collapseSpaces_go b s = s → trimEnd s = s →
  wellSpaced s = true ∧ (b = true → noLeadingSpace s = true).
Proof.
  revert b. induction s as [|c s IH]; intros b Hfix Hend; [done|].
  apply trimEnd_truthy_fixed in Hend as [Hend Hlast].
  cbn [wellSpaced noLeadingSpace]. destruct (isSpace c) eqn:Hc.
  - destruct b; [by apply collapse_fixed_in_run in Hfix|].
    cbn [collapseSpaces_go] in Hfix. rewrite Hc in Hfix. injection Hfix as Hsp Hs.
    destruct (IH true Hs Hend) as [Hw Hn].
    rewrite Hw, Hn, Hlast, <- Hsp by done. by rewrite bool_decide_eq_true_2.
  - cbn [collapseSpaces_go] in Hfix. rewrite Hc in Hfix. injection Hfix as Hs.
    destruct (IH false Hs Hend) as [Hw _]. by rewrite Hw.
Qed.

Lemma wellSpaced_fixed s :
  wellSpaced s = true →
  (∀ b, (b = true → noLeadingSpace s = true) → collapseSpaces_go b s = s) ∧ trimEnd s = s.
Proof.
  induction s as [|c s IH]; [done|]. cbn [wellSpaced].
  intros [Hhere Hrest]%andb_true_iff. destruct (IH Hrest) as [Hgo Hend]. split.
  - intros b Hb. cbn [collapseSpaces_go]. destruct (isSpace c) eqn:Hc.
    + apply andb_true_iff in Hhere as [[Hsp%bool_decide_eq_true _]%andb_true_iff Hn].
      destruct b.
      * specialize (Hb eq_refl). cbn in Hb. by rewrite Hc in Hb.
      * rewrite Hgo by done. by rewrite Hsp.
    + by rewrite Hgo.
  - cbn [trimEnd]. rewrite Hend. destruct (isSpace c) eqn:Hc; [|done].
    apply andb_true_iff in Hhere as [[_ Ht]%andb_true_iff _]. by rewrite Ht.
Qed.

Lemma tidy_fixed s : tidy s = true → collapseSpaces s = s ∧ trim s = s.
Proof.
  intros [Hlead Hw]%andb_true_iff. destruct (wellSpaced_fixed s Hw) as [Hgo Hend].
  split; [by apply Hgo|]. unfold trim. by rewrite trimStart_id.
Qed.

Lemma collapse_trim_fixed s :
  collapseSpaces_go false (trim (collapseSpaces s)) = trim (collapseSpaces s).
Proof. unfold trim. apply trimEnd_fixed, trimStart_fixed, collapse_collapse. Qed.

Lemma trim_collapse_tidy s : tidy (trim (collapseSpaces s)) = true.
Proof.
  unfold tidy. apply andb_true_iff. split.
  - unfold trim. apply trimEnd_noLeadingSpace, trimStart_noLeadingSpace.
  - eapply (fixed_wellSpaced false); [apply collapse_trim_fixed|].
    unfold trim. apply trimEnd_idem.
Qed.

(** *** What the steps cannot add *)

Lemma occurs_hasGt s : hasGt s = occurs ">"%char s.
Proof.
  unfold hasGt. induction s as [|c s IH]; [done|]. cbn [indexOfGt occurs].
  destruct (decide (c = ">"%char)) as [->|Hc].
  - by rewrite bool_decide_eq_true_2.
  - rewrite (bool_decide_eq_false_2 (c = _)) by done. cbn [orb]. rewrite <- IH.
    apply bool_decide_ext. rewrite fmap_is_Some. done.
Qed.

Lemma occurs_later c d s : occurs c s = true → occurs c (String d s) = true.
Proof. intros H. cbn [occurs]. rewrite H. apply orb_true_r. Qed.

Lemma occurs_kept c d s t :
  (occurs c t = true → occurs c s = true) →
  occurs c (String d t) = true → occurs c (String d s) = true.
Proof.
  intros Hts. cbn [occurs]. intros [Hd|Ho]%orb_true_iff.
  - by rewrite Hd.
  - rewrite (Hts Ho). apply orb_true_r.
Qed.

Lemma removeWpComments_go_occurs c k s :
  occurs c (removeWpComments_go k s) = true → occurs c s = true.
Proof.
  revert k. induction s as [|d s IH]; intros k; [done|].
  cbn [removeWpComments_go]. destruct k as [|k].
  - destruct (matchWpComment (String d s)).
    + intros Ho%IH. by apply occurs_later.
    + apply occurs_kept, IH.
  - intros Ho%IH. by apply occurs_later.
Qed.

Lemma removeTags_go_occurs c b s :
  occurs c (removeTags_go b s) = true → occurs c s = true.
Proof.
  revert b. induction s as [|d s IH]; intros b; [done|].
  cbn [removeTags_go]. destruct b.
  - destruct (decide (d = ">"%char)); intros Ho%IH; by apply occurs_later.
  - destruct (decide (d = "<"%char)); [destruct (hasGt s)|].
    + intros Ho%IH. by apply occurs_later.
    + apply occurs_kept, IH.
    + apply occurs_kept, IH.
Qed.

Lemma collapse_occurs c b s :
  isSpace c = false → occurs c (collapseSpaces_go b s) = occurs c s.
Proof.
  intros Hc. revert b. induction s as [|d s IH]; intros b; [done|].
  cbn [collapseSpaces_go occurs]. destruct (isSpace d) eqn:Hd.
  - assert (bool_decide (d = c) = false) as ->.
    { apply bool_decide_eq_false_2. intros ->. congruence. }
    destruct b; cbn [occurs orb]; rewrite ?IH; [done|].
    rewrite (bool_decide_eq_false_2 (" "%char = c)); [done|]. intros <-. done.
  - cbn [occurs]. by rewrite IH.
Qed.

Lemma trimStart_occurs c s :
  isSpace c = false → occurs c (trimStart s) = occurs c s.
Proof.
  intros Hc. induction s as [|d s IH]; [done|]. cbn [trimStart].
  destruct (isSpace d) eqn:Hd; [|done]. cbn [occurs]. rewrite IH.
  rewrite (bool_decide_eq_false_2 (d = c)); [done|]. intros ->. congruence.
Qed.

Lemma trimEnd_occurs c s :
  isSpace c = false → occurs c (trimEnd s) = occurs c s.
Proof.
  intros Hc. induction s as [|d s IH]; [done|]. cbn [trimEnd].
  destruct (isSpace d && negb (truthyStr (trimEnd s))) eqn:Hcond.
  - apply andb_true_iff in Hcond as [Hd Hempty]. cbn [occurs].
    rewrite (bool_decide_eq_false_2 (d = c)) by (intros ->; congruence).
    rewrite <- IH. by destruct (trimEnd s).
  - cbn [occurs]. by rewrite IH.
Qed.

Lemma includes_occurs c pat s :
  includes (String c pat) s = true → occurs c s = true.
Proof.
  induction s as [|d s IH]; [done|]. cbn [includes startsWith occurs].
  destruct (decide (c = d)) as [->|]; [by rewrite bool_decide_eq_true_2|].
  cbn [orb]. intros H%IH. rewrite H. apply orb_true_r.
Qed.

(** *** No tag survives the tag step *)

Lemma removeTags_go_noTag s :
  hasTag (removeTags_go false s) = false ∧
  (hasGt s = true → hasTag (removeTags_go true s) = false).
Proof.
  induction s as [|c s [IHf IHt]]; [done|]. split.
  - cbn [removeTags_go]. destruct (decide (c = "<"%char)) as [->|Hc].
    + destruct (hasGt s) eqn:Hgt; [by apply IHt|].
      cbn [hasTag]. rewrite IHf, orb_false_r, bool_decide_eq_true_2 by done.
      cbn [andb]. rewrite occurs_hasGt in *.
      destruct (occurs ">" (removeTags_go false s)) eqn:Ho; [|done].
      apply removeTags_go_occurs in Ho. congruence.
    + cbn [hasTag]. by rewrite IHf, bool_decide_eq_false_2.
  - cbn [removeTags_go]. destruct (decide (c = ">"%char)) as [->|Hc]; [done|].
    intros Hgt. apply IHt. rewrite occurs_hasGt in *. cbn [occurs] in Hgt.
    by rewrite bool_decide_eq_false_2 in Hgt.
Qed.

Lemma hasTag_collapse b s : hasTag (collapseSpaces_go b s) = hasTag s.
Proof.
  revert b. induction s as [|c s IH]; intros b; [done|].
  cbn [collapseSpaces_go hasTag]. destruct (isSpace c) eqn:Hc.
  - rewrite (bool_decide_eq_false_2 (c = "<"%char)) by (intros ->; done).
    destruct b; cbn [hasTag andb orb]; by rewrite ?IH.
  - cbn [hasTag]. rewrite IH, !occurs_hasGt, collapse_occurs; done.
Qed.

Lemma hasTag_trimStart s : hasTag (trimStart s) = hasTag s.
Proof.
  induction s as [|c s IH]; [done|]. cbn [trimStart].
  destruct (isSpace c) eqn:Hc; [|done]. cbn [hasTag].
  by rewrite (bool_decide_eq_false_2 (c = "<"%char)) by (intros ->; done).
Qed.

Lemma hasTag_trimEnd s : hasTag (trimEnd s) = hasTag s.
Proof.
  induction s as [|c s IH]; [done|]. cbn [trimEnd].
  destruct (isSpace c && negb (truthyStr (trimEnd s))) eqn:Hcond.
  - apply andb_true_iff in Hcond as [Hc Hempty]. cbn [hasTag].
    rewrite (bool_decide_eq_false_2 (c = "<"%char)) by (intros ->; done).
    rewrite <- IH. by destruct (trimEnd s).
  - cbn [hasTag]. rewrite IH, !occurs_hasGt, trimEnd_occurs; done.
Qed.

Lemma no_ampersand_markupFree s :
  occurs "&"%char s = false → markupFree (cleanHtmlAndWordPress s) = true.
Proof.
  intros Hamp. unfold cleanHtmlAndWordPress.
  destruct s as [|c s]; [done|]. cbn [truthyStr negb]. set (t := String c s) in *.
  set (u := removeTags (removeWpComments t)).
  assert (occurs "&"%char u = false) as Hu.
  { destruct (occurs "&"%char u) eqn:Ho; [|done].
    apply removeTags_go_occurs, removeWpComments_go_occurs in Ho. congruence. }
  assert (decodeEntities u = u) as ->.
  { apply decodeEntities_absent. cbn [forallb entities].
    repeat (apply andb_true_iff; split); try done; apply negb_true_iff;
      match goal with |- includes ?e u = false =>
        destruct (includes e u) eqn:Hi; [apply includes_occurs in Hi; congruence|done] end. }
  unfold markupFree. apply andb_true_iff. split.
  - apply negb_true_iff. unfold trim, collapseSpaces.
    rewrite hasTag_trimEnd, hasTag_trimStart, hasTag_collapse.
    apply removeTags_go_noTag.
  - assert (occurs "&"%char (trim (collapseSpaces u)) = false) as Ht.
    { unfold trim, collapseSpaces.
      by rewrite trimEnd_occurs, trimStart_occurs, collapse_occurs. }
    cbn [forallb entities].
    repeat (apply andb_true_iff; split); try done; apply negb_true_iff;
      match goal with |- includes ?e ?x = false =>
        destruct (includes e x) eqn:Hi; [apply includes_occurs in Hi; congruence|done] end.
Qed.

Lemma cleaned_tidy s : tidy (cleanHtmlAndWordPress s) = true.
Proof.
  unfold cleanHtmlAndWordPress. destruct (negb (truthyStr s)) eqn:Hs.
  - by destruct s.
  - apply trim_collapse_tidy.
Qed.

End NormalizerMore.

Import Spec2 NormalizerMore.

(** X1.  What [cleanHtmlAndWordPress] returns is tidy: it neither begins
    nor ends with white space, and its white space is single spaces. *)
Theorem cleanHtmlAndWordPress_tidy (s : string) :
  tidy (cleanHtmlAndWordPress s) = true.
Proof. apply cleaned_tidy. Qed.

(** X2.  Normalising never makes a text longer. *)
Theorem cleanHtmlAndWordPress_not_longer (s : string) :
  (String.length (cleanHtmlAndWordPress s) ≤ String.length s)%nat.
Proof.
  unfold cleanHtmlAndWordPress. destruct (negb (truthyStr s)); [done|].
  etrans; [apply trim_collapse_length|].
  etrans; [apply decodeEntities_length|].
  etrans; [apply removeTags_go_length|].
  pose proof (removeWpComments_go_length 0 s). unfold removeWpComments. lia.
Qed.

(** X3.  Clean text is returned unchanged: a tidy text with no tag and
    none of the six entities is a fixed point of the normaliser. *)
Theorem cleanHtmlAndWordPress_clean_text (s : string) :
  markupFree s = true → tidy s = true → cleanHtmlAndWordPress s = s.
Proof.
  intros Hmarkup [Hcollapse Htrim]%tidy_fixed.
  by apply cleaned_fixed_when_markupFree.
Qed.

Lemma cleanHtmlAndWordPress_clean_text_witness :
  markupFree "St. Mary's Kitchen & Pantry" = true ∧
  tidy "St. Mary's Kitchen & Pantry" = true ∧
  cleanHtmlAndWordPress "St. Mary's Kitchen & Pantry" = "St. Mary's Kitchen & Pantry".
Proof.
  split; [by vm_compute|]. split; [by vm_compute|].
  apply (cleanHtmlAndWordPress_clean_text "St. Mary's Kitchen & Pantry"); by vm_compute.
Defined.

(** X4.  A text without an ampersand normalises to text without any tag
    or entity, so normalising it a second time changes nothing. *)
Theorem cleanHtmlAndWordPress_without_ampersand (s : string) :
  occurs "&"%char s = false →
  markupFree (cleanHtmlAndWordPress s) = true ∧
  cleanHtmlAndWordPress (cleanHtmlAndWordPress s) = cleanHtmlAndWordPress s.
Proof.
  intros Hamp. pose proof (no_ampersand_markupFree s Hamp) as Hfree.
  split; [done|].
  apply cleaned_fixed_when_markupFree; [done|..];
    by apply tidy_fixed, cleaned_tidy.
Qed.

Lemma cleanHtmlAndWordPress_without_ampersand_witness :
  occurs "&"%char "<p>Open  <b>Mon</b> 9 < 5 </p>" = false ∧
  markupFree (cleanHtmlAndWordPress "<p>Open  <b>Mon</b> 9 < 5 </p>") = true ∧
  cleanHtmlAndWordPress (cleanHtmlAndWordPress "<p>Open  <b>Mon</b> 9 < 5 </p>")
  = cleanHtmlAndWordPress "<p>Open  <b>Mon</b> 9 < 5 </p>".
Proof.
  split; [by vm_compute|].
  apply (cleanHtmlAndWordPress_without_ampersand "<p>Open  <b>Mon</b> 9 < 5 </p>").
  by vm_compute.
Defined.

(** ** The pantry table, continued *)

Module StorageMore.
Import Js Schema Storage StorageOps StorageFacts Spec2.

Lemma filter_filter_and {A} (f g : A → bool) (l : list A) :
  List.filter g (List.filter f l) = List.filter (fun x => f x && g x) l.
Proof.
  induction l as [|x l IH]; [done|]. cbn [List.filter].
  destruct (f x); cbn [List.filter andb]; by rewrite IH.
Qed.


Lemma filter_none {A} (f : A → bool) (l : list A) :
  (∀ x, In x l → f x = false) → List.filter f l = [].
Proof.
  induction l as [|x l IH]; [done|]. intros H. cbn [List.filter].
  rewrite (H x) by by left. apply IH. intros y Hy. apply H. by right.
Qed.



Lemma getPantries_deleteAll rows : getPantries (List.map softDelete rows) = [].
Proof.
  apply filter_none. by intros p (q & <- & _)%in_map_iff.
Qed.

Section Search.
Variable ilike : string → string → bool.
Variable float8 : string → float.
Variables radians cos sin acos : float → float.

Local Abbreviation search := (searchPantries ilike float8 radians cos sin acos).
Local Abbreviation conditions := (searchConditions ilike float8 radians cos sin acos).

(** The conditions a search adds to the one of [getPantries]. *)
Local Abbreviation furtherConditions query latitude longitude radius :=
  (fun p : Pantry.t =>
     selected (sqlAll (List.map (fun c => c p)
                         (List.tail (conditions query latitude longitude radius))))).

(** A search is a selection from the listing. *)
Lemma searchPantries_from_listing query latitude longitude radius rows :
  search query latitude longitude radius rows =
  List.filter (furtherConditions query latitude longitude radius) (getPantries rows).
Proof.
  unfold searchPantries, getPantries. rewrite filter_filter_and.
  apply filter_ext. intros p. unfold searchConditions.
  cbn [app List.map List.tail sqlAll foldr]. by rewrite selected_sqlAnd.
Qed.


Lemma searchPantries_blank query latitude longitude radius rows :
  truthyStr (trim query) = false →
  truthyNumber latitude && truthyNumber longitude && truthyNumber radius = false →
  search query latitude longitude radius rows = getPantries rows.
Proof.
  intros Hquery Hcentre. unfold searchPantries.
  rewrite searchConditions_falsy by done. unfold searchConditions.
  rewrite Hquery, andb_false_r. cbn [app List.map sqlAll foldr].
  unfold getPantries. apply filter_ext. intros p.
  by destruct (isActiveCond p) as [[]|].
Qed.

End Search.

(** *** Lookup by id *)

Lemma getPantry_app_fresh rows row :
  Pantry.id row ∉ List.map Pantry.id rows →
  getPantry (rows ++ [row]) (Pantry.id row) = Some row.
Proof.
  intros Hfresh. unfold getPantry. rewrite List.filter_app.
  rewrite (filter_none _ rows).
  - cbn [List.filter app]. by rewrite bool_decide_eq_true_2.
  - intros p Hp. apply bool_decide_eq_false_2. intros Heq. apply Hfresh.
    rewrite <- Heq. apply list_elem_of_In, in_map, Hp.
Qed.

Lemma getPantry_app_other rows row id :
  Pantry.id row ≠ id → getPantry (rows ++ [row]) id = getPantry rows id.
Proof.
  intros Hid. unfold getPantry. rewrite List.filter_app. cbn [List.filter].
  rewrite bool_decide_eq_false_2 by done. by rewrite app_nil_r.
Qed.

Lemma getPantry_map (f : Pantry.t → Pantry.t) rows id :
  (∀ p, Pantry.id (f p) = Pantry.id p) →
  getPantry (List.map f rows) id = f <$> getPantry rows id.
Proof.
  intros Hf. unfold getPantry. induction rows as [|p rows IH]; [done|].
  cbn [List.map List.filter]. rewrite Hf.
  destruct (bool_decide (Pantry.id p = id)); [done|]. exact IH.
Qed.

Lemma getPantry_None rows id :
  getPantry rows id = None ↔ id ∉ List.map Pantry.id rows.
Proof.
  unfold getPantry. induction rows as [|p rows IH]; cbn [List.map List.filter].
  - split; [|done]. intros _ H. by apply elem_of_nil in H.
  - rewrite not_elem_of_cons. destruct (decide (Pantry.id p = id)) as [Hid|Hid].
    + rewrite bool_decide_eq_true_2 by done. split; [done|]. by intros [? _].
    + rewrite bool_decide_eq_false_2 by done. rewrite IH. split; [done|]. by intros [_ ?].
Qed.

Lemma updatePantry_rows rows id patch :
  fst (updatePantry rows id patch) =
  List.map (fun p => if decide (Pantry.id p = id) then applyPantryPatch patch p else p) rows.
Proof. done. Qed.

Lemma updatePantry_returned rows id patch :
  snd (updatePantry rows id patch) = applyPantryPatch patch <$> getPantry rows id.
Proof.
  unfold updatePantry, getPantry. cbn [snd].
  by destruct (List.filter (fun p => bool_decide (Pantry.id p = id)) rows).
Qed.

Lemma updatePantry_lookup rows id patch id' :
  getPantry (fst (updatePantry rows id patch)) id' =
  if decide (id' = id) then snd (updatePantry rows id patch) else getPantry rows id'.
Proof.
  rewrite updatePantry_returned. unfold updatePantry, getPantry. cbn [fst].
  induction rows as [|p rows IH]; [by destruct (decide (id' = id))|].
  cbn [List.map List.filter].
  destruct (decide (Pantry.id p = id)) as [Hp|Hp].
  - change (Pantry.id (applyPantryPatch patch p)) with (Pantry.id p).
    destruct (decide (id' = id)) as [->|Hid'].
    + by rewrite !bool_decide_eq_true_2.
    + rewrite bool_decide_eq_false_2 by congruence.
      destruct (decide (id' = id)); [done|]. exact IH.
  - destruct (decide (id' = id)) as [->|Hid'].
    + rewrite !bool_decide_eq_false_2 by done. exact IH.
    + destruct (bool_decide (Pantry.id p = id')); [done|]. exact IH.
Qed.

Lemma updatePantry_absent rows id patch :
  id ∉ List.map Pantry.id rows → updatePantry rows id patch = (rows, None).
Proof.
  intros Hid. unfold updatePantry. f_equal.
  - rewrite <- (List.map_id rows) at 2. apply List.map_ext_in. intros p Hp.
    destruct (decide (Pantry.id p = id)) as [<-|]; [|done].
    destruct Hid. apply list_elem_of_In, in_map, Hp.
  - apply getPantry_None in Hid. unfold getPantry in Hid.
    by destruct (List.filter (fun p => bool_decide (Pantry.id p = id)) rows).
Qed.

End StorageMore.

Import StorageOps StorageMore.


(** X6.  [deleteAllPantries] leaves nothing to list or to find, keeps
    every row in the table, and reports the number of all rows, the ones
    that were inactive already included. *)
Theorem deleteAllPantries_empties_listing ilike float8 radians cos sin acos
    (rows : list Pantry.t) (query : string) (latitude longitude radius : option float) :
  let (after, count) := deleteAllPantries rows in
  getPantries after = [] ∧
  searchPantries ilike float8 radians cos sin acos query latitude longitude radius after = [] ∧
  List.map Pantry.id after = List.map Pantry.id rows ∧
  count = List.length rows ∧
  (List.length (getPantries rows) ≤ count)%nat.
Proof.
  cbn [deleteAllPantries]. split; [apply getPantries_deleteAll|].
  split; [by rewrite searchPantries_from_listing, getPantries_deleteAll|].
  split; [by rewrite List.map_map|]. split; [done|].
  apply sublist_length, filter_sublist.
Qed.


(** X8.  A search with a blank query (empty or white space only) and
    without a usable centre and radius returns the whole listing. *)
Theorem searchPantries_blank_is_listing ilike float8 radians cos sin acos
    (query : string) (latitude longitude radius : option float) (rows : list Pantry.t) :
  truthyStr (trim query) = false →
  truthyNumber latitude && truthyNumber longitude && truthyNumber radius = false →
  searchPantries ilike float8 radians cos sin acos query latitude longitude radius rows =
  getPantries rows.
Proof. apply searchPantries_blank. Qed.

Lemma searchPantries_blank_is_listing_witness :
  truthyStr (trim "   ") = false ∧
  truthyNumber (Some 40.62%float) && truthyNumber None && truthyNumber (Some 5%float) = false ∧
  ∀ ilike float8 radians cos sin acos,
    searchPantries ilike float8 radians cos sin acos "   " (Some 40.62%float) None
      (Some 5%float) [helpingHands; graceKitchen]
    = getPantries [helpingHands; graceKitchen].
Proof.
  split; [reflexivity|]. split; [reflexivity|]. intros.
  apply (searchPantries_blank_is_listing ilike float8 radians cos sin acos "   "
           (Some 40.62%float) None (Some 5%float) [helpingHands; graceKitchen]);
    reflexivity.
Defined.

(** X9.  A created pantry can be looked up: when the generated id is new
    to the table, [getPantry] returns the created row, lookups of other
    ids are unaffected, and the row joins the end of the listing when
    [isActive] was absent or true, and stays unlisted when it was false or
    null. *)
Theorem createPantry_then_getPantry (newId : string) (d : InsertPantry.t) (st : Store) :
  newId ∉ List.map Pantry.id (pantries st) →
  let (st', created) := createPantry newId d st in
  getPantry (pantries st') newId = Some created ∧
  (∀ id, id ≠ newId → getPantry (pantries st') id = getPantry (pantries st) id) ∧
  getPantries (pantries st') =
    (getPantries (pantries st) ++
     match InsertPantry.isActive d with
     | None | Some (Some true) => [created]
     | Some (Some false) | Some None => []
     end)%list.
Proof.
  intros Hfresh. cbn [createPantry pantries]. split; [|split].
  - by apply (getPantry_app_fresh (pantries st) (insertedRow newId d)).
  - intros id Hid. by apply getPantry_app_other.
  - unfold getPantries. rewrite List.filter_app. f_equal. cbn [List.filter].
    unfold isActiveCond, insertedRow. cbn [Pantry.isActive].
    by destruct (InsertPantry.isActive d) as [[[]|]|].
Qed.

(** ** Users *)

Module UserFacts.
Import Js Schema Storage StorageOps UserRoutes Client Spec2.

Lemma createdBefore_irrefl a : createdBefore a a = false.
Proof. destruct a; cbn; [|done]. apply bool_decide_eq_false_2. lia. Qed.

Lemma createdBefore_asym a b : createdBefore a b = true → createdBefore b a = false.
Proof.
  destruct a, b; cbn; try done. intros H%bool_decide_eq_true.
  apply bool_decide_eq_false_2. lia.
Qed.

Lemma createdBefore_neg_trans a b c :
  createdBefore a b = false → createdBefore b c = false → createdBefore a c = false.
Proof.
  destruct a, b, c; cbn; try done.
  intros H1%bool_decide_eq_false H2%bool_decide_eq_false.
  apply bool_decide_eq_false_2. lia.
Qed.

Lemma firstCreated_In users u : firstCreated users = Some u → In u users.
Proof.
  revert u. induction users as [|x users IH]; intros u; [done|].
  cbn [firstCreated]. destruct (firstCreated users) as [v|].
  - destruct (createdBefore (User.createdAt v) (User.createdAt x)).
    + intros [= <-]. right. by apply IH.
    + intros [= <-]. by left.
  - intros [= <-]. by left.
Qed.

Lemma firstCreated_None users : firstCreated users = None → users = [].
Proof.
  destruct users as [|x users]; [done|]. cbn [firstCreated].
  destruct (firstCreated users) as [v|]; [|done].
  by destruct (createdBefore (User.createdAt v) (User.createdAt x)).
Qed.

(** Nobody was created before the user [firstCreated] picks. *)
Lemma firstCreated_least users u v :
  firstCreated users = Some u → In v users →
  createdBefore (User.createdAt v) (User.createdAt u) = false.
Proof.
  revert u. induction users as [|x users IH]; intros u; [done|].
  cbn [firstCreated]. destruct (firstCreated users) as [w|] eqn:Hw.
  - destruct (createdBefore (User.createdAt w) (User.createdAt x)) eqn:Hwx.
    + intros [= <-] [<-|Hv]; [by apply createdBefore_asym|by apply IH].
    + intros [= <-] [<-|Hv]; [apply createdBefore_irrefl|].
      eapply createdBefore_neg_trans; [by apply IH|done].
  - apply firstCreated_None in Hw as ->.
    intros [= <-] [<-|[]]. apply createdBefore_irrefl.
Qed.

Lemma ensureFirstSuperAdmin_has_one now users :
  users ≠ [] → Exists (fun u => isSuperAdmin u = true) (ensureFirstSuperAdmin now users).
Proof.
  intros Hne. unfold ensureFirstSuperAdmin.
  destruct (List.find isSuperAdmin users) as [a|] eqn:Hfind.
  - apply find_some in Hfind as [Hin Ha]. apply Exists_exists. exists a.
    split; [by apply list_elem_of_In|done].
  - destruct (firstCreated users) as [f|] eqn:Hf.
    + apply Exists_exists. exists (promote now f). split; [|done].
      apply list_elem_of_In, in_map_iff. exists f. split.
      * by rewrite decide_True.
      * by apply firstCreated_In.
    + by apply firstCreated_None in Hf.
Qed.

Lemma find_Exists {A} (f : A → bool) (l : list A) :
  Exists (fun x => f x = true) l → is_Some (List.find f l).
Proof.
  induction 1 as [x l Hx|x l _ IH]; cbn [List.find].
  - by rewrite Hx.
  - by destruct (f x).
Qed.

Lemma ensureFirstSuperAdmin_settled now users :
  is_Some (List.find isSuperAdmin users) → ensureFirstSuperAdmin now users = users.
Proof. unfold ensureFirstSuperAdmin. by intros [a ->]. Qed.

Lemma find_None_role users :
  List.find isSuperAdmin users = None ↔
  ∀ u, In u users → User.role u ≠ Some "super_admin".
Proof.
  split.
  - intros Hfind u Hu Hrole.
    pose proof (find_none _ _ Hfind u Hu) as Hnot.
    unfold isSuperAdmin in Hnot. by rewrite bool_decide_eq_true_2 in Hnot.
  - intros Hall. destruct (List.find isSuperAdmin users) as [a|] eqn:Hfind; [|done].
    apply find_some in Hfind as [Hin Ha%bool_decide_eq_true]. by destruct (Hall a Hin).
Qed.

(** *** Updates of one user *)

Lemma map_if_Forall {A} (P : A → Prop) (c : A → bool) (f : A → A) (l : list A) :
  (∀ x, P x → P (f x)) → Forall P l → Forall P (List.map (fun x => if c x then f x else x) l).
Proof.
  intros Hf. induction 1 as [|x l Hx _ IH]; cbn [List.map]; constructor; [|done].
  destruct (c x); auto.
Qed.

Lemma map_decide_Forall {A} (P : A → Prop) (Q : A → Prop) `{∀ x, Decision (Q x)}
    (f : A → A) (l : list A) :
  (∀ x, P x → P (f x)) → Forall P l →
  Forall P (List.map (fun x => if decide (Q x) then f x else x) l).
Proof.
  intros Hf. induction 1 as [|x l Hx _ IH]; cbn [List.map]; constructor; [|done].
  destruct (decide (Q x)); auto.
Qed.

Lemma getUser_map (f : User.t → User.t) users id id' :
  (∀ u, User.id (f u) = User.id u) →
  getUser (List.map (fun u => if decide (User.id u = id) then f u else u) users) id' =
  if decide (id' = id) then f <$> getUser users id' else getUser users id'.
Proof.
  intros Hf. unfold getUser. destruct (decide (id' = id)) as [->|Hid'].
  - induction users as [|u users IH]; [done|]. cbn [List.map List.filter].
    destruct (decide (User.id u = id)) as [Hu|Hu].
    + rewrite Hf. by rewrite !bool_decide_eq_true_2.
    + by rewrite !bool_decide_eq_false_2.
  - induction users as [|u users IH]; [done|]. cbn [List.map List.filter].
    destruct (decide (User.id u = id)) as [Hu|Hu].
    + rewrite Hf. by rewrite !bool_decide_eq_false_2 by congruence.
    + destruct (bool_decide (User.id u = id')); [done|]. exact IH.
Qed.

Lemma updateUserRole_returned now users id role approvedBy :
  snd (updateUserRole now users id role approvedBy) =
  withRole now role approvedBy <$> getUser users id.
Proof.
  unfold updateUserRole, getUser. cbn [snd].
  by destruct (List.filter (fun u => bool_decide (User.id u = id)) users).
Qed.

End UserFacts.

Import UserRoutes Client UserFacts Samples2.

(** X10.  [updatePantry] and [getPantry] agree: the row returned by an
    update is the patched row the table then holds under that id, no
    other id is affected, and an update of an id the table lacks returns
    [undefined] and changes nothing. *)
Theorem updatePantry_then_getPantry (rows : list Pantry.t) (id : string)
    (patch : PantryPatch.t) :
  let (rows', returned) := updatePantry rows id patch in
  returned = applyPantryPatch patch <$> getPantry rows id ∧
  getPantry rows' id = returned ∧
  (∀ id', id' ≠ id → getPantry rows' id' = getPantry rows id') ∧
  (getPantry rows id = None → rows' = rows).
Proof.
  pose proof (updatePantry_returned rows id patch) as Hret.
  pose proof (updatePantry_lookup rows id patch) as Hlook.
  pose proof (updatePantry_absent rows id patch) as Habsent.
  destruct (updatePantry rows id patch) as [rows' returned].
  cbn [fst snd] in *. split; [done|]. split; [|split].
  - by rewrite Hlook, decide_True.
  - intros id' Hid'. by rewrite Hlook, decide_False.
  - intros Hnone%getPantry_None. by injection (Habsent Hnone).
Qed.

(** X11.  An update does not look at the active flag: updating a
    soft-deleted pantry with [isActive] true puts it back in the listing. *)
Theorem updatePantry_reactivates (rows : list Pantry.t) (id : string)
    (patch : PantryPatch.t) (p : Pantry.t) :
  In p rows → Pantry.id p = id → PantryPatch.isActive patch = Some (Some true) →
  In (applyPantryPatch patch p)
     (getPantries (fst (updatePantry (deletePantry rows id) id patch))).
Proof.
  intros Hin Hid Hactive. unfold getPantries. apply filter_In. split.
  - cbn [updatePantry fst]. unfold deletePantry. rewrite List.map_map.
    apply in_map_iff. exists p. split; [|done].
    cbn beta. rewrite (decide_True _ _ Hid).
    change (Pantry.id (softDelete p)) with (Pantry.id p). rewrite (decide_True _ _ Hid).
    unfold applyPantryPatch. by rewrite Hactive.
  - unfold isActiveCond, applyPantryPatch. cbn [Pantry.isActive]. by rewrite Hactive.
Qed.

Lemma updatePantry_reactivates_witness :
  In (applyPantryPatch
        (PantryPatch.make None None None None None None None None None None None None None
           None (Some (Some true))) helpingHands)
     (getPantries (fst (updatePantry (deletePantry [helpingHands; graceKitchen] "p1") "p1"
        (PantryPatch.make None None None None None None None None None None None None None
           None (Some (Some true)))))).
Proof.
  apply (updatePantry_reactivates [helpingHands; graceKitchen] "p1"
           (PantryPatch.make None None None None None None None None None None None None None
              None (Some (Some true))) helpingHands).
  - by left.
  - reflexivity.
  - reflexivity.
Defined.

Lemma createPantry_then_getPantry_witness :
  ("p9" ∉ List.map Pantry.id [helpingHands; graceKitchen]) ∧
  (let (st', created) :=
     createPantry "p9" helpingHandsData (mkStore [helpingHands; graceKitchen] []) in
   getPantry (pantries st') "p9" = Some created ∧
   (∀ id, id ≠ "p9" → getPantry (pantries st') id = getPantry [helpingHands; graceKitchen] id) ∧
   getPantries (pantries st') = (getPantries [helpingHands; graceKitchen] ++ [created])%list).
Proof.
  assert ("p9" ∉ List.map Pantry.id [helpingHands; graceKitchen]) as Hfresh.
  { cbn. rewrite !not_elem_of_cons. repeat split; try done. apply not_elem_of_nil. }
  split; [exact Hfresh|].
  apply (createPantry_then_getPantry "p9" helpingHandsData
           (mkStore [helpingHands; graceKitchen] []) Hfresh).
Defined.

(** X12.  Once a user exists, [ensureFirstSuperAdmin] leaves a super admin
    behind, and running it again (at any later time) changes nothing. *)
Theorem ensureFirstSuperAdmin_establishes (now later : Z) (users : list User.t) :
  users ≠ [] →
  Exists (fun u => User.role u = Some "super_admin") (ensureFirstSuperAdmin now users) ∧
  ensureFirstSuperAdmin later (ensureFirstSuperAdmin now users) =
  ensureFirstSuperAdmin now users.
Proof.
  intros Hne. pose proof (ensureFirstSuperAdmin_has_one now users Hne) as Hex. split.
  - eapply Exists_impl; [exact Hex|]. intros u Hu. by apply bool_decide_eq_true in Hu.
  - by apply ensureFirstSuperAdmin_settled, find_Exists.
Qed.

Lemma ensureFirstSuperAdmin_establishes_witness :
  [ben; ada] ≠ [] ∧
  Exists (fun u => User.role u = Some "super_admin") (ensureFirstSuperAdmin 5000 [ben; ada]) ∧
  ensureFirstSuperAdmin 9000 (ensureFirstSuperAdmin 5000 [ben; ada]) =
  ensureFirstSuperAdmin 5000 [ben; ada].
Proof.
  split; [done|].
  apply (ensureFirstSuperAdmin_establishes 5000 9000 [ben; ada]). done.
Defined.

(** X13.  Without a super admin, [ensureFirstSuperAdmin] promotes a user
    before whom nobody was created: that user becomes an approved super
    admin approved by themselves, and users with other ids are left as
    they were.  With a super admin it changes nothing. *)
Theorem ensureFirstSuperAdmin_promotes_oldest (now : Z) (users : list User.t) :
  users ≠ [] →
  if bool_decide (Exists (fun u => User.role u = Some "super_admin") users)
  then ensureFirstSuperAdmin now users = users
  else
    ∃ first, In first users ∧
      (∀ v, In v users → createdBefore (User.createdAt v) (User.createdAt first) = false) ∧
      ensureFirstSuperAdmin now users =
        List.map (fun u => if decide (User.id u = User.id first) then promote now u else u)
          users ∧
      User.role (promote now first) = Some "super_admin" ∧
      User.status (promote now first) = Some "approved" ∧
      User.approvedBy (promote now first) = Some (User.id first).
Proof.
  intros Hne. case_bool_decide as Hex.
  - apply ensureFirstSuperAdmin_settled, find_Exists.
    eapply Exists_impl; [exact Hex|]. intros u Hu. by apply bool_decide_eq_true_2.
  - assert (List.find isSuperAdmin users = None) as Hfind.
    { apply find_None_role. intros u Hu Hrole. apply Hex, Exists_exists.
      exists u. split; [by apply list_elem_of_In|done]. }
    unfold ensureFirstSuperAdmin. rewrite Hfind.
    destruct (firstCreated users) as [f|] eqn:Hf; [|by apply firstCreated_None in Hf].
    exists f. split; [by apply firstCreated_In|].
    split; [intros v Hv; by eapply firstCreated_least|done].
Qed.

Lemma ensureFirstSuperAdmin_promotes_oldest_witness :
  [ben; ada] ≠ [] ∧
  ∃ first, In first [ben; ada] ∧
    (∀ v, In v [ben; ada] → createdBefore (User.createdAt v) (User.createdAt first) = false) ∧
    ensureFirstSuperAdmin 5000 [ben; ada] =
      List.map (fun u => if decide (User.id u = User.id first) then promote 5000 u else u)
        [ben; ada] ∧
    User.role (promote 5000 first) = Some "super_admin" ∧
    User.status (promote 5000 first) = Some "approved" ∧
    User.approvedBy (promote 5000 first) = Some (User.id first).
Proof.
  split; [done|].
  apply (ensureFirstSuperAdmin_promotes_oldest 5000 [ben; ada]). done.
Defined.

(** X14.  Asking for admin access grants the role at once: the signed-in
    user's row gets the role [admin] while status, approver and approval
    time stay as they were, so the [/admin] page opens exactly when the
    user was approved already. *)
Theorem requestAdmin_grants_role (now : Z) (users : list User.t) (userId : string)
    (u : User.t) :
  getUser users userId = Some u →
  let (users', response) := requestAdmin now users userId in
  ∃ u', response = UserOk (Some u') ∧
    getUser users' userId = Some u' ∧
    User.role u' = Some "admin" ∧
    User.status u' = User.status u ∧
    User.approvedBy u' = User.approvedBy u ∧
    User.approvedAt u' = User.approvedAt u ∧
    adminRoute true (Some u') =
      (if decide (User.status u = Some "approved") then Admin else AccessDenied).
Proof.
  intros Hu. unfold requestAdmin.
  pose proof (updateUserRole_returned now users userId "admin" None) as Hret.
  destruct (updateUserRole now users userId "admin" None) as [users' user] eqn:Hupd.
  cbn [snd] in Hret. rewrite Hu in Hret. cbn in Hret. subst user.
  exists (withRole now "admin" None u). split; [done|]. split.
  - injection Hupd as <- _. rewrite (getUser_map (withRole now "admin" None)) by done.
    rewrite decide_True by done. by rewrite Hu.
  - repeat split. unfold adminRoute. cbn [negb mbind option_bind withRole User.status User.role].
    destruct (decide (User.status u = Some "approved")) as [Hs|Hs].
    + by rewrite (bool_decide_eq_true_2 _ Hs).
    + by rewrite (bool_decide_eq_false_2 _ Hs).
Qed.

Lemma requestAdmin_grants_role_witness :
  getUser [ada; ben] "u2" = Some ben ∧
  (let (users', response) := requestAdmin 5000 [ada; ben] "u2" in
   ∃ u', response = UserOk (Some u') ∧
     getUser users' "u2" = Some u' ∧
     User.role u' = Some "admin" ∧
     User.status u' = User.status ben ∧
     User.approvedBy u' = User.approvedBy ben ∧
     User.approvedAt u' = User.approvedAt ben ∧
     adminRoute true (Some u') =
       (if decide (User.status ben = Some "approved") then Admin else AccessDenied)).
Proof.
  split; [reflexivity|].
  apply (requestAdmin_grants_role 5000 [ada; ben] "u2" ben). reflexivity.
Defined.

(** X15.  The status route records an approver only with an approval:
    setting a user to [pending] or [rejected] changes neither the role nor
    the approver and approval time held for any user, so an earlier
    approval stays on record. *)
Theorem putUserStatus_keeps_approval (now : Z) (users : list User.t)
    (id status adminId : string) :
  status ≠ "approved" →
  List.map (fun u => (User.id u, User.role u, User.approvedBy u, User.approvedAt u))
    (fst (putUserStatus now users id status adminId)) =
  List.map (fun u => (User.id u, User.role u, User.approvedBy u, User.approvedAt u)) users.
Proof.
  intros Hstatus. unfold putUserStatus.
  destruct (negb (bool_decide (status ∈ ["pending"; "approved"; "rejected"]))); [done|].
  cbn [updateUserStatus fst]. rewrite List.map_map. apply List.map_ext. intros u.
  destruct (decide (User.id u = id)); [|done].
  unfold withStatus. rewrite (bool_decide_eq_false_2 _ Hstatus), andb_false_r. done.
Qed.

Lemma putUserStatus_keeps_approval_witness :
  "rejected" ≠ "approved" ∧
  List.map (fun u => (User.id u, User.role u, User.approvedBy u, User.approvedAt u))
    (fst (putUserStatus 5000 [ada; ben] "u1" "rejected" "u0")) =
  List.map (fun u => (User.id u, User.role u, User.approvedBy u, User.approvedAt u)) [ada; ben].
Proof.
  split; [done|].
  apply (putUserStatus_keeps_approval 5000 [ada; ben] "u1" "rejected" "u0"). done.
Defined.

(** X16.  The stored roles and statuses stay within the accepted values:
    if every user has a role among user, admin and super_admin and a
    status among pending, approved and rejected, this still holds after
    the role route, the status route, a request for admin access and
    [ensureFirstSuperAdmin], whatever the request carried. *)
Theorem user_routes_keep_roles_valid (now : Z) (users : list User.t)
    (id value adminId : string) :
  Forall (fun u => validRole u ∧ validStatus u) users →
  Forall (fun u => validRole u ∧ validStatus u) (fst (putUserRole now users id value adminId)) ∧
  Forall (fun u => validRole u ∧ validStatus u) (fst (putUserStatus now users id value adminId)) ∧
  Forall (fun u => validRole u ∧ validStatus u) (fst (requestAdmin now users id)) ∧
  Forall (fun u => validRole u ∧ validStatus u) (ensureFirstSuperAdmin now users).
Proof.
  intros Hvalid. unfold validRole, validStatus in *. repeat split.
  - unfold putUserRole. case_bool_decide as Hrole; [|done].
    cbn [negb updateUserRole fst]. apply map_decide_Forall; [|done].
    intros u [_ Hs]. split; [|done]. cbn [withRole User.role].
    by apply (list_elem_of_fmap_2 Some) in Hrole.
  - unfold putUserStatus. case_bool_decide as Hstatus; [|done].
    cbn [negb updateUserStatus fst]. apply map_decide_Forall; [|done].
    intros u [Hr _]. split; [done|]. cbn [withStatus User.status].
    by apply (list_elem_of_fmap_2 Some) in Hstatus.
  - cbn [requestAdmin updateUserRole fst]. apply map_decide_Forall; [|done].
    intros u [_ Hs]. split; [|done]. cbn. apply elem_of_cons. right. by left.
  - unfold ensureFirstSuperAdmin. destruct (List.find isSuperAdmin users); [done|].
    destruct (firstCreated users) as [f|]; [|done].
    apply map_decide_Forall; [|done]. intros u _. cbn. split.
    + do 2 (apply elem_of_cons; right). by left.
    + apply elem_of_cons. right. by left.
Qed.

Lemma user_routes_keep_roles_valid_witness :
  Forall (fun u => validRole u ∧ validStatus u) [ada; ben] ∧
  Forall (fun u => validRole u ∧ validStatus u)
    (fst (putUserRole 5000 [ada; ben] "u2" "owner" "u1")) ∧
  Forall (fun u => validRole u ∧ validStatus u)
    (fst (putUserStatus 5000 [ada; ben] "u2" "owner" "u1")) ∧
  Forall (fun u => validRole u ∧ validStatus u) (fst (requestAdmin 5000 [ada; ben] "u2")) ∧
  Forall (fun u => validRole u ∧ validStatus u) (ensureFirstSuperAdmin 5000 [ada; ben]).
Proof.
  assert (Forall (fun u => validRole u ∧ validStatus u) [ada; ben]) as Hvalid.
  { repeat constructor; unfold validRole, validStatus; cbn;
      repeat (first [by left | apply elem_of_cons; right]). }
  split; [exact Hvalid|].
  apply (user_routes_keep_roles_valid 5000 [ada; ben] "u2" "owner" "u1"). exact Hvalid.
Defined.

(** ** Announcements *)

Module AnnouncementFacts.
Import Js Schema Storage StorageOps StorageFacts.

Global Instance timeLe_total : Total timeLe.
Proof. intros [x|] [y|]; cbn; try tauto. lia. Qed.

Global Instance timeLe_trans : Transitive timeLe.
Proof. intros [x|] [y|] [z|]; cbn; try tauto. lia. Qed.

Global Instance announcementOrder_total : Total announcementOrder.
Proof.
  intros a b. unfold announcementOrder.
  destruct (lt_eq_lt_dec (priorityRank (Announcement.priority a))
              (priorityRank (Announcement.priority b))) as [[Hlt|Heq]|Hgt].
  - by left; left.
  - destruct (total timeLe (Announcement.createdAt a) (Announcement.createdAt b)).
    + by left; right.
    + by right; right.
  - by right; left.
Qed.

Global Instance announcementOrder_trans : Transitive announcementOrder.
Proof.
  intros a b c. unfold announcementOrder.
  intros [Hab|[Hab Htab]] [Hbc|[Hbc Htbc]]; [left; lia..|].
  right. split; [lia|]. by etrans.
Qed.

Lemma selected_decide (P : Prop) `{Decision P} :
  selected (Some (bool_decide P)) = true ↔ P.
Proof. case_bool_decide; cbn; by split. Qed.

Lemma shownAt_spec now a :
  selected (shownAt now a) = true ↔
  Announcement.isActive a = Some true ∧
  (∃ start, Announcement.startDate a = Some start ∧ (start ≤ now)%Z) ∧
  (∀ finish, Announcement.endDate a = Some finish → (now ≤ finish)%Z).
Proof.
  unfold shownAt. rewrite selected_sqlAll. cbn [forallb]. rewrite !andb_true_iff.
  assert (selected (Announcement.isActive a) = true ↔ Announcement.isActive a = Some true)
    as ->.
  { by destruct (Announcement.isActive a) as [[]|]. }
  assert (selected ((fun start => bool_decide (start ≤ now)%Z) <$> Announcement.startDate a)
            = true ↔
          ∃ start, Announcement.startDate a = Some start ∧ (start ≤ now)%Z) as ->.
  { destruct (Announcement.startDate a) as [start|]; cbn [fmap option_fmap option_map].
    - rewrite selected_decide. split.
      + intros Hle. by exists start.
      + by intros (? & [= <-] & Hle).
    - split; [done|]. by intros (? & ? & _). }
  assert (selected (Some (match Announcement.endDate a with
                          | None => true
                          | Some finish => bool_decide (now ≤ finish)%Z
                          end)) = true ↔
          ∀ finish, Announcement.endDate a = Some finish → (now ≤ finish)%Z) as ->.
  { destruct (Announcement.endDate a) as [finish|].
    - rewrite selected_decide. split.
      + by intros Hle ? [= <-].
      + intros Hle. by apply Hle.
    - split; [|done]. by intros _ ? ?. }
  tauto.
Qed.

End AnnouncementFacts.

Import AnnouncementFacts.

(** X17.  [getActiveAnnouncements] returns exactly the announcements that
    are active, have started and have not ended, each once, with every
    earlier one ranking no lower than every later one: high before medium
    before low before the rest, and the older first within a rank. *)
Theorem getActiveAnnouncements_ordered (now : Z) (rows : list Announcement.t) :
  getActiveAnnouncements now rows ≡ₚ
    List.filter (fun a => selected (shownAt now a)) rows ∧
  StronglySorted announcementOrder (getActiveAnnouncements now rows) ∧
  ∀ a, a ∈ getActiveAnnouncements now rows ↔
       a ∈ rows ∧
       Announcement.isActive a = Some true ∧
       (∃ start, Announcement.startDate a = Some start ∧ (start ≤ now)%Z) ∧
       (∀ finish, Announcement.endDate a = Some finish → (now ≤ finish)%Z).
Proof.
  unfold getActiveAnnouncements. split; [apply merge_sort_Permutation|].
  split; [apply StronglySorted_merge_sort; apply _|].
  intros a. rewrite merge_sort_Permutation, !list_elem_of_In, filter_In, shownAt_spec.
  done.
Qed.

(** ** The CSV upload, continued *)

Module UploadMore.
Import Js Normalizer Schema Storage Effects SharePointService Routes Spec Spec2.
Import NormalizerMore.

Section Loop.
Variable env : Env.

Lemma importCandidate_rows index d t w :
  ∃ w' t', importCandidate env index d t w = (w', Returned t') ∧
    dataSyncSettings (store w') = dataSyncSettings (store w) ∧
    ((∃ row, pantries (store w') = (pantries (store w) ++ [row])%list ∧ createdFrom d row ∧
             t' = mkTally (S (successCount t)) (errorCount t) (errorMessages t)) ∨
     (pantries (store w') = pantries (store w) ∧
      ∃ message,
        t' = mkTally (successCount t) (S (errorCount t)) (errorMessages t ++ [message]))).
Proof.
  unfold importCandidate, tryCatch.
  destruct (negb (truthy (PantryData.name d)) ||
            negb (truthy (PantryData.address d)) && negb (truthy (PantryData.city d))).
  { cbn. eauto 10. }
  unfold bind, parse.
  destruct (insertPantrySchema_parse (fillDefaults d)) as [v|] eqn:Hparse.
  - cbn [ret]. unfold storage_createPantry.
    destruct (insertOutcome env (pantryStatements w)) as [newId|message].
    + cbn. do 2 eexists. split; [done|]. split; [done|]. left.
      eexists. split; [done|]. split; [|done]. by exists newId, v.
    + cbn. eauto 10.
  - cbn. eauto 10.
Qed.

Lemma importCandidates_rows index cands t w :
  ∃ w' t' added,
    importCandidates env index cands t w = (w', Returned t') ∧
    pantries (store w') = (pantries (store w) ++ added)%list ∧
    dataSyncSettings (store w') = dataSyncSettings (store w) ∧
    Forall (fun row => ∃ d, d ∈ cands ∧ createdFrom d row) added ∧
    successCount t' = (successCount t + List.length added)%nat ∧
    (errorCount t' + List.length added = errorCount t + List.length cands)%nat ∧
    (List.length (errorMessages t') + List.length added =
     List.length (errorMessages t) + List.length cands)%nat.
Proof.
  revert index t w. induction cands as [|d rest IH]; intros index t w.
  - exists w, t, []. cbn. rewrite app_nil_r. repeat split; [constructor|lia..].
  - destruct (importCandidate_rows index d t w) as (w1 & t1 & Hstep & Hset1 & Hcase).
    destruct (IH (S index) t1 w1)
      as (w' & t' & added & Hrun & Hrows & Hset & Hall & Hcount & Herr & Hmsg).
    cbn [importCandidates]. unfold bind at 1. rewrite Hstep, Hrun.
    assert (Forall (fun row => ∃ d0, d0 ∈ d :: rest ∧ createdFrom d0 row) added) as Hall'.
    { eapply Forall_impl; [exact Hall|]. intros row (d0 & Hin & Hfrom).
      exists d0. split; [by apply list_elem_of_further|done]. }
    destruct Hcase as [(row & Hp & Hfrom & ->)|(Hp & message & ->)].
    + exists w', t', (row :: added). split; [done|]. repeat split.
      * rewrite Hrows, Hp. by rewrite <- app_assoc.
      * congruence.
      * constructor; [|done]. exists d. split; [apply list_elem_of_here|done].
      * cbn [successCount List.length] in *. lia.
      * cbn [errorCount List.length] in *. lia.
      * cbn [errorMessages List.length] in *. lia.
    + exists w', t', added. split; [done|]. repeat split.
      * by rewrite Hrows, Hp.
      * congruence.
      * done.
      * by rewrite Hcount.
      * cbn [errorCount List.length] in *. lia.
      * cbn [errorMessages List.length] in *. rewrite length_app in Hmsg.
        cbn [List.length] in Hmsg. lia.
Qed.

End Loop.

(** What [mapRow] produces passes on to the stored row. *)
Lemma mapRow_created row d p :
  mapRow row = Some d → createdFrom d p →
  Pantry.name p = getName row ∧ skipName (getName row) = false ∧
  Pantry.isActive p = Some true ∧ Pantry.website p = None.
Proof.
  unfold mapRow. destruct (skipName (getName row)) eqn:Hskip; [done|].
  intros [= <-] (newId & v & Hparse & ->).
  unfold insertPantrySchema_parse, fillDefaults in Hparse.
  repeat match type of Hparse with
  | context [if ?c then _ else _] => destruct c
  end; cbn in Hparse; simplify_option_eq; done.
Qed.

Lemma getName_tidy row : tidy (getName row) = true.
Proof.
  unfold getName, cleaned.
  destruct (firstCell row _); [apply cleaned_tidy|done].
Qed.

Lemma candidates_mapRow rows d :
  d ∈ candidates rows → ∃ row, row ∈ rows ∧ keepRow row = true ∧ mapRow row = Some d.
Proof.
  unfold candidates. rewrite list_elem_of_omap.
  intros (row & Hin & Hmap). exists row.
  apply list_elem_of_In, filter_In in Hin as [Hin Hkeep].
  by rewrite list_elem_of_In.
Qed.

Lemma getPantries_all_active added :
  Forall (fun p => Pantry.isActive p = Some true) added → getPantries added = added.
Proof.
  unfold getPantries. induction 1 as [|p added Hactive _ IH]; [done|].
  cbn [List.filter]. unfold isActiveCond at 1. rewrite Hactive. cbn [selected].
  by rewrite IH.
Qed.

End UploadMore.

Import UploadMore.

(** X18.  What an upload stores: every row it adds is appended after the
    rows already there, is active, and bears the normalised name of one of
    the kept CSV rows, a name that is tidy and passes the name guard, so the
    listing afterwards is the listing before followed by the added rows. *)
Theorem uploadCsv_adds_listed_rows env (rows : list Row) w :
  ∃ w' response added,
    uploadCsv env (Some (Returned rows)) w = (w', Returned response) ∧
    pantries (store w') = (pantries (store w) ++ added)%list ∧
    dataSyncSettings (store w') = dataSyncSettings (store w) ∧
    getPantries (pantries (store w')) = (getPantries (pantries (store w)) ++ added)%list ∧
    Forall (fun p => ∃ row, row ∈ rows ∧ keepRow row = true ∧
                            Pantry.name p = getName row ∧
                            skipName (Pantry.name p) = false ∧
                            tidy (Pantry.name p) = true) added.
Proof.
  unfold uploadCsv, tryCatch. unfold bind at 1. cbn [lift].
  destruct (bool_decide (List.filter keepRow rows = [])) eqn:Hempty.
  - exists w, (UploadBadRequest "CSV file is empty or invalid"), [].
    cbn. rewrite !app_nil_r. by repeat split.
  - destruct (importCandidates_rows env 0 (omap mapRow (List.filter keepRow rows))
                (mkTally 0 0 []) w)
      as (w' & t' & added & Hrun & Hrows & Hset & Hall & _).
    unfold bind. rewrite Hrun. cbn [ret].
    assert (Forall (fun p => Pantry.isActive p = Some true ∧
                     ∃ row, row ∈ rows ∧ keepRow row = true ∧
                            Pantry.name p = getName row ∧
                            skipName (Pantry.name p) = false ∧
                            tidy (Pantry.name p) = true) added) as Hadded.
    { eapply Forall_impl; [exact Hall|]. intros p (d & Hd & Hfrom).
      apply candidates_mapRow in Hd as (row & Hin & Hkeep & Hmap).
      destruct (mapRow_created row d p Hmap Hfrom) as (Hname & Hskip & Hactive & _).
      split; [done|]. exists row. rewrite Hname. repeat split; try done.
      apply getName_tidy. }
    eexists w', _, added. split; [done|]. split; [done|]. split; [done|]. split.
    + rewrite Hrows. unfold getPantries. rewrite List.filter_app. f_equal.
      apply getPantries_all_active. eapply Forall_impl; [exact Hadded|]. by intros p [? _].
    + eapply Forall_impl; [exact Hadded|]. by intros p [_ ?].
Qed.



(** ** The SharePoint sync, continued *)

Module SyncMore.
Import Js Schema Storage StorageOps Effects SharePointService Routes Spec Spec2 SyncFacts.

Lemma fieldError_nil mapping columns field :
  fieldError mapping columns field = [] ↔
  ∃ column, mapping !! field = Some column ∧ truthyStr column = true ∧ column ∈ columns.
Proof.
  unfold fieldError. destruct (mapping !! field) as [column|].
  - destruct (truthyStr column) eqn:Htruthy; cbn [negb].
    + case_bool_decide as Hin.
      * split; [|done]. intros _. by exists column.
      * split; [done|]. by intros (? & [= <-] & _ & ?).
    + split; [done|]. intros (? & [= <-] & ? & _). congruence.
  - split; [done|]. by intros (? & ? & _).
Qed.

Lemma concat_nil {A} (ls : list (list A)) : List.concat ls = [] ↔ Forall (fun l => l = []) ls.
Proof.
  induction ls as [|l ls IH]; cbn [List.concat].
  - split; [constructor|done].
  - rewrite Forall_cons, <- IH. split.
    + by intros [-> ->]%app_eq_nil.
    + by intros [-> ->].
Qed.

Section Run.
Variable env : Env.
Variable numberToString : float → string.

(** A statement on the settings table leaves the pantries alone. *)
Lemma update_pantries id patch w :
  ∃ w' o, storage_updateDataSyncSettings env id patch w = (w', o) ∧
    pantries (store w') = pantries (store w).
Proof.
  unfold storage_updateDataSyncSettings, settingsStatement.
  destruct (settingsFault env (settingsStatements w)); by eexists _, _.
Qed.

Lemma importSynced_rows synced imported errors w :
  ∃ w' r added,
    importSynced env numberToString synced imported errors w = (w', Returned r) ∧
    pantries (store w') = (pantries (store w) ++ added)%list ∧
    Forall (fun row => ∃ d, d ∈ synced ∧ syncedFrom d row) added ∧
    fst r = (imported + List.length added)%nat ∧
    (List.length (snd r) + List.length added =
     List.length errors + List.length synced)%nat.
Proof.
  revert imported errors w. induction synced as [|d rest IH]; intros imported errors w.
  - exists w, (imported, errors), []. cbn. rewrite app_nil_r.
    repeat split; [constructor|lia..].
  - assert (∀ added,
              Forall (fun row => ∃ d0, d0 ∈ rest ∧ syncedFrom d0 row) added →
              Forall (fun row => ∃ d0, d0 ∈ d :: rest ∧ syncedFrom d0 row) added) as Hweaken.
    { intros added Hall. eapply Forall_impl; [exact Hall|].
      intros row (d0 & Hin & Hfrom). exists d0. split; [by apply list_elem_of_further|done]. }
    cbn [importSynced]. unfold bind at 1, tryCatch, bind, parse.
    destruct (insertPantrySchema_parse d) as [v|] eqn:Hparse.
    + cbn [ret]. unfold storage_createPantry.
      destruct (insertOutcome env (pantryStatements w)) as [newId|message]; cbn.
      * match goal with |- context [importSynced _ _ rest ?i ?e ?w0] =>
          destruct (IH i e w0) as (w' & r & added & -> & Hrows & Hall & Hcount & Herr) end.
        exists w', r, (insertedRow newId v :: added). split; [done|]. repeat split.
        -- rewrite Hrows. cbn. by rewrite <- app_assoc.
        -- constructor; [|by eapply Hweaken].
           exists d. split; [apply list_elem_of_here|]. by exists newId, v.
        -- rewrite Hcount. cbn. lia.
        -- cbn [List.length] in *. lia.
      * match goal with |- context [importSynced _ _ rest ?i ?e ?w0] =>
          destruct (IH i e w0) as (w' & r & added & -> & Hrows & Hall & Hcount & Herr) end.
        exists w', r, added. split; [done|]. repeat split; [done|by eapply Hweaken|done|].
        rewrite length_app in Herr. cbn [List.length] in *. lia.
    + cbn.
      match goal with |- context [importSynced _ _ rest ?i ?e ?w0] =>
        destruct (IH i e w0) as (w' & r & added & -> & Hrows & Hall & Hcount & Herr) end.
      exists w', r, added. split; [done|]. repeat split; [done|by eapply Hweaken|done|].
      rewrite length_app in Herr. cbn [List.length] in *. lia.
Qed.

(** A row created from a synced pantry is active and bears its name. *)
Lemma syncListData_created settings synced d row :
  syncListData numberToString (remote env) settings = Returned synced →
  d ∈ synced → syncedFrom d row →
  Pantry.isActive row = Some true ∧ Pantry.name row ≠ "" ∧
  Pantry.name row ≠ "Unknown Pantry".
Proof.
  unfold syncListData.
  destruct (negb (truthyOpt (DataSyncSettings.siteId settings)) ||
            negb (truthyOpt (DataSyncSettings.listId settings))); [done|].
  destruct (getAccessToken (tokenForItems (remote env)) settings); [|done].
  cbn [andThen]. destruct (itemsFetch (remote env)) as [items|]; [|done].
  cbn [andThen]. intros [= <-] Hin (newId & v & Hparse & ->).
  apply list_elem_of_In, filter_In in Hin as [Hin Husable].
  apply in_map_iff in Hin as (item & <- & _).
  unfold usableName in Husable. apply andb_true_iff in Husable as [Htruthy Hknown].
  unfold insertPantrySchema_parse in Hparse.
  destruct (zString (PantryData.name (pantryOfItem numberToString
              (DataSyncSettings.columnMapping settings) item))) as [name|] eqn:Hname;
    [|done].
  cbn [mbind option_bind] in Hparse.
  unfold zString in Hname.
  destruct (PantryData.name (pantryOfItem numberToString
              (DataSyncSettings.columnMapping settings) item)) as [| | | |s| |] eqn:Hn;
    try done.
  injection Hname as ->.
  assert (InsertPantry.name v = name ∧ InsertPantry.isActive v = Some (Some true))
    as [Hvname Hvactive].
  { cbn [pantryOfItem PantryData.isActive zOptBool] in Hparse.
    simplify_option_eq. done. }
  unfold insertedRow. cbn [Pantry.isActive Pantry.name]. rewrite Hvname, Hvactive.
  split; [done|]. split.
  - intros ->. done.
  - intros ->. unfold strictEqString in Hknown. by rewrite bool_decide_eq_true_2 in Hknown.
Qed.

End Run.
End SyncMore.

Import SyncMore.

Ltac step_update :=
  match goal with
  | |- context [storage_updateDataSyncSettings ?e ?i ?p ?w0] =>
      let w' := fresh "w" in
      let o := fresh "o" in
      let Hp := fresh "Hp" in
      destruct (update_pantries e i p w0) as (w' & o & -> & Hp);
      cbn [store pantries] in Hp;
      destruct o as [[]|?]
  end.

(** X20.  A sync only ever appends pantries: whatever the request and
    however it ends, the rows stored before are untouched, every row added
    is active and carries a name that is neither empty nor the placeholder
    [Unknown Pantry], so the listing grows by exactly the added rows; a
    completed sync reports their number as [imported], never an update, and
    at most ten errors. *)
Theorem sharepointSync_only_appends env numberToString (settingsId : JsValue) w :
  ∃ w' response added,
    sharepointSync env numberToString settingsId w = (w', Returned response) ∧
    pantries (store w') = (pantries (store w) ++ added)%list ∧
    Forall (fun p => Pantry.isActive p = Some true ∧ Pantry.name p ≠ "" ∧
                     Pantry.name p ≠ "Unknown Pantry") added ∧
    getPantries (pantries (store w')) = (getPantries (pantries (store w)) ++ added)%list ∧
    ∀ imported updated errs,
      response = SyncCompleted imported updated errs →
      imported = List.length added ∧ updated = 0%nat ∧ (List.length errs ≤ 10)%nat.
Proof.
  assert (∀ (w' : World) response added,
            pantries (store w') = (pantries (store w) ++ added)%list →
            Forall (fun p => Pantry.isActive p = Some true ∧ Pantry.name p ≠ "" ∧
                             Pantry.name p ≠ "Unknown Pantry") added →
            (∀ imported updated errs,
               response = SyncCompleted imported updated errs →
               imported = List.length added ∧ updated = 0%nat ∧
               (List.length errs ≤ 10)%nat) →
            ∃ w'' response' added',
              (w', Returned response) = (w'', Returned response') ∧
              pantries (store w'') = (pantries (store w) ++ added')%list ∧
              Forall (fun p => Pantry.isActive p = Some true ∧ Pantry.name p ≠ "" ∧
                               Pantry.name p ≠ "Unknown Pantry") added' ∧
              getPantries (pantries (store w'')) =
                (getPantries (pantries (store w)) ++ added')%list ∧
              ∀ imported updated errs,
                response' = SyncCompleted imported updated errs →
                imported = List.length added' ∧ updated = 0%nat ∧
                (List.length errs ≤ 10)%nat) as Hclose.
  { intros w' response added Hrows Hall Hresp. exists w', response, added.
    split; [done|]. split; [done|]. split; [done|]. split; [|done].
    rewrite Hrows. unfold getPantries. rewrite List.filter_app. f_equal.
    apply getPantries_all_active. eapply Forall_impl; [exact Hall|]. by intros p [? _]. }
  assert (∀ (w' : World) response,
            pantries (store w') = pantries (store w) →
            (∀ imported updated errs, response ≠ SyncCompleted imported updated errs) →
            ∃ w'' response' added',
              (w', Returned response) = (w'', Returned response') ∧
              pantries (store w'') = (pantries (store w) ++ added')%list ∧
              Forall (fun p => Pantry.isActive p = Some true ∧ Pantry.name p ≠ "" ∧
                               Pantry.name p ≠ "Unknown Pantry") added' ∧
              getPantries (pantries (store w'')) =
                (getPantries (pantries (store w)) ++ added')%list ∧
              ∀ imported updated errs,
                response' = SyncCompleted imported updated errs →
                imported = List.length added' ∧ updated = 0%nat ∧
                (List.length errs ≤ 10)%nat) as Hplain.
  { intros w' response Hrows Hresp. apply (Hclose w' response []).
    - by rewrite app_nil_r.
    - constructor.
    - intros ? ? ? Heq. by destruct (Hresp _ _ _ Heq). }
  unfold sharepointSync. destruct (truthy settingsId); cbn [negb].
  2: { by apply Hplain. }
  unfold tryCatch at 1. unfold bind at 1.
  unfold storage_getDataSyncSettings, settingsStatement.
  destruct (settingsFault env (settingsStatements w)) as [m0|].
  { by apply Hplain. }
  destruct (List.find _ (getDataSyncSettings (store w))) as [settings|].
  2: { by apply Hplain. }
  unfold bind at 1. step_update.
  2: { by apply Hplain. }
  unfold tryCatch.
  destruct (valid (validateMapping (remote env) settings)); cbn [negb].
  - unfold bind at 1. unfold lift.
    destruct (syncListData numberToString (remote env) settings) as [synced|m2] eqn:Hsync.
    + unfold bind at 1.
      match goal with |- context [importSynced _ _ synced ?i ?e ?w0] =>
        destruct (importSynced_rows env numberToString synced i e w0)
          as (w3 & r & added & -> & Hrows & Hall & Hcount & Herr) end.
      rewrite Hp in Hrows.
      assert (Forall (fun p => Pantry.isActive p = Some true ∧ Pantry.name p ≠ "" ∧
                               Pantry.name p ≠ "Unknown Pantry") added) as Hadded.
      { eapply Forall_impl; [exact Hall|]. intros p (d & Hd & Hfrom).
        by eapply syncListData_created. }
      unfold bind at 1. step_update.
      * apply (Hclose _ _ added); [by rewrite Hp0|done|].
        intros ? ? ? [= <- <- <-]. rewrite Hcount. split; [done|]. split; [done|].
        rewrite length_take. lia.
      * unfold bind at 1. step_update.
        -- apply (Hclose _ _ added); [by rewrite Hp1, Hp0|done|done].
        -- apply (Hclose _ _ added); [by rewrite Hp1, Hp0|done|done].
    + unfold bind at 1. step_update; apply Hplain; try done; by rewrite Hp0.
  - unfold bind at 1. step_update.
    + apply Hplain; [by rewrite Hp0|done].
    + unfold bind at 1. step_update; apply Hplain; try done; by rewrite Hp1, Hp0.
Qed.

(** X21.  A deactivated configuration cannot be synced: after
    [deleteDataSyncSettings] the configuration is no longer among the
    active ones, and a sync asked for it is answered not found (or failed,
    if the store does not answer), never completed, and changes nothing in
    the store. *)
Theorem sharepointSync_after_deleteDataSyncSettings env numberToString (id : string) w :
  let st := deleteDataSyncSettings id (store w) in
  (∀ s, s ∈ getDataSyncSettings st → DataSyncSettings.id s ≠ id) ∧
  ∃ w' response,
    sharepointSync env numberToString (JString id)
      (mkWorld st (pantryStatements w) (settingsStatements w)) = (w', Returned response) ∧
    store w' = st ∧
    (response = SettingsIdRequired ∨ response = SettingsNotFound ∨
     ∃ message, response = SyncFailed message).
Proof.
  cbn zeta.
  assert (∀ s, s ∈ getDataSyncSettings (deleteDataSyncSettings id (store w)) →
               DataSyncSettings.id s ≠ id) as Hgone.
  { intros s Hs Hid. unfold getDataSyncSettings in Hs.
    apply list_elem_of_In, filter_In in Hs as [Hin Hactive].
    cbn [deleteDataSyncSettings dataSyncSettings] in Hin.
    apply in_map_iff in Hin as (s0 & Heq & _).
    destruct (decide (DataSyncSettings.id s0 = id)) as [Hs0|Hs0]; subst s; [done|].
    by destruct Hs0. }
  split; [exact Hgone|].
  unfold sharepointSync. destruct (truthy (JString id)); cbn [negb].
  2: { eexists _, _. split; [done|]. split; [done|]. by left. }
  unfold tryCatch at 1. unfold bind at 1.
  unfold storage_getDataSyncSettings, settingsStatement.
  cbn [settingsStatements store pantryStatements].
  destruct (settingsFault env (settingsStatements w)) as [m0|].
  { eexists _, _. split; [done|]. split; [done|]. right. right. by eexists. }
  destruct (List.find _ (getDataSyncSettings (deleteDataSyncSettings id (store w))))
    as [settings|] eqn:Hfind.
  - apply find_some in Hfind as [Hin Heq]. apply list_elem_of_In in Hin.
    unfold strictEqString in Heq. apply bool_decide_eq_true in Heq.
    by destruct (Hgone settings Hin).
  - eexists _, _. split; [done|]. split; [done|]. right. by left.
Qed.

(** X22.  [validateMapping] accepts a configuration exactly when the
    column catalog could be fetched and each of the five required fields
    is mapped to a non-empty column name found in that catalog; mappings
    of other fields are not looked at. *)
Theorem validateMapping_valid_iff (remote : Remote) (settings : DataSyncSettings.t) :
  valid (validateMapping remote settings) = true ↔
  ∃ availableColumns,
    getListColumns remote settings = Returned availableColumns ∧
    ∀ field, field ∈ ["name"; "address"; "city"; "state"; "zipCode"] →
      ∃ column, DataSyncSettings.columnMapping settings !! field = Some column ∧
                column ≠ "" ∧ column ∈ availableColumns.
Proof.
  unfold validateMapping. cbn [valid]. rewrite bool_decide_eq_true.
  destruct (getListColumns remote settings) as [availableColumns|message].
  - rewrite concat_nil, Forall_forall. split.
    + intros Hall. exists availableColumns. split; [done|]. intros field Hfield.
      assert (fieldError (DataSyncSettings.columnMapping settings) availableColumns field
              = []) as Hnone.
      { apply Hall, list_elem_of_In, in_map, list_elem_of_In, Hfield. }
      apply fieldError_nil in Hnone as (column & Hmap & Htruthy & Hin).
      exists column. split; [done|]. split; [|done]. by intros ->.
    + intros (columns & [= <-] & Hall) errs Herrs.
      apply list_elem_of_In, in_map_iff in Herrs as (field & <- & Hfield).
      apply list_elem_of_In in Hfield.
      destruct (Hall field Hfield) as (column & Hmap & Hne & Hin).
      apply fieldError_nil. exists column. split; [done|]. split; [|done].
      by destruct column.
  - split; [done|]. by intros (? & ? & _).
Qed.


(** ** The export *)

Module ExportFacts.
Import Js Schema ExportService Csv Spec2.

Lemma append_cons c a b : String c a +:+ b = String c (a +:+ b).
Proof. done. Qed.

Lemma append_empty b : "" +:+ b = b.
Proof. done. Qed.

Lemma append_assoc' (a b c : string) : (a +:+ b) +:+ c = a +:+ (b +:+ c).
Proof.
  induction a as [|x a IH]; [done|]. rewrite !append_cons. by rewrite IH.
Qed.

Lemma includes_single c s : includes (String c "") s = occurs c s.
Proof.
  induction s as [|d s IH]; [done|]. cbn [includes startsWith occurs]. rewrite IH.
  destruct (decide (c = d)) as [->|Hne].
  - by rewrite bool_decide_eq_true_2.
  - by rewrite bool_decide_eq_false_2 by congruence.
Qed.

Lemma replaceAll_quote s : replaceAll quote (quote +:+ quote) s = doubled s.
Proof.
  unfold replaceAll. induction s as [|c s IH]; [done|].
  cbn [replaceAll_go doubled]. unfold quote at 1. cbn [startsWith].
  destruct (decide (dquote = c)) as [<-|Hne].
  - rewrite decide_True by done. change (String.length quote - 1)%nat with 0%nat.
    rewrite IH. done.
  - rewrite decide_False by congruence. by rewrite IH.
Qed.

Lemma occurs_doubled c s : occurs c (doubled s) = occurs c s.
Proof.
  induction s as [|d s IH]; [done|]. cbn [doubled occurs].
  destruct (decide (d = dquote)) as [->|Hne]; cbn [occurs]; rewrite IH; [|done].
  by destruct (bool_decide (dquote = c)).
Qed.

Lemma doubled_plain s : occurs dquote s = false → doubled s = s.
Proof.
  induction s as [|d s IH]; [done|]. cbn [doubled occurs].
  intros [Hd%bool_decide_eq_false Hs]%orb_false_elim.
  rewrite decide_False by done. by rewrite IH.
Qed.

(** [escapeCSVValue] on a text: quoted, with the quotes doubled, when the
    text holds a comma, a quote, a line feed or a carriage return. *)
Lemma escapeText_special s :
  escapeText s = if special s then quote +:+ doubled s +:+ quote else s.
Proof.
  assert (∀ x, includes quote x = occurs dquote x) as Hq by apply includes_single.
  assert (∀ x, includes comma x = occurs ","%char x) as Hc by apply includes_single.
  assert (∀ x, includes newline x = occurs "010"%char x) as Hn by apply includes_single.
  assert (∀ x, includes carriageReturn x = occurs "013"%char x) as Hr
    by apply includes_single.
  unfold escapeText, special. cbv zeta. rewrite !Hq, !Hc, !Hn, !Hr.
  destruct (occurs dquote s) eqn:Hquote; cbv iota.
  - rewrite replaceAll_quote, !occurs_doubled, Hquote.
    by rewrite orb_true_r.
  - rewrite Hquote. rewrite orb_false_r.
    destruct (occurs "," s || occurs "010" s || occurs "013" s) eqn:Hother.
    + rewrite doubled_plain by done.
      destruct (occurs "," s), (occurs "010" s), (occurs "013" s); done.
    + destruct (occurs "," s), (occurs "010" s), (occurs "013" s); done.
Qed.

Section Generate.
Variable toISOString : Z → string.

Lemma escapeCSVValue_text value :
  escapeCSVValue toISOString value = escapeText (stringValue toISOString value).
Proof. by destruct value. Qed.

End Generate.

(** *** Reading a field *)

Lemma addChars_started f fs rs : addChars f ("", fs, rs, true) = (f, fs, rs, true).
Proof. induction f as [|c f IH]; [done|]. cbn [addChars]. by rewrite IH. Qed.

Lemma readFrom_quote_open s :
  readFrom AtStart (String dquote s) = begun (readFrom InQuoted s).
Proof. done. Qed.

Lemma readFrom_quote_close s :
  readFrom InQuoted (String dquote s) = begun (readFrom AfterQuote s).
Proof. done. Qed.

Lemma readFrom_quote_doubled s :
  readFrom AfterQuote (String dquote s) = addChar dquote (readFrom InQuoted s).
Proof. done. Qed.

Lemma readFrom_quoted_char c s :
  c ≠ dquote → readFrom InQuoted (String c s) = addChar c (readFrom InQuoted s).
Proof. intros Hc. cbn [readFrom]. by rewrite decide_False. Qed.

Lemma readFrom_comma mode s :
  mode ≠ InQuoted → readFrom mode (String "," s) = endField (readFrom AtStart s).
Proof. by destruct mode. Qed.

Lemma readFrom_newline mode s :
  mode ≠ InQuoted → readFrom mode (String "010" s) = endRecord (readFrom AtStart s).
Proof. by destruct mode. Qed.

Lemma readFrom_plain_char c s :
  c ≠ ","%char → c ≠ "010"%char →
  readFrom InPlain (String c s) = addChar c (readFrom InPlain s).
Proof. intros H1 H2. cbn [readFrom]. by rewrite !decide_False. Qed.

Lemma readFrom_start_char c s :
  c ≠ dquote → c ≠ ","%char → c ≠ "010"%char →
  readFrom AtStart (String c s) = addChar c (readFrom InPlain s).
Proof. intros H0 H1 H2. cbn [readFrom]. by rewrite !decide_False. Qed.

Lemma readFrom_delim mode c tail :
  c = ","%char ∨ c = "010"%char → mode ≠ InQuoted →
  readFrom mode (String c tail) = readFrom InPlain (String c tail).
Proof.
  intros [-> | ->] Hmode.
  - by rewrite !readFrom_comma.
  - by rewrite !readFrom_newline.
Qed.

Lemma readFrom_delim_started c tail :
  c = ","%char ∨ c = "010"%char →
  ∃ fs rs, readFrom InPlain (String c tail) = ("", fs, rs, true).
Proof.
  intros [-> | ->].
  - rewrite readFrom_comma by done.
    destruct (readFrom AtStart tail) as [[[f fs] rs] b]. by eexists _, _.
  - rewrite readFrom_newline by done. by eexists _, _.
Qed.

Lemma begun_addChar c r : begun (addChar c r) = addChar c r.
Proof. by destruct r as [[[? ?] ?] ?]. Qed.

Lemma read_plain f tail :
  occurs ","%char f = false → occurs "010"%char f = false →
  readFrom InPlain (f +:+ tail) = addChars f (readFrom InPlain tail).
Proof.
  induction f as [|c f IH]; [done|]. cbn [occurs].
  intros [Hc1%bool_decide_eq_false H1]%orb_false_elim
         [Hc2%bool_decide_eq_false H2]%orb_false_elim.
  rewrite append_cons, readFrom_plain_char by done. cbn [addChars]. by rewrite IH.
Qed.

Lemma read_quoted f c tail :
  c = ","%char ∨ c = "010"%char →
  readFrom InQuoted (doubled f +:+ String dquote (String c tail)) =
  addChars f (readFrom InPlain (String c tail)).
Proof.
  intros Hc. induction f as [|d f IH].
  - cbn [doubled addChars]. rewrite append_empty, readFrom_quote_close.
    rewrite (readFrom_delim AfterQuote) by done.
    by destruct (readFrom_delim_started c tail Hc) as (fs & rs & ->).
  - cbn [doubled addChars]. destruct (decide (d = dquote)) as [->|Hd].
    + rewrite !append_cons, readFrom_quote_close, readFrom_quote_doubled, IH.
      apply begun_addChar.
    + rewrite append_cons, readFrom_quoted_char by done. by rewrite IH.
Qed.

(** A field written by [escapeCSVValue] reads back as the text. *)
Lemma read_field f c tail :
  c = ","%char ∨ c = "010"%char →
  readFrom AtStart (escapeText f +:+ String c tail) =
  addChars f (readFrom InPlain (String c tail)).
Proof.
  intros Hc. rewrite escapeText_special. destruct (special f) eqn:Hspecial.
  - rewrite !append_assoc'. unfold quote. rewrite append_cons, append_empty.
    rewrite readFrom_quote_open.
    rewrite append_cons, append_empty. rewrite (read_quoted f c tail Hc).
    destruct (readFrom_delim_started c tail Hc) as (fs & rs & ->).
    by rewrite addChars_started.
  - unfold special in Hspecial.
    apply orb_false_elim in Hspecial as [Hspecial Hcr].
    apply orb_false_elim in Hspecial as [Hspecial Hlf].
    apply orb_false_elim in Hspecial as [Hcomma Hquote].
    destruct f as [|d f].
    + rewrite append_empty. cbn [addChars]. by apply readFrom_delim.
    + cbn [occurs] in Hcomma, Hquote, Hlf.
      apply orb_false_elim in Hcomma as [Hd1%bool_decide_eq_false Hcomma].
      apply orb_false_elim in Hquote as [Hd2%bool_decide_eq_false Hquote].
      apply orb_false_elim in Hlf as [Hd3%bool_decide_eq_false Hlf].
      rewrite append_cons, readFrom_start_char by done. cbn [addChars].
      by rewrite read_plain.
Qed.

(** *** Reading a record and a text *)

Lemma line_cons f g fs rest :
  line (f :: g :: fs) +:+ rest = escapeText f +:+ String "," (line (g :: fs) +:+ rest).
Proof.
  unfold line. cbn [List.map join]. rewrite !append_assoc'.
  by rewrite append_cons, append_empty.
Qed.

Lemma line_single f rest :
  line [f] +:+ rest = escapeText f +:+ String "010" rest.
Proof.
  unfold line, newline. cbn [List.map join]. rewrite append_assoc'.
  by rewrite append_cons, append_empty.
Qed.

Lemma read_line f fs rest :
  readFrom AtStart (line (f :: fs) +:+ rest) = (f, fs, close (readFrom AtStart rest), true).
Proof.
  revert f. induction fs as [|g fs IH]; intros f.
  - rewrite line_single, read_field by by right.
    rewrite readFrom_newline by done. unfold endRecord. by rewrite addChars_started.
  - rewrite line_cons, read_field by by left.
    rewrite readFrom_comma by done. rewrite IH. cbn [endField].
    by rewrite addChars_started.
Qed.

Lemma read_lines (records : list (list string)) :
  Forall (fun fields => fields ≠ []) records →
  read (foldr (fun fields rest => line fields +:+ rest) "" records) = records.
Proof.
  unfold read. induction 1 as [|fields records Hne _ IH]; [done|].
  cbn [foldr]. destruct fields as [|f fs]; [done|].
  rewrite read_line. cbn [close]. by rewrite IH.
Qed.

Lemma foldl_append {A} (g : A → string) (init : string) (l : list A) :
  foldl (fun acc x => acc +:+ g x) init l = init +:+ foldr (fun x rest => g x +:+ rest) "" l.
Proof.
  revert init. induction l as [|x l IH]; intros init; cbn [foldl foldr].
  - induction init as [|c init IHi]; [done|]. rewrite append_cons. by rewrite <- IHi.
  - by rewrite IH, append_assoc'.
Qed.

End ExportFacts.

Import ExportService ExportFacts.

(** X24.  An export reads back as the table: read as comma-separated text
    with double-quote quoting, what [generateCSV] writes for a list of
    pantries is the header row followed by one record per pantry, in
    order, whose fields are the texts of the pantry's values, whatever
    commas, quotes and line breaks they hold.  For an empty list only a
    header row is written, and it lacks the [id] column. *)
Theorem generateCSV_reads_back (toISOString : Z → string) (pantries : list StoredPantry) :
  Csv.read (generateCSV toISOString pantries) =
  match pantries with
  | [] => [List.tail headers]
  | _ =>
      headers ::
      List.map (fun p => List.map (fun header => stringValue toISOString (cellOf p header))
                           headers) pantries
  end.
Proof.
  destruct pantries as [|p pantries]; [by vm_compute|].
  unfold generateCSV. rewrite foldl_append.
  set (records := List.map (fun p => List.map (fun header =>
                    stringValue toISOString (cellOf p header)) headers) (p :: pantries)).
  assert (foldr (fun x rest => csvLine toISOString x +:+ rest) "" (p :: pantries) =
          foldr (fun fields rest => line fields +:+ rest) "" records) as ->.
  { unfold records. generalize (p :: pantries). intros l.
    induction l as [|x l IH]; [done|]. cbn [foldr List.map]. rewrite IH. f_equal.
    unfold csvLine, line. f_equal. f_equal. rewrite List.map_map.
    apply List.map_ext. intros header. apply escapeCSVValue_text. }
  change (join "," headers +:+ newline) with (line headers).
  change (line headers +:+ foldr (fun fields rest => line fields +:+ rest) "" records)
    with (foldr (fun fields rest => line fields +:+ rest) "" (headers :: records)).
  apply read_lines. constructor; [done|].
  unfold records. apply Forall_forall. intros fields Hin.
  apply list_elem_of_In, in_map_iff in Hin as (x & <- & _). done.
Qed.
